(** * image-tools: geometry, raster, editor and WAV encoder, verified

    A shallow embedding of the TypeScript sources

    - [utils/geometry.ts]  (rectangle arithmetic, hit testing),
    - [utils/canvas.ts]    (edge sampling, colour-distance background removal),
    - [utils/audio.ts]     (RIFF/WAVE serialisation),
    - [components/ImageEditor.tsx] (pointer handlers, undo/redo, commits),

    followed by the properties the specification states about them and by
    further properties of the same code: the remaining handlers of the
    editor with its resize form and event loop, and [formatFileSize].

    JavaScript numbers are IEEE-754 binary64 values; they are modelled by
    Rocq's primitive [float], whose operations are the same binary64
    operations, so every expression below evaluates bit-for-bit as in the
    source.  Numbers that only ever hold small integers (pixel bytes, image
    dimensions, counters, byte offsets) are modelled by [Z] or [nat]: on
    integers below 2^53 binary64 addition, subtraction and multiplication
    are exact. *)

From Stdlib Require Import ZArith Floats Lia Bool.
From stdpp Require Import base numbers option list strings pretty.

Set Warnings "-inexact-float".
Open Scope Z_scope.

(** ** JavaScript number conversions *)

Module JS.

(** A small integer as a Number. *)
Definition Z2F (z : Z) : float :=
  if z <? 0 then (- of_uint63 (Uint63.of_Z (- z)))%float
  else of_uint63 (Uint63.of_Z z).

(** [truncate(x)] of the ECMAScript conversions, 0 for NaN, zeros and
    infinities; ToInt16 and ToUint32 reduce it modulo 2^16 and 2^32. *)
Definition SF_trunc (s : spec_float) : Z :=
  match s with
  | S754_finite sg m e =>
      let a := Z.shiftl (Zpos m) e in if sg then - a else a
  | _ => 0
  end.

Definition truncate (x : float) : Z := SF_trunc (Prim2SF x).

Definition wrapInt16 (z : Z) : Z :=
  let m := z mod 2 ^ 16 in if 2 ^ 15 <=? m then m - 2 ^ 16 else m.

Definition ToInt16 (x : float) : Z := wrapInt16 (truncate x).

(** Integral Number values, as [Math.round] returns them. *)
Inductive integral : Type :=
| INaN
| IInf (negative : bool)
| IInt (z : Z).

(** [Math.round]: the integer closest to [x], ties towards +infinity,
    computed exactly on the value [m * 2^e]. *)
Definition Math_round (x : float) : integral :=
  match Prim2SF x with
  | S754_nan => INaN
  | S754_infinity sg => IInf sg
  | S754_zero _ => IInt 0
  | S754_finite sg m e =>
      let v := if sg then Zneg m else Zpos m in
      if 0 <=? e then IInt (v * 2 ^ e)
      else IInt ((2 * v + 2 ^ (- e)) / (2 * 2 ^ (- e)))
  end.

(** Storing into a [Uint8ClampedArray] element (ToUint8Clamp). *)
Definition ToUint8Clamp (n : integral) : Z :=
  match n with
  | INaN => 0
  | IInf negative => if negative then 0 else 255
  | IInt z => Z.max 0 (Z.min 255 z)
  end.

(** [Math.min] and [Math.max] on two arguments: NaN is contagious and
    -0 is below +0. *)
Definition Math_min (a b : float) : float :=
  if is_nan a || is_nan b then nan
  else if (a <? b)%float then a
  else if (b <? a)%float then b
  else if get_sign a then a else b.

Definition Math_max (a b : float) : float :=
  if is_nan a || is_nan b then nan
  else if (a <? b)%float then b
  else if (b <? a)%float then a
  else if get_sign a then b else a.

(** [Math.round(a / b)] for non-negative integers [a] and positive [b]
    far below 2^53: the quotient is within 2^-53 relative error of [a/b],
    which is either exactly a half-integer (then representable) or at
    least [1/(2b)] away from one, so the result is the exact
    round-half-up of the rational [a/b]. *)
Definition round_div (a b : Z) : Z := (2 * a + b) / (2 * b).

(** How a call completes: it returns a value, or it throws (the only
    exception below is the [TypeError] of a WebIDL argument conversion). *)
Inductive completion (A : Type) : Type :=
| Returns (value : A)
| Throws.
Arguments Returns {A} value.
Arguments Throws {A}.

End JS.

(** ** utils/geometry.ts *)

Module Geometry.

Record SelectionRect : Type := mkRect
  { x : float; y : float; width : float; height : float }.

Inductive ResizeHandle : Type :=
| TopLeft | TopRight | BottomLeft | BottomRight
| Top | Bottom | Left | Right.

Record Point : Type := mkPoint { pt_x : float; pt_y : float }.

Definition HANDLE_SIZE : float := 8.
Definition HANDLE_HIT_SIZE : float := 14.

Definition normalizeRect (rect : SelectionRect) : SelectionRect :=
  {| x := if (width rect <? 0)%float then (x rect + width rect)%float else x rect;
     y := if (height rect <? 0)%float then (y rect + height rect)%float else y rect;
     width := abs (width rect);
     height := abs (height rect) |}.

(** The object literal, as the ordered list of its entries
    ([Object.entries] enumerates string keys in insertion order). *)
Definition getHandlePositions (rect : SelectionRect)
  : list (ResizeHandle * Point) :=
  let n := normalizeRect rect in
  [ (TopLeft, mkPoint (x n) (y n));
    (Top, mkPoint (x n + width n / 2) (y n));
    (TopRight, mkPoint (x n + width n) (y n));
    (Right, mkPoint (x n + width n) (y n + height n / 2));
    (BottomRight, mkPoint (x n + width n) (y n + height n));
    (Bottom, mkPoint (x n + width n / 2) (y n + height n));
    (BottomLeft, mkPoint (x n) (y n + height n));
    (Left, mkPoint (x n) (y n + height n / 2)) ]%float.

(** The [for ... of entries] loop with its early [return]. *)
Fixpoint hitTestEntries (entries : list (ResizeHandle * Point))
    (px py : float) : option ResizeHandle :=
  match entries with
  | [] => None
  | (handle, pos) :: rest =>
      if (abs (px - pt_x pos) <=? HANDLE_HIT_SIZE)%float
         && (abs (py - pt_y pos) <=? HANDLE_HIT_SIZE)%float
      then Some handle
      else hitTestEntries rest px py
  end.

Definition hitTestHandle (rect : SelectionRect) (px py : float)
  : option ResizeHandle :=
  hitTestEntries (getHandlePositions rect) px py.

Definition hitTestSelection (rect : SelectionRect) (px py : float) : bool :=
  let n := normalizeRect rect in
  (x n <=? px)%float && (px <=? x n + width n)%float
  && (y n <=? py)%float && (py <=? y n + height n)%float.

Inductive Cursor : Type := nwse_resize | nesw_resize | ns_resize | ew_resize.

Definition getResizeCursor (handle : ResizeHandle) : Cursor :=
  match handle with
  | TopLeft => nwse_resize
  | TopRight => nesw_resize
  | BottomLeft => nesw_resize
  | BottomRight => nwse_resize
  | Top => ns_resize
  | Bottom => ns_resize
  | Left => ew_resize
  | Right => ew_resize
  end.

Definition applyResize (original : SelectionRect) (handle : ResizeHandle)
    (dx dy : float) : SelectionRect :=
  let n := normalizeRect original in
  let '(x0, y0, w0, h0) := (x n, y n, width n, height n) in
  (match handle with
   | TopLeft => mkRect (x0 + dx) (y0 + dy) (w0 - dx) (h0 - dy)
   | Top => mkRect x0 (y0 + dy) w0 (h0 - dy)
   | TopRight => mkRect x0 (y0 + dy) (w0 + dx) (h0 - dy)
   | Right => mkRect x0 y0 (w0 + dx) h0
   | BottomRight => mkRect x0 y0 (w0 + dx) (h0 + dy)
   | Bottom => mkRect x0 y0 w0 (h0 + dy)
   | BottomLeft => mkRect (x0 + dx) y0 (w0 - dx) (h0 + dy)
   | Left => mkRect (x0 + dx) y0 (w0 - dx) h0
   end)%float.

End Geometry.

(** ** utils/canvas.ts: raster operations on pixel buffers *)

Module Canvas.
Import JS.

(** Channels are 8-bit values, 0..255. *)
Record RGBColor : Type := mkRGB { r : Z; g : Z; b : Z }.

(** A decoded image drawn on an off-screen canvas: its natural size and
    the RGBA bytes [getImageData] returns, row by row.  A data URL made
    by [toDataURL("image/png")] is identified with the image it encodes
    (PNG is lossless); what a canvas loses, it loses when pixels are put
    into it, see [CanvasStore] below. *)
Record Image : Type := mkImage
  { naturalWidth : Z; naturalHeight : Z; pixels : list Z }.

(** Byte [k] of [ctx.getImageData(cx, cy, 1, 1).data]; transparent black
    outside the canvas. *)
Definition getImageData1 (image : Image) (cx cy : Z) (k : Z) : Z :=
  if (0 <=? cx) && (cx <? naturalWidth image)
     && (0 <=? cy) && (cy <? naturalHeight image)
  then default 0 (pixels image !! Z.to_nat (4 * (cy * naturalWidth image + cx) + k))
  else 0.

(** *** getPixelColor *)

Definition isNegative (n : integral) : bool :=
  match n with
  | INaN => false
  | IInf negative => negative
  | IInt z => z <? 0
  end.

Definition atLeast (n : integral) (bound : Z) : bool :=
  match n with
  | INaN => false
  | IInf negative => negb negative
  | IInt z => bound <=? z
  end.

(** The conversion of an argument of [getImageData], declared
    [[EnforceRange] long]: [None] is the [TypeError] it throws on NaN, on
    an infinity and outside -2^31 .. 2^31 - 1. *)
Definition toLong (n : integral) : option Z :=
  match n with
  | IInt z => if (- 2 ^ 31 <=? z) && (z <? 2 ^ 31) then Some z else None
  | _ => None
  end.

(** A NaN coordinate passes the four comparisons (each is false) and
    reaches [getImageData], which throws; [Returns None] is [null]. *)
Definition getPixelColor (image : Image) (canvasX canvasY : float)
    (scale offsetX offsetY : float) : completion (option RGBColor) :=
  let imgX := Math_round ((canvasX - offsetX) / scale)%float in
  let imgY := Math_round ((canvasY - offsetY) / scale)%float in
  if isNegative imgX || isNegative imgY
     || atLeast imgX (naturalWidth image) || atLeast imgY (naturalHeight image)
  then Returns None
  else match toLong imgX, toLong imgY with
       | Some cx, Some cy =>
           Returns (Some (mkRGB (getImageData1 image cx cy 0)
                                (getImageData1 image cx cy 1)
                                (getImageData1 image cx cy 2)))
       | _, _ => Throws
       end.

(** *** detectBackgroundColor *)

(** [addSample]; the coordinates it receives are integers, on which
    [Math.round] is the identity. *)
Definition addSample (image : Image) (colors : list RGBColor) (x y : Z)
  : list RGBColor :=
  let w := naturalWidth image in
  let h := naturalHeight image in
  let cx := Z.max 0 (Z.min (w - 1) x) in
  let cy := Z.max 0 (Z.min (h - 1) y) in
  colors ++ [ mkRGB (getImageData1 image cx cy 0)
                    (getImageData1 image cx cy 1)
                    (getImageData1 image cx cy 2) ].

(** [for (let i = start; i < limit; i += step) colors = body colors i];
    [None] when the fuel runs out before the loop condition fails. *)
Fixpoint edgeLoop (fuel : nat) (i limit step : Z)
    (body : list RGBColor -> Z -> list RGBColor) (colors : list RGBColor)
  : option (list RGBColor) :=
  if i <? limit then
    match fuel with
    | O => None
    | S fuel' => edgeLoop fuel' (i + step) limit step body (body colors i)
    end
  else Some colors.

Definition sampleEdges (image : Image) : option (list RGBColor) :=
  let w := naturalWidth image in
  let h := naturalHeight image in
  let sampleCount := Z.min 200 ((w + h) * 2) in
  let step := Z.max 1 ((w + h) * 2 / sampleCount) in
  colors ← edgeLoop (Z.to_nat w) 0 w step
    (fun colors i => addSample image (addSample image colors i 0) i (h - 1)) [];
  edgeLoop (Z.to_nat h) 0 h step
    (fun colors i => addSample image (addSample image colors 0 i) (w - 1) i) colors.

Record Bucket : Type := mkBucket
  { count : Z; totalR : Z; totalG : Z; totalB : Z }.

(** The key string ["R,G,B"] of three non-negative integers, as the
    triple it prints. *)
Definition Key : Type := Z * Z * Z.

Definition bucketSize : Z := 16.

Definition keyOf (c : RGBColor) : Key :=
  (r c / bucketSize, g c / bucketSize, b c / bucketSize).

(** A JavaScript [Map]: entries in insertion order; [set] on a present
    key keeps its place. *)
Fixpoint map_get (buckets : list (Key * Bucket)) (key : Key) : option Bucket :=
  match buckets with
  | [] => None
  | (k, v) :: rest => if decide (k = key) then Some v else map_get rest key
  end.

Fixpoint map_set (buckets : list (Key * Bucket)) (key : Key) (value : Bucket)
  : list (Key * Bucket) :=
  match buckets with
  | [] => [(key, value)]
  | (k, v) :: rest =>
      if decide (k = key) then (k, value) :: rest
      else (k, v) :: map_set rest key value
  end.

Definition addToBucket (buckets : list (Key * Bucket)) (c : RGBColor)
  : list (Key * Bucket) :=
  let key := keyOf c in
  let bucket := default (mkBucket 0 0 0 0) (map_get buckets key) in
  let bucket := mkBucket (count bucket + 1) (totalR bucket + r c)
                         (totalG bucket + g c) (totalB bucket + b c) in
  map_set buckets key bucket.

Definition fillBuckets (colors : list RGBColor) : list (Key * Bucket) :=
  fold_left addToBucket colors [].

Definition pickBest (buckets : list (Key * Bucket)) : Bucket :=
  fold_left (fun bestBucket kv =>
               if count bestBucket <? count (snd kv) then snd kv else bestBucket)
            buckets (mkBucket 0 255 255 255).

(** [None]: the loops were cut short, or no edge pixel was sampled and
    the source's channels are not finite (division by a zero count). *)
Definition detectBackgroundColor (image : Image) : option RGBColor :=
  colors ← sampleEdges image;
  let bestBucket := pickBest (fillBuckets colors) in
  if count bestBucket =? 0 then None
  else Some (mkRGB (round_div (totalR bestBucket) (count bestBucket))
                   (round_div (totalG bestBucket) (count bestBucket))
                   (round_div (totalB bestBucket) (count bestBucket))).

(** *** removeBackground *)

(** [Math.sqrt] of the sum of the three squared channel differences; the
    differences, squares and sum are integers below 2^18. *)
Definition distance (pr pg pb : Z) (targetColor : RGBColor) : float :=
  PrimFloat.sqrt (Z2F ((pr - r targetColor) ^ 2
                       + (pg - g targetColor) ^ 2
                       + (pb - b targetColor) ^ 2)).

Definition maxDistance : float := 441.

Definition threshold (tolerance : float) : float :=
  (tolerance / 100 * maxDistance)%float.

(** The value assigned to [data[i + 3]], a [Uint8ClampedArray] element. *)
Definition alpha (distance threshold : float) : Z :=
  if (distance <=? threshold * 0.7)%float then 0
  else ToUint8Clamp
         (Math_round (255 * ((distance - threshold * 0.7) / (threshold * 0.3)))%float).

Definition processPixel (pr pg pb pa : Z) (targetColor : RGBColor)
    (tolerance : float) : Z :=
  let d := distance pr pg pb targetColor in
  let t := threshold tolerance in
  if (d <=? t)%float then alpha d t else pa.

(** [for (let i = 0; i < data.length; i += 4)]: only [data[i + 3]] is
    ever assigned in the buffer. *)
Fixpoint processData (data : list Z) (targetColor : RGBColor)
    (tolerance : float) : list Z :=
  match data with
  | pr :: pg :: pb :: pa :: rest =>
      pr :: pg :: pb :: processPixel pr pg pb pa targetColor tolerance
        :: processData rest targetColor tolerance
  | _ => data
  end.

(** The bitmap of a 2D canvas holds colours premultiplied by alpha.  A
    pixel put with [putImageData] as (c, c', c'', a) is therefore read
    back, from the PNG [toDataURL] makes of the canvas, with the alpha [a]
    it was given and with each colour channel [c] replaced by
    [readBack c a].  Browsers differ in how they round for 0 < a < 255;
    all of them return the colour of an opaque pixel as it was put and
    black for a fully transparent pixel. *)
Class CanvasStore : Type := mkCanvasStore
  { readBack : Z -> Z -> Z;
    readBack_opaque : forall c, 0 <= c <= 255 -> readBack c 255 = c;
    readBack_transparent : forall c, readBack c 0 = 0;
    readBack_byte : forall c a, 0 <= readBack c a <= 255 }.

Section PutAndExport.
Context {store : CanvasStore}.

(** [ctx.putImageData(imageData, 0, 0)] followed by
    [offscreen.toDataURL("image/png")], pixel by pixel. *)
Fixpoint exportData (data : list Z) : list Z :=
  match data with
  | pr :: pg :: pb :: pa :: rest =>
      readBack pr pa :: readBack pg pa :: readBack pb pa :: pa :: exportData rest
  | _ => data
  end.

Definition removeBackground (image : Image) (targetColor : RGBColor)
    (tolerance : float) : Image :=
  {| naturalWidth := naturalWidth image;
     naturalHeight := naturalHeight image;
     pixels := exportData (processData (pixels image) targetColor tolerance) |}.

End PutAndExport.

(** One such store: the channel is multiplied by alpha/255 and rounded to
    the nearest integer when the pixel is put, and divided by alpha/255 and
    rounded again when it is read. *)
Definition roundTrip (c a : Z) : Z :=
  if a =? 0 then 0
  else Z.max 0 (Z.min 255 (round_div (255 * round_div (c * a) 255) a)).

Definition roundingStore : CanvasStore.
Proof.
  refine (mkCanvasStore roundTrip _ _ _).
  - intros c Hc. unfold roundTrip, round_div. cbn [Z.eqb].
    replace (2 * (c * 255) + 255) with (255 + c * (2 * 255)) by lia.
    rewrite Z.div_add by lia. rewrite (Z.div_small 255) by lia.
    replace (2 * (255 * (0 + c)) + 255) with (255 + c * (2 * 255)) by lia.
    rewrite Z.div_add by lia. rewrite (Z.div_small 255) by lia. lia.
  - intros c. reflexivity.
  - intros c a. unfold roundTrip. destruct (a =? 0); lia.
Defined.

End Canvas.

(** ** utils/audio.ts: the WAV encoder *)

Module Audio.
Import JS.

(** A [DataView] over an [ArrayBuffer]: the bytes; a write outside the
    buffer throws a RangeError, here [None]. *)
Definition setUint8 (view : list Z) (byteOffset : nat) (value : Z)
  : option (list Z) :=
  if decide (byteOffset < length view)%nat
  then Some (<[byteOffset := value mod 256]> view)
  else None.

Definition setUint16 (view : list Z) (byteOffset : nat) (value : Z)
    (littleEndian : bool) : option (list Z) :=
  let v := value mod 2 ^ 16 in
  if decide (byteOffset + 2 <= length view)%nat
  then Some (if littleEndian
             then <[S byteOffset := v / 256]> (<[byteOffset := v mod 256]> view)
             else <[S byteOffset := v mod 256]> (<[byteOffset := v / 256]> view))
  else None.

(** [setInt16] stores the two's complement of ToInt16, the same two
    bytes as the value modulo 2^16. *)
Definition setInt16 (view : list Z) (byteOffset : nat) (value : float)
    (littleEndian : bool) : option (list Z) :=
  setUint16 view byteOffset (ToInt16 value) littleEndian.

Definition setUint32 (view : list Z) (byteOffset : nat) (value : Z)
    (littleEndian : bool) : option (list Z) :=
  let v := value mod 2 ^ 32 in
  let b0 := v mod 256 in
  let b1 := v / 256 mod 256 in
  let b2 := v / 65536 mod 256 in
  let b3 := v / 16777216 in
  if decide (byteOffset + 4 <= length view)%nat
  then Some (if littleEndian
             then <[S (S (S byteOffset)) := b3]> (<[S (S byteOffset) := b2]>
                    (<[S byteOffset := b1]> (<[byteOffset := b0]> view)))
             else <[S (S (S byteOffset)) := b0]> (<[S (S byteOffset) := b1]>
                    (<[S byteOffset := b2]> (<[byteOffset := b3]> view))))
  else None.

(** [writeString], on the character codes of [str]. *)
Fixpoint writeString (view : list Z) (offset : nat) (str : list Z)
  : option (list Z) :=
  match str with
  | [] => Some view
  | c :: rest => view ← setUint8 view offset c; writeString view (S offset) rest
  end.

(** The four-character tags ["RIFF"], ["WAVE"], ["fmt "] and ["data"], as
    the [charCodeAt] codes [writeString] stores. *)
Definition RIFF : list Z := [82; 73; 70; 70].
Definition WAVE : list Z := [87; 65; 86; 69].
Definition fmt_ : list Z := [102; 109; 116; 32].
Definition data : list Z := [100; 97; 116; 97].

Definition quantize (s : float) : float :=
  let sample := Math_max (-1) (Math_min 1 s) in
  if (sample <? 0)%float then (sample * 0x8000)%float
  else (sample * 0x7FFF)%float.

Fixpoint writeSamples (view : list Z) (offset : nat) (samples : list float)
  : option (list Z) :=
  match samples with
  | [] => Some view
  | s :: rest =>
      view ← setInt16 view offset (quantize s) true;
      writeSamples view (offset + 2) rest
  end.

Definition encodeWAV (samples : list float) (sampleRate : float)
  : option (list Z) :=
  let numChannels := 1 in
  let bitsPerSample := 16 in
  let bytesPerSample := bitsPerSample / 8 in
  let blockAlign := numChannels * bytesPerSample in
  let byteRate := (sampleRate * Z2F blockAlign)%float in
  let dataSize := (length samples * Z.to_nat bytesPerSample)%nat in
  let headerSize := 44%nat in
  let totalSize := (headerSize + dataSize)%nat in
  let view := replicate totalSize 0 in
  view ← writeString view 0 RIFF;
  view ← setUint32 view 4 (Z.of_nat totalSize - 8) true;
  view ← writeString view 8 WAVE;
  view ← writeString view 12 fmt_;
  view ← setUint32 view 16 16 true;
  view ← setUint16 view 20 1 true;
  view ← setUint16 view 22 numChannels true;
  view ← setUint32 view 24 (truncate sampleRate) true;
  view ← setUint32 view 28 (truncate byteRate) true;
  view ← setUint16 view 32 blockAlign true;
  view ← setUint16 view 34 bitsPerSample true;
  view ← writeString view 36 data;
  view ← setUint32 view 40 (Z.of_nat dataSize) true;
  writeSamples view 44 samples.

(** Reading a buffer back ([DataView.getUint32(offset, true)] and friends,
    little-endian), used to state what was written. *)
Definition getUint16 (view : list Z) (byteOffset : nat) : option Z :=
  b0 ← view !! byteOffset; b1 ← view !! S byteOffset;
  Some (b0 + 256 * b1).

Definition getInt16 (view : list Z) (byteOffset : nat) : option Z :=
  wrapInt16 <$> getUint16 view byteOffset.

Definition getUint32 (view : list Z) (byteOffset : nat) : option Z :=
  b0 ← view !! byteOffset; b1 ← view !! S byteOffset;
  b2 ← view !! S (S byteOffset); b3 ← view !! S (S (S byteOffset));
  Some (b0 + 256 * b1 + 65536 * b2 + 16777216 * b3).

Definition getString (view : list Z) (byteOffset len : nat) : list Z :=
  take len (drop byteOffset view).

End Audio.

(** ** components/ImageEditor.tsx: handlers of the editor component *)

Module Editor.
Import JS Geometry Canvas.

Inductive InteractionMode : Type := idle | drawing | moving | resizing.

Inductive CursorStyle : Type :=
| crosshair | move | resizeCursor (c : Cursor).

Record Layout : Type := mkLayout
  { scale : float; offsetX : float; offsetY : float }.

Record Size : Type := mkSize { size_width : float; size_height : float }.

Record MouseEvent : Type := mkMouseEvent { clientX : float; clientY : float }.

(** The four [onload] closures the component installs. *)
Inductive OnLoad : Type :=
| LoadReplace       (* fill, flip, undo, redo *)
| LoadUseCropped
| LoadUseProcessed
| LoadUseResized.

Inductive RasterCall : Type :=
| CallFloodFill (image : Image) (seedX seedY : float)
    (fillColor : RGBColor) (tolerance : float)
| CallFlipHorizontal (image : Image)
| CallCropImage (image : Image) (selection : SelectionRect)
    (scale offsetX offsetY : float).

(** The component's state.  [fillColor] holds the channels of the
    ["#rrggbb"] value of the colour input, which the fill handler parses
    with [parseInt(hex.slice(..), 16)]. *)
Record State : Type := mkState
  { (* refs: mutated in place, read back at once *)
    imageRef : option Image;
    undoStack : list Image;
    redoStack : list Image;
    dragStart : Point;
    selectionStart : option SelectionRect;
    (* React state: written for the next render *)
    selection : option SelectionRect;
    interactionMode : InteractionMode;
    activeHandle : option ResizeHandle;
    cursorStyle : CursorStyle;
    croppedImage : option Image;
    canvasSize : Size;
    imageLayout : Layout;
    removeBgMode : bool;
    pickingColor : bool;
    bgColor : option RGBColor;
    tolerance : float;
    processedImage : option Image;
    resizeMode : bool;
    fillMode : bool;
    fillColor : RGBColor;
    fillTolerance : float;
    undoCount : nat;
    redoCount : nat;
    (* the DOM: [containerRef.current] and the canvas' bounding rectangle *)
    container : option Size;
    canvasRect : Point;
    (* images whose [src] has been assigned, with the [onload] that waits *)
    loading : list (Image * OnLoad);
    (* calls made into utils/canvas by the handlers, oldest first *)
    rasterCalls : list RasterCall }.

Definition set_imageRef (v : option Image) (st : State) : State :=
  mkState v (undoStack st) (redoStack st) (dragStart st) (selectionStart st)
    (selection st) (interactionMode st) (activeHandle st) (cursorStyle st)
    (croppedImage st) (canvasSize st) (imageLayout st) (removeBgMode st)
    (pickingColor st) (bgColor st) (tolerance st) (processedImage st)
    (resizeMode st) (fillMode st) (fillColor st) (fillTolerance st)
    (undoCount st) (redoCount st) (container st) (canvasRect st)
    (loading st) (rasterCalls st).
Definition set_undoStack (v : list Image) (st : State) : State :=
  mkState (imageRef st) v (redoStack st) (dragStart st) (selectionStart st)
    (selection st) (interactionMode st) (activeHandle st) (cursorStyle st)
    (croppedImage st) (canvasSize st) (imageLayout st) (removeBgMode st)
    (pickingColor st) (bgColor st) (tolerance st) (processedImage st)
    (resizeMode st) (fillMode st) (fillColor st) (fillTolerance st)
    (undoCount st) (redoCount st) (container st) (canvasRect st)
    (loading st) (rasterCalls st).
Definition set_redoStack (v : list Image) (st : State) : State :=
  mkState (imageRef st) (undoStack st) v (dragStart st) (selectionStart st)
    (selection st) (interactionMode st) (activeHandle st) (cursorStyle st)
    (croppedImage st) (canvasSize st) (imageLayout st) (removeBgMode st)
    (pickingColor st) (bgColor st) (tolerance st) (processedImage st)
    (resizeMode st) (fillMode st) (fillColor st) (fillTolerance st)
    (undoCount st) (redoCount st) (container st) (canvasRect st)
    (loading st) (rasterCalls st).
Definition set_dragStart (v : Point) (st : State) : State :=
  mkState (imageRef st) (undoStack st) (redoStack st) v (selectionStart st)
    (selection st) (interactionMode st) (activeHandle st) (cursorStyle st)
    (croppedImage st) (canvasSize st) (imageLayout st) (removeBgMode st)
    (pickingColor st) (bgColor st) (tolerance st) (processedImage st)
    (resizeMode st) (fillMode st) (fillColor st) (fillTolerance st)
    (undoCount st) (redoCount st) (container st) (canvasRect st)
    (loading st) (rasterCalls st).
Definition set_selectionStart (v : option SelectionRect) (st : State) : State :=
  mkState (imageRef st) (undoStack st) (redoStack st) (dragStart st) v
    (selection st) (interactionMode st) (activeHandle st) (cursorStyle st)
    (croppedImage st) (canvasSize st) (imageLayout st) (removeBgMode st)
    (pickingColor st) (bgColor st) (tolerance st) (processedImage st)
    (resizeMode st) (fillMode st) (fillColor st) (fillTolerance st)
    (undoCount st) (redoCount st) (container st) (canvasRect st)
    (loading st) (rasterCalls st).
Definition set_selection (v : option SelectionRect) (st : State) : State :=
  mkState (imageRef st) (undoStack st) (redoStack st) (dragStart st)
    (selectionStart st) v (interactionMode st) (activeHandle st)
    (cursorStyle st) (croppedImage st) (canvasSize st) (imageLayout st)
    (removeBgMode st) (pickingColor st) (bgColor st) (tolerance st)
    (processedImage st) (resizeMode st) (fillMode st) (fillColor st)
    (fillTolerance st) (undoCount st) (redoCount st) (container st)
    (canvasRect st) (loading st) (rasterCalls st).
Definition set_interactionMode (v : InteractionMode) (st : State) : State :=
  mkState (imageRef st) (undoStack st) (redoStack st) (dragStart st)
    (selectionStart st) (selection st) v (activeHandle st) (cursorStyle st)
    (croppedImage st) (canvasSize st) (imageLayout st) (removeBgMode st)
    (pickingColor st) (bgColor st) (tolerance st) (processedImage st)
    (resizeMode st) (fillMode st) (fillColor st) (fillTolerance st)
    (undoCount st) (redoCount st) (container st) (canvasRect st)
    (loading st) (rasterCalls st).
Definition set_activeHandle (v : option ResizeHandle) (st : State) : State :=
  mkState (imageRef st) (undoStack st) (redoStack st) (dragStart st)
    (selectionStart st) (selection st) (interactionMode st) v
    (cursorStyle st) (croppedImage st) (canvasSize st) (imageLayout st)
    (removeBgMode st) (pickingColor st) (bgColor st) (tolerance st)
    (processedImage st) (resizeMode st) (fillMode st) (fillColor st)
    (fillTolerance st) (undoCount st) (redoCount st) (container st)
    (canvasRect st) (loading st) (rasterCalls st).
Definition set_cursorStyle (v : CursorStyle) (st : State) : State :=
  mkState (imageRef st) (undoStack st) (redoStack st) (dragStart st)
    (selectionStart st) (selection st) (interactionMode st)
    (activeHandle st) v (croppedImage st) (canvasSize st) (imageLayout st)
    (removeBgMode st) (pickingColor st) (bgColor st) (tolerance st)
    (processedImage st) (resizeMode st) (fillMode st) (fillColor st)
    (fillTolerance st) (undoCount st) (redoCount st) (container st)
    (canvasRect st) (loading st) (rasterCalls st).
Definition set_croppedImage (v : option Image) (st : State) : State :=
  mkState (imageRef st) (undoStack st) (redoStack st) (dragStart st)
    (selectionStart st) (selection st) (interactionMode st)
    (activeHandle st) (cursorStyle st) v (canvasSize st) (imageLayout st)
    (removeBgMode st) (pickingColor st) (bgColor st) (tolerance st)
    (processedImage st) (resizeMode st) (fillMode st) (fillColor st)
    (fillTolerance st) (undoCount st) (redoCount st) (container st)
    (canvasRect st) (loading st) (rasterCalls st).
Definition set_canvasSize (v : Size) (st : State) : State :=
  mkState (imageRef st) (undoStack st) (redoStack st) (dragStart st)
    (selectionStart st) (selection st) (interactionMode st)
    (activeHandle st) (cursorStyle st) (croppedImage st) v (imageLayout st)
    (removeBgMode st) (pickingColor st) (bgColor st) (tolerance st)
    (processedImage st) (resizeMode st) (fillMode st) (fillColor st)
    (fillTolerance st) (undoCount st) (redoCount st) (container st)
    (canvasRect st) (loading st) (rasterCalls st).
Definition set_imageLayout (v : Layout) (st : State) : State :=
  mkState (imageRef st) (undoStack st) (redoStack st) (dragStart st)
    (selectionStart st) (selection st) (interactionMode st)
    (activeHandle st) (cursorStyle st) (croppedImage st) (canvasSize st) v
    (removeBgMode st) (pickingColor st) (bgColor st) (tolerance st)
    (processedImage st) (resizeMode st) (fillMode st) (fillColor st)
    (fillTolerance st) (undoCount st) (redoCount st) (container st)
    (canvasRect st) (loading st) (rasterCalls st).
Definition set_removeBgMode (v : bool) (st : State) : State :=
  mkState (imageRef st) (undoStack st) (redoStack st) (dragStart st)
    (selectionStart st) (selection st) (interactionMode st)
    (activeHandle st) (cursorStyle st) (croppedImage st) (canvasSize st)
    (imageLayout st) v (pickingColor st) (bgColor st) (tolerance st)
    (processedImage st) (resizeMode st) (fillMode st) (fillColor st)
    (fillTolerance st) (undoCount st) (redoCount st) (container st)
    (canvasRect st) (loading st) (rasterCalls st).
Definition set_pickingColor (v : bool) (st : State) : State :=
  mkState (imageRef st) (undoStack st) (redoStack st) (dragStart st)
    (selectionStart st) (selection st) (interactionMode st)
    (activeHandle st) (cursorStyle st) (croppedImage st) (canvasSize st)
    (imageLayout st) (removeBgMode st) v (bgColor st) (tolerance st)
    (processedImage st) (resizeMode st) (fillMode st) (fillColor st)
    (fillTolerance st) (undoCount st) (redoCount st) (container st)
    (canvasRect st) (loading st) (rasterCalls st).
Definition set_bgColor (v : option RGBColor) (st : State) : State :=
  mkState (imageRef st) (undoStack st) (redoStack st) (dragStart st)
    (selectionStart st) (selection st) (interactionMode st)
    (activeHandle st) (cursorStyle st) (croppedImage st) (canvasSize st)
    (imageLayout st) (removeBgMode st) (pickingColor st) v (tolerance st)
    (processedImage st) (resizeMode st) (fillMode st) (fillColor st)
    (fillTolerance st) (undoCount st) (redoCount st) (container st)
    (canvasRect st) (loading st) (rasterCalls st).
Definition set_processedImage (v : option Image) (st : State) : State :=
  mkState (imageRef st) (undoStack st) (redoStack st) (dragStart st)
    (selectionStart st) (selection st) (interactionMode st)
    (activeHandle st) (cursorStyle st) (croppedImage st) (canvasSize st)
    (imageLayout st) (removeBgMode st) (pickingColor st) (bgColor st)
    (tolerance st) v (resizeMode st) (fillMode st) (fillColor st)
    (fillTolerance st) (undoCount st) (redoCount st) (container st)
    (canvasRect st) (loading st) (rasterCalls st).
Definition set_resizeMode (v : bool) (st : State) : State :=
  mkState (imageRef st) (undoStack st) (redoStack st) (dragStart st)
    (selectionStart st) (selection st) (interactionMode st)
    (activeHandle st) (cursorStyle st) (croppedImage st) (canvasSize st)
    (imageLayout st) (removeBgMode st) (pickingColor st) (bgColor st)
    (tolerance st) (processedImage st) v (fillMode st) (fillColor st)
    (fillTolerance st) (undoCount st) (redoCount st) (container st)
    (canvasRect st) (loading st) (rasterCalls st).
Definition set_fillMode (v : bool) (st : State) : State :=
  mkState (imageRef st) (undoStack st) (redoStack st) (dragStart st)
    (selectionStart st) (selection st) (interactionMode st)
    (activeHandle st) (cursorStyle st) (croppedImage st) (canvasSize st)
    (imageLayout st) (removeBgMode st) (pickingColor st) (bgColor st)
    (tolerance st) (processedImage st) (resizeMode st) v (fillColor st)
    (fillTolerance st) (undoCount st) (redoCount st) (container st)
    (canvasRect st) (loading st) (rasterCalls st).
Definition set_undoCount (v : nat) (st : State) : State :=
  mkState (imageRef st) (undoStack st) (redoStack st) (dragStart st)
    (selectionStart st) (selection st) (interactionMode st)
    (activeHandle st) (cursorStyle st) (croppedImage st) (canvasSize st)
    (imageLayout st) (removeBgMode st) (pickingColor st) (bgColor st)
    (tolerance st) (processedImage st) (resizeMode st) (fillMode st)
    (fillColor st) (fillTolerance st) v (redoCount st) (container st)
    (canvasRect st) (loading st) (rasterCalls st).
Definition set_redoCount (v : nat) (st : State) : State :=
  mkState (imageRef st) (undoStack st) (redoStack st) (dragStart st)
    (selectionStart st) (selection st) (interactionMode st)
    (activeHandle st) (cursorStyle st) (croppedImage st) (canvasSize st)
    (imageLayout st) (removeBgMode st) (pickingColor st) (bgColor st)
    (tolerance st) (processedImage st) (resizeMode st) (fillMode st)
    (fillColor st) (fillTolerance st) (undoCount st) v (container st)
    (canvasRect st) (loading st) (rasterCalls st).
Definition set_loading (v : list (Image * OnLoad)) (st : State) : State :=
  mkState (imageRef st) (undoStack st) (redoStack st) (dragStart st)
    (selectionStart st) (selection st) (interactionMode st)
    (activeHandle st) (cursorStyle st) (croppedImage st) (canvasSize st)
    (imageLayout st) (removeBgMode st) (pickingColor st) (bgColor st)
    (tolerance st) (processedImage st) (resizeMode st) (fillMode st)
    (fillColor st) (fillTolerance st) (undoCount st) (redoCount st)
    (container st) (canvasRect st) v (rasterCalls st).
Definition set_rasterCalls (v : list RasterCall) (st : State) : State :=
  mkState (imageRef st) (undoStack st) (redoStack st) (dragStart st)
    (selectionStart st) (selection st) (interactionMode st)
    (activeHandle st) (cursorStyle st) (croppedImage st) (canvasSize st)
    (imageLayout st) (removeBgMode st) (pickingColor st) (bgColor st)
    (tolerance st) (processedImage st) (resizeMode st) (fillMode st)
    (fillColor st) (fillTolerance st) (undoCount st) (redoCount st)
    (container st) (canvasRect st) (loading st) v.

Definition initial (container : option Size) (canvasRect : Point) : State :=
  {| imageRef := None; undoStack := []; redoStack := [];
     dragStart := mkPoint 0 0; selectionStart := None;
     selection := None; interactionMode := idle; activeHandle := None;
     cursorStyle := crosshair; croppedImage := None;
     canvasSize := mkSize 0 0; imageLayout := mkLayout 1 0 0;
     removeBgMode := false; pickingColor := false; bgColor := None;
     tolerance := 10; processedImage := None; resizeMode := false;
     fillMode := false; fillColor := mkRGB 255 0 0; fillTolerance := 10;
     undoCount := 0; redoCount := 0;
     container := container; canvasRect := canvasRect;
     loading := []; rasterCalls := [] |}.

Definition computeLayout (img : Image) (st : State) : State :=
  match container st with
  | None => st
  | Some c =>
      let containerW := size_width c in
      let containerH := size_height c in
      let scaleX := (containerW / Z2F (naturalWidth img))%float in
      let scaleY := (containerH / Z2F (naturalHeight img))%float in
      let scale := Math_min (Math_min scaleX scaleY) 1 in
      let displayW := (Z2F (naturalWidth img) * scale)%float in
      let displayH := (Z2F (naturalHeight img) * scale)%float in
      let offsetX := ((containerW - displayW) / 2)%float in
      let offsetY := ((containerH - displayH) / 2)%float in
      set_imageLayout (mkLayout scale offsetX offsetY)
        (set_canvasSize (mkSize containerW containerH) st)
  end.

(** The snapshot is the working image drawn on a fresh canvas and
    serialised. *)
Definition pushUndo (st : State) : State :=
  match imageRef st with
  | None => st
  | Some img =>
      let undo := undoStack st ++ [img] in
      set_redoCount 0 (set_undoCount (length undo)
        (set_redoStack [] (set_undoStack undo st)))
  end.

Definition handleUndo (st : State) : State :=
  match reverse (undoStack st), imageRef st with
  | [], _ => st
  | _, None => st
  | prev :: older, Some img =>
      let redo := redoStack st ++ [img] in
      let undo := reverse older in
      set_redoCount (length redo) (set_undoCount (length undo)
        (set_loading (loading st ++ [(prev, LoadReplace)])
          (set_undoStack undo (set_redoStack redo st))))
  end.

Definition handleRedo (st : State) : State :=
  match reverse (redoStack st), imageRef st with
  | [], _ => st
  | _, None => st
  | next :: older, Some img =>
      let undo := undoStack st ++ [img] in
      let redo := reverse older in
      set_redoCount (length redo) (set_undoCount (length undo)
        (set_loading (loading st ++ [(next, LoadReplace)])
          (set_redoStack redo (set_undoStack undo st))))
  end.

Definition getCanvasCoords (st : State) (e : MouseEvent) : Point :=
  mkPoint (clientX e - pt_x (canvasRect st)) (clientY e - pt_y (canvasRect st)).

Definition hasValidSelection (st : State) : bool :=
  match selection st with
  | None => false
  | Some sel =>
      let selNorm := normalizeRect sel in
      (5 <? width selNorm)%float && (5 <? height selNorm)%float
  end.

Definition showingResult (st : State) : bool :=
  bool_decide (is_Some (croppedImage st))
  || bool_decide (is_Some (processedImage st)).

(** The button groups of the toolbar, one per branch of the rendered
    conditional; the default group shows Crop and Clear only with a
    valid selection. *)
Inductive Toolbar : Type :=
| ResultButtons
| FillButtons
| ResizeButtons
| RemoveBgButtons (apply : bool)
| DefaultButtons (cropAndClear : bool).

Definition toolbar (st : State) : Toolbar :=
  if showingResult st then ResultButtons
  else if fillMode st then FillButtons
  else if resizeMode st then ResizeButtons
  else if removeBgMode st then RemoveBgButtons (bool_decide (is_Some (bgColor st)))
  else DefaultButtons (hasValidSelection st).

Definition cropButtonShown (st : State) : bool :=
  match toolbar st with
  | DefaultButtons shown => shown
  | _ => false
  end.

Definition handleMouseUp (st : State) : State :=
  let st :=
    match interactionMode st, selection st with
    | drawing, Some sel =>
        let n := normalizeRect sel in
        if (width n <? 5)%float || (height n <? 5)%float
        then set_selection None st
        else set_selection (Some n) st
    | _, _ => st
    end in
  set_selectionStart None (set_activeHandle None (set_interactionMode idle st)).

Definition handleMouseMove (st : State) (e : MouseEvent) : State :=
  if showingResult st then st
  else if resizeMode st then st
  else if fillMode st then set_cursorStyle crosshair st
  else if removeBgMode st && pickingColor st then set_cursorStyle crosshair st
  else if removeBgMode st then st
  else
    let pos := getCanvasCoords st e in
    match interactionMode st with
    | idle =>
        match selection st with
        | Some sel =>
            match hitTestHandle sel (pt_x pos) (pt_y pos) with
            | Some handle => set_cursorStyle (resizeCursor (getResizeCursor handle)) st
            | None =>
                if hitTestSelection sel (pt_x pos) (pt_y pos)
                then set_cursorStyle move st
                else set_cursorStyle crosshair st
            end
        | None => set_cursorStyle crosshair st
        end
    | mode =>
        let dx := (pt_x pos - pt_x (dragStart st))%float in
        let dy := (pt_y pos - pt_y (dragStart st))%float in
        match mode, activeHandle st, selectionStart st with
        | drawing, _, _ =>
            set_selection
              ((fun prev => mkRect (x prev) (y prev) dx dy) <$> selection st) st
        | moving, _, Some s =>
            set_selection
              (Some (mkRect (x s + dx) (y s + dy) (width s) (height s))) st
        | resizing, Some handle, Some s =>
            set_selection (Some (applyResize s handle dx dy)) st
        | _, _, _ => st
        end
    end.

Section Handlers.
(** The raster functions of utils/canvas.ts that the handlers call, as
    parameters: the handlers pass the returned data URL on to an image
    element and never look inside it. *)
Variable floodFill : Image -> float -> float -> RGBColor -> float -> Image.
Variable flipHorizontal : Image -> Image.
Variable cropImage : Image -> SelectionRect -> float -> float -> float -> Image.

Definition handleMouseDown (st : State) (e : MouseEvent) : State :=
  if showingResult st then st
  else if resizeMode st then st
  else if fillMode st then
    (* Paint bucket fill mode *)
    let pos := getCanvasCoords st e in
    match imageRef st with
    | None => st
    | Some img =>
        let imgX := ((pt_x pos - offsetX (imageLayout st)) / scale (imageLayout st))%float in
        let imgY := ((pt_y pos - offsetY (imageLayout st)) / scale (imageLayout st))%float in
        if (imgX <? 0)%float || (imgY <? 0)%float
           || (Z2F (naturalWidth img) <=? imgX)%float
           || (Z2F (naturalHeight img) <=? imgY)%float
        then st
        else
          let result := floodFill img imgX imgY (fillColor st) (fillTolerance st) in
          let st := set_rasterCalls
                      (rasterCalls st
                       ++ [CallFloodFill img imgX imgY (fillColor st) (fillTolerance st)]) st in
          (* Save state before applying fill *)
          let st := pushUndo st in
          set_loading (loading st ++ [(result, LoadReplace)]) st
    end
  else if removeBgMode st && pickingColor st then
    (* Color picking mode for background removal *)
    let pos := getCanvasCoords st e in
    match imageRef st with
    | None => st
    | Some img =>
        match getPixelColor img (pt_x pos) (pt_y pos) (scale (imageLayout st))
                (offsetX (imageLayout st)) (offsetY (imageLayout st)) with
        | Returns (Some color) => set_pickingColor false (set_bgColor (Some color) st)
        | Returns None => st
        | Throws => st (* the exception leaves the handler; no state was set *)
        end
    end
  else if removeBgMode st then st
  else
    let pos := getCanvasCoords st e in
    let st := set_dragStart pos st in
    let startNew (_ : unit) :=
      set_selection (Some (mkRect (pt_x pos) (pt_y pos) 0 0))
        (set_interactionMode drawing st) in
    match selection st with
    | Some sel =>
        match hitTestHandle sel (pt_x pos) (pt_y pos) with
        | Some handle =>
            set_selectionStart (Some (normalizeRect sel))
              (set_activeHandle (Some handle) (set_interactionMode resizing st))
        | None =>
            if hitTestSelection sel (pt_x pos) (pt_y pos)
            then set_selectionStart (Some (normalizeRect sel))
                   (set_interactionMode moving st)
            else startNew ()
        end
    | None => startNew ()
    end.

Definition handleCrop (st : State) : State :=
  match imageRef st, selection st with
  | Some img, Some sel =>
      let l := imageLayout st in
      let dataUrl := cropImage img sel (scale l) (offsetX l) (offsetY l) in
      set_croppedImage (Some dataUrl)
        (set_rasterCalls
           (rasterCalls st ++ [CallCropImage img sel (scale l) (offsetX l) (offsetY l)]) st)
  | _, _ => st
  end.

(** The Flip button's inline [onClick]. *)
Definition handleFlip (st : State) : State :=
  match imageRef st with
  | None => st
  | Some img =>
      let st := pushUndo st in
      let result := flipHorizontal img in
      let st := set_rasterCalls (rasterCalls st ++ [CallFlipHorizontal img]) st in
      set_loading (loading st ++ [(result, LoadReplace)]) st
  end.

End Handlers.

Definition handleEnterFill (st : State) : State :=
  set_processedImage None (set_croppedImage None
    (set_selection None (set_fillMode true st))).

Definition handleExitFill (st : State) : State :=
  let st := set_fillMode false st in
  match imageRef st with
  | Some img => computeLayout img st
  | None => st
  end.

(** The effect on [imageSrc], once the image is decoded. *)
Definition imageLoaded (img : Image) (st : State) : State :=
  computeLayout img
    (set_redoCount 0 (set_undoCount 0
       (set_redoStack [] (set_undoStack [] (set_imageRef (Some img) st))))).

Definition handleUseProcessed (st : State) : State :=
  match processedImage st with
  | None => st
  | Some img => set_loading (loading st ++ [(img, LoadUseProcessed)]) st
  end.

Definition handleUseResized (st : State) : State :=
  match processedImage st with
  | None => st
  | Some img => set_loading (loading st ++ [(img, LoadUseResized)]) st
  end.

Definition handleUseCropped (st : State) : State :=
  match croppedImage st with
  | None => st
  | Some img => set_loading (loading st ++ [(img, LoadUseCropped)]) st
  end.

(** [onClick] of "Use as Source". *)
Definition handleUseAsSource (st : State) : State :=
  if bool_decide (is_Some (croppedImage st)) then handleUseCropped st
  else if resizeMode st then handleUseResized st
  else handleUseProcessed st.

(** The [onload] callbacks, run when the browser has decoded the image. *)
Definition onload (img : Image) (cb : OnLoad) (st : State) : State :=
  let st := set_imageRef (Some img) st in
  match cb with
  | LoadReplace => computeLayout img st
  | LoadUseCropped =>
      computeLayout img (set_croppedImage None (set_selection None st))
  | LoadUseProcessed =>
      computeLayout img
        (set_pickingColor false (set_bgColor None
           (set_removeBgMode false (set_processedImage None st))))
  | LoadUseResized =>
      computeLayout img (set_resizeMode false (set_processedImage None st))
  end.

(** All pending loads complete, in the order their [src] was assigned. *)
Definition runLoads (st : State) : State :=
  fold_left (fun st l => onload (fst l) (snd l) st) (loading st)
            (set_loading [] st).

End Editor.

(** ** Vocabulary of the specification *)

Module Spec.
Import JS Geometry Canvas Editor.

(** The canonical enumeration order of the eight handles. *)
Definition canonicalOrder : list ResizeHandle :=
  [TopLeft; Top; TopRight; Right; BottomRight; Bottom; BottomLeft; Left].

(** Within [HANDLE_HIT_SIZE] of the handle on each axis: a square of
    side 28 centred on the handle. *)
Definition inHitBox (pos : Point) (px py : float) : bool :=
  (abs (px - pt_x pos) <=? HANDLE_HIT_SIZE)%float
  && (abs (py - pt_y pos) <=? HANDLE_HIT_SIZE)%float.

(** Within distance [HANDLE_HIT_SIZE] of the handle: a disc of radius 14. *)
Definition inHitRadius (pos : Point) (px py : float) : bool :=
  (PrimFloat.sqrt ((px - pt_x pos) * (px - pt_x pos)
                   + (py - pt_y pos) * (py - pt_y pos))
   <=? HANDLE_HIT_SIZE)%float.

(** The source-pixel coordinate a pointer event maps to. *)
Definition sourcePixel (st : State) (e : MouseEvent) : Point :=
  let pos := getCanvasCoords st e in
  mkPoint ((pt_x pos - offsetX (imageLayout st)) / scale (imageLayout st))
          ((pt_y pos - offsetY (imageLayout st)) / scale (imageLayout st)).

(** x < 0, y < 0, x >= width or y >= height. *)
Definition outsideImage (img : Image) (p : Point) : bool :=
  (pt_x p <? 0)%float || (pt_y p <? 0)%float
  || (Z2F (naturalWidth img) <=? pt_x p)%float
  || (Z2F (naturalHeight img) <=? pt_y p)%float.

(** The alpha the ramp assigns at distance [d] for threshold [t]:
    255 (d - 0.7 t) / (0.3 t), rounded and stored in a byte. *)
Definition rampAlpha (d t : float) : Z :=
  ToUint8Clamp (Math_round (255 * ((d - t * 0.7) / (t * 0.3)))%float).

(** The threshold as the specification words it. *)
Definition claimedThreshold (tolerance : float) : float :=
  (tolerance / 100 * 441.67)%float.

Definition isByte (z : Z) : Prop := 0 <= z <= 255.

(** Little-endian bytes of a 16-bit and of a 32-bit field. *)
Definition le16 (value : Z) : list Z :=
  [value mod 2 ^ 16 mod 256; value mod 2 ^ 16 / 256].

Definition le32 (value : Z) : list Z :=
  [value mod 2 ^ 32 mod 256; value mod 2 ^ 32 / 256 mod 256;
   value mod 2 ^ 32 / 65536 mod 256; value mod 2 ^ 32 / 16777216].

(** The 44 header bytes, field by field as in the RIFF/WAVE table, for
    [n] samples. *)
Definition wavHeader (n : nat) (sampleRate : float) : list Z :=
  Audio.RIFF ++ le32 (Z.of_nat (44 + n * 2) - 8) ++ Audio.WAVE
  ++ Audio.fmt_ ++ le32 16 ++ le16 1 ++ le16 1
  ++ le32 (truncate sampleRate) ++ le32 (truncate (sampleRate * 2)%float)
  ++ le16 2 ++ le16 16
  ++ Audio.data ++ le32 (Z.of_nat (n * 2)).

(** The data section: one little-endian 16-bit word per sample. *)
Definition sampleBytes (samples : list float) : list Z :=
  flat_map (fun s => le16 (ToInt16 (Audio.quantize s))) samples.

(** The sample value as the specification words it:
    round(clamp(s, -1, 1) x (s < 0 ? 32768 : 32767)). *)
Definition claimedSample (s : float) : integral :=
  let clamped := Math_max (-1) (Math_min 1 s) in
  Math_round (if (s <? 0)%float then clamped * 32768 else clamped * 32767)%float.

(** The stride of the edge sampling and the number of indices
    0, step, 2 step, ... below a limit. *)
Definition stride (w h : Z) : Z :=
  Z.max 1 ((w + h) * 2 / Z.min 200 ((w + h) * 2)).

Definition ceilDiv (a b : Z) : Z := (a + b - 1) / b.

(** The colour of the pixel at (x, y). *)
Definition colourAt (image : Image) (x y : Z) : RGBColor :=
  mkRGB (getImageData1 image x y 0) (getImageData1 image x y 1)
        (getImageData1 image x y 2).

(** [c] is the colour of a pixel on one of the four edges of the image. *)
Definition onEdge (image : Image) (c : RGBColor) : Prop :=
  exists x y,
    0 <= x < naturalWidth image /\ 0 <= y < naturalHeight image
    /\ (x = 0 \/ x = naturalWidth image - 1 \/ y = 0 \/ y = naturalHeight image - 1)
    /\ c = colourAt image x y.

(** The indices 0, step, 2 step, ... below [limit], in increasing order. *)
Definition strideIndices (limit step : Z) : list Z :=
  (fun k : nat => Z.of_nat k * step) <$> seq 0 (Z.to_nat (ceilDiv limit step)).

(** The samples along the four edges at stride [step], in the order they
    are taken: for each column index the pixel of the top row and the
    pixel of the bottom row, then for each row index the pixel of the left
    column and the pixel of the right column. *)
Definition edgeSamples (image : Image) : list RGBColor :=
  let w := naturalWidth image in
  let h := naturalHeight image in
  let step := stride w h in
  flat_map (fun i => [colourAt image i 0; colourAt image i (h - 1)])
           (strideIndices w step)
  ++ flat_map (fun i => [colourAt image 0 i; colourAt image (w - 1) i])
              (strideIndices h step).

(** The samples that fall in the quantisation bucket [key] (16 levels per
    channel), and the sum of a channel over a list of samples. *)
Definition members (key : Key) (colors : list RGBColor) : list RGBColor :=
  filter (fun c => keyOf c = key) colors.

Definition channelSum (channel : RGBColor -> Z) (colors : list RGBColor) : Z :=
  foldr (fun c acc => channel c + acc) 0 colors.

(** What the bucket of [key] holds once [colors] have been counted. *)
Definition summary (key : Key) (colors : list RGBColor) : Bucket :=
  mkBucket (Z.of_nat (length (members key colors)))
           (channelSum r (members key colors))
           (channelSum g (members key colors))
           (channelSum b (members key colors)).

(** The map holds, for each key, the summary of the samples counted so
    far, and no entry for a key without samples. *)
Definition counted (colors : list RGBColor) (buckets : list (Key * Bucket)) : Prop :=
  NoDup buckets.*1
  /\ forall key, map_get buckets key
                 = if decide (members key colors = []) then None
                   else Some (summary key colors).

(** The average of a channel, rounded to the nearest integer (half up). *)
Definition average (channel : RGBColor -> Z) (colors : list RGBColor) : Z :=
  round_div (channelSum channel colors) (Z.of_nat (length colors)).

(** [f] holds on [lo], [lo + 1], ..., [lo + fuel - 1]. *)
Fixpoint forall_range (fuel : nat) (lo : Z) (f : Z -> bool) : bool :=
  match fuel with
  | O => true
  | S k => f lo && forall_range k (lo + 1) f
  end.

(** The source expressions evaluated in binary64 throughout, to compare
    with the integer arithmetic of the model: the distance with its
    subtractions, squares and sums on Numbers, and [Math.round(a / b)]. *)
Definition distanceBinary64 (pr pg pb : Z) (targetColor : RGBColor) : float :=
  PrimFloat.sqrt
    ((Z2F pr - Z2F (r targetColor)) * (Z2F pr - Z2F (r targetColor))
     + (Z2F pg - Z2F (g targetColor)) * (Z2F pg - Z2F (g targetColor))
     + (Z2F pb - Z2F (b targetColor)) * (Z2F pb - Z2F (b targetColor)))%float.

Definition roundBinary64 (a b : Z) : integral := Math_round (Z2F a / Z2F b)%float.

Definition grid : list Z := [0; 1; 3; 44; 127; 128; 254; 255].

Definition distance_agrees_on_grid : bool :=
  forallb (fun pr => forallb (fun pg => forallb (fun pb =>
    forallb (fun tr => forallb (fun tg => forallb (fun tb =>
      PrimFloat.Leibniz.eqb (distanceBinary64 pr pg pb (mkRGB tr tg tb))
                            (distance pr pg pb (mkRGB tr tg tb)))
    grid) grid) grid) grid) grid) grid.

Definition round_div_agrees_on_grid : bool :=
  forallb (fun b => forall_range 80 0 (fun a =>
    match roundBinary64 a b with
    | IInt z => z =? round_div a b
    | _ => false
    end)) [1; 2; 3; 4; 5; 6; 7; 8].

(** At squared distance [n] from the target and with the threshold equal
    to the distance, the pixel is in the ramp band and its ramp value is at
    least 254.5. *)
Definition opaque_at_threshold (n : Z) : bool :=
  let d := PrimFloat.sqrt (Z2F n) in
  (d <=? d)%float && negb (d <=? d * 0.7)%float
  && (254.5 <=? 255 * ((d - d * 0.7) / (d * 0.3)))%float.

(** For a whole-number tolerance, 0.7 of the threshold is below it. *)
Definition band_below_threshold (pct : Z) : bool :=
  let t := threshold (Z2F pct) in (t * 0.7 <=? t)%float.

(** The root of [n + 1] is above the root of [n]. *)
Definition root_increases (n : Z) : bool :=
  (PrimFloat.sqrt (Z2F n) <? PrimFloat.sqrt (Z2F (n + 1)))%float.

(** The threshold of a whole-number tolerance lies strictly between the
    roots of two consecutive squared distances. *)
Definition squareBelow (pct : Z) : Z :=
  truncate (threshold (Z2F pct) * threshold (Z2F pct))%float.

Definition threshold_between_roots (pct : Z) : bool :=
  let t := threshold (Z2F pct) in
  let n := squareBelow pct in
  (0 <=? n) && (n <? 195075)
  && (PrimFloat.sqrt (Z2F n) <? t)%float && (t <? PrimFloat.sqrt (Z2F (n + 1)))%float.

End Spec.

(** ** Concrete inputs used in the examples *)

Module Examples.
Import JS Geometry Canvas Editor.

(** A 2 x 2 opaque image and a second one, in an 800 x 600 container. *)
Definition sampleImage : Image :=
  mkImage 2 2 [10; 10; 10; 255; 12; 12; 12; 255; 200; 0; 0; 255; 11; 11; 11; 255].

Definition otherImage : Image := mkImage 1 1 [1; 2; 3; 255].

Definition sampleEditor : State :=
  imageLoaded sampleImage (initial (Some (mkSize 800 600)) (mkPoint 0 0)).

(** A flood fill that changes nothing, for the examples. *)
Definition noFill (img : Image) (_ _ : float) (_ : RGBColor) (_ : float) : Image := img.

(** The editor after a drag from (410, 310) to (415, 315) in default mode. *)
Definition afterDrag5x5 : State :=
  handleMouseUp
    (handleMouseMove
       (handleMouseDown noFill sampleEditor (mkMouseEvent 410 310))
       (mkMouseEvent 415 315)).

(** The editor showing a crop result, before "Use as Source" is clicked. *)
Definition showingCrop : State := set_croppedImage (Some otherImage) sampleEditor.

End Examples.

(** ** components/ImageEditor.tsx: the other handlers and the event loop *)

Module Session.
Import JS Geometry Canvas Editor.

Definition set_tolerance (v : float) (st : State) : State :=
  mkState (imageRef st) (undoStack st) (redoStack st) (dragStart st)
    (selectionStart st) (selection st) (interactionMode st)
    (activeHandle st) (cursorStyle st) (croppedImage st) (canvasSize st)
    (imageLayout st) (removeBgMode st) (pickingColor st) (bgColor st) v
    (processedImage st) (resizeMode st) (fillMode st) (fillColor st)
    (fillTolerance st) (undoCount st) (redoCount st) (container st)
    (canvasRect st) (loading st) (rasterCalls st).
Definition set_fillColor (v : RGBColor) (st : State) : State :=
  mkState (imageRef st) (undoStack st) (redoStack st) (dragStart st)
    (selectionStart st) (selection st) (interactionMode st)
    (activeHandle st) (cursorStyle st) (croppedImage st) (canvasSize st)
    (imageLayout st) (removeBgMode st) (pickingColor st) (bgColor st)
    (tolerance st) (processedImage st) (resizeMode st) (fillMode st) v
    (fillTolerance st) (undoCount st) (redoCount st) (container st)
    (canvasRect st) (loading st) (rasterCalls st).
Definition set_fillTolerance (v : float) (st : State) : State :=
  mkState (imageRef st) (undoStack st) (redoStack st) (dragStart st)
    (selectionStart st) (selection st) (interactionMode st)
    (activeHandle st) (cursorStyle st) (croppedImage st) (canvasSize st)
    (imageLayout st) (removeBgMode st) (pickingColor st) (bgColor st)
    (tolerance st) (processedImage st) (resizeMode st) (fillMode st)
    (fillColor st) v (undoCount st) (redoCount st) (container st)
    (canvasRect st) (loading st) (rasterCalls st).

Definition handleClearSelection (st : State) : State :=
  set_processedImage None (set_croppedImage None (set_selection None st)).

(** [detectBackgroundColor] gives a colour for every image that has a
    pixel; the state holds what it returned. *)
Definition handleEnterRemoveBg (st : State) : State :=
  let st := set_processedImage None (set_croppedImage None
              (set_selection None (set_removeBgMode true st))) in
  (* Auto-detect background color *)
  match imageRef st with
  | Some img => set_bgColor (detectBackgroundColor img) st
  | None => st
  end.

Definition handleExitRemoveBg (st : State) : State :=
  let st := set_processedImage None (set_bgColor None
              (set_pickingColor false (set_removeBgMode false st))) in
  (* Re-render canvas with the original image *)
  match imageRef st with
  | Some img => computeLayout img st
  | None => st
  end.

Section Apply.
Context {store : CanvasStore}.

Definition handleApplyRemoveBg (st : State) : State :=
  match imageRef st, bgColor st with
  | Some img, Some color =>
      set_processedImage (Some (removeBackground img color (tolerance st))) st
  | _, _ => st
  end.

End Apply.

Definition handleExitResize (st : State) : State :=
  let st := set_resizeMode false st in
  match imageRef st with
  | Some img => computeLayout img st
  | None => st
  end.

(** The resize form: the four pieces of state only its handlers use. *)
Record ResizeForm : Type := mkResizeForm
  { resizeWidth : float; resizeHeight : float;
    lockAspect : bool; aspectRatio : float }.

Definition initialForm : ResizeForm := mkResizeForm 0 0 true 1.

(** An integer as the Number that holds it, and [Math.round] with its
    result as a Number: -0 for an argument in [-0.5, -0]. *)
Definition Z2Number (z : Z) : float :=
  SF2Prim (binary_normalize prec emax z 0 false).

Definition Math_round_Number (x : float) : float :=
  match Math_round x with
  | INaN => nan
  | IInf negative => if negative then neg_infinity else infinity
  | IInt z => if (z =? 0) && get_sign x then (-0)%float else Z2Number z
  end.

Definition handleEnterResize (st : State) (form : ResizeForm)
  : State * ResizeForm :=
  match imageRef st with
  | None => (st, form)
  | Some img =>
      (set_processedImage None (set_croppedImage None
         (set_selection None (set_resizeMode true st))),
       {| resizeWidth := Z2F (naturalWidth img);
          resizeHeight := Z2F (naturalHeight img);
          aspectRatio := (Z2F (naturalWidth img) / Z2F (naturalHeight img))%float;
          lockAspect := true |})
  end.

Definition handleResizeWidthChange (val : float) (form : ResizeForm) : ResizeForm :=
  let w := Math_max 1 val in
  {| resizeWidth := w;
     resizeHeight := if lockAspect form
                     then Math_round_Number (w / aspectRatio form)%float
                     else resizeHeight form;
     lockAspect := lockAspect form;
     aspectRatio := aspectRatio form |}.

Definition handleResizeHeightChange (val : float) (form : ResizeForm) : ResizeForm :=
  let h := Math_max 1 val in
  {| resizeWidth := if lockAspect form
                    then Math_round_Number (h * aspectRatio form)%float
                    else resizeWidth form;
     resizeHeight := h;
     lockAspect := lockAspect form;
     aspectRatio := aspectRatio form |}.

(** [onClick] of the lock, and of the 50% and 25% presets, which are
    rendered only while there is a working image. *)
Definition handleToggleLock (form : ResizeForm) : ResizeForm :=
  {| resizeWidth := resizeWidth form; resizeHeight := resizeHeight form;
     lockAspect := negb (lockAspect form); aspectRatio := aspectRatio form |}.

Definition handlePreset50 (st : State) (form : ResizeForm) : ResizeForm :=
  match imageRef st with
  | Some img =>
      handleResizeWidthChange (Math_round_Number (Z2F (naturalWidth img) / 2)%float) form
  | None => form
  end.

Definition handlePreset25 (st : State) (form : ResizeForm) : ResizeForm :=
  match imageRef st with
  | Some img =>
      handleResizeWidthChange (Math_round_Number (Z2F (naturalWidth img) / 4)%float) form
  | None => form
  end.

(** [onClick] of "Pick Color" and of "Auto Detect". *)
Definition handlePickColor (st : State) : State := set_pickingColor true st.

Definition handleAutoDetect (st : State) : State :=
  match imageRef st with
  | Some img => set_bgColor (detectBackgroundColor img) st
  | None => st
  end.

(** [onClick] of "Cancel" under a result; [resizeMode] and
    [processedImage] are the values of the render the button belongs to. *)
Definition handleCancel (st : State) : State :=
  let st' := handleClearSelection st in
  if resizeMode st then handleExitResize st'
  else if bool_decide (is_Some (processedImage st)) then handleExitRemoveBg st'
  else st'.

(** The listener on the window's [resize] event. *)
Definition handleResize (st : State) : State :=
  match imageRef st with
  | Some img => computeLayout img (set_selection None st)
  | None => st
  end.

(** The listener on [keydown]: Ctrl/Cmd+Z, Ctrl/Cmd+Y and
    Ctrl/Cmd+Shift+Z. *)
Definition handleKeyDown (ctrlKey metaKey shiftKey : bool) (key : string)
    (st : State) : State :=
  let st :=
    if (ctrlKey || metaKey) && String.eqb key "z" && negb shiftKey
    then handleUndo st else st in
  if (ctrlKey || metaKey)
     && (String.eqb key "y" || (String.eqb key "z" && shiftKey))
  then handleRedo st else st.

(** The browser has decoded pending image number [k]: its [onload] runs. *)
Definition loadCompletes (k : nat) (st : State) : State :=
  match loading st !! k with
  | Some (img, cb) => onload img cb (set_loading (delete k (loading st)) st)
  | None => st
  end.

(** What can happen to a mounted editor (the download links and the
    [onReset] callback of the parent apart, which leave its state alone). *)
Inductive Event : Type :=
| SourceDecoded (img : Image)        (* the effect on [imageSrc] *)
| LoadCompletes (k : nat)
| WindowResize
| KeyDown (ctrlKey metaKey shiftKey : bool) (key : string)
| MouseDown (e : MouseEvent)
| MouseMove (e : MouseEvent)
| MouseUp
| MouseLeave
| ClickUseAsSource
| ClickCancel
| ClickUndo
| ClickRedo
| ChangeFillColor (color : RGBColor)
| ChangeFillTolerance (value : float)
| ClickExitFill
| ChangeResizeWidth (value : float)
| ChangeResizeHeight (value : float)
| ClickLock
| ClickPreset50
| ClickPreset25
| ClickApplyResize
| ClickExitResize
| ClickPickColor
| ClickAutoDetect
| ChangeTolerance (value : float)
| ClickApplyRemoveBg
| ClickExitRemoveBg
| ClickCrop
| ClickClear
| ClickEnterRemoveBg
| ClickEnterResize
| ClickFlip
| ClickEnterFill.

Section Loop.
Context {store : CanvasStore}.
Variable floodFill : Image -> float -> float -> RGBColor -> float -> Image.
Variable flipHorizontal : Image -> Image.
Variable cropImage : Image -> SelectionRect -> float -> float -> float -> Image.
Variable resizeImage : Image -> float -> float -> Image.

Definition handleApplyResize (st : State) (form : ResizeForm) : State :=
  match imageRef st with
  | None => st
  | Some img =>
      if (resizeWidth form <? 1)%float || (resizeHeight form <? 1)%float then st
      else set_processedImage
             (Some (resizeImage img (resizeWidth form) (resizeHeight form))) st
  end.

(** One event, handled by the listener the component attaches to it, on
    the state of the editor and of its resize form.  A click is handled
    whether or not its button is in the toolbar that is currently
    rendered, so what holds after every [run] holds in particular for the
    events the rendered toolbar allows. *)
Definition step (m : State * ResizeForm) (ev : Event) : State * ResizeForm :=
  let (st, form) := m in
  match ev with
  | SourceDecoded img => (imageLoaded img st, form)
  | LoadCompletes k => (loadCompletes k st, form)
  | WindowResize => (handleResize st, form)
  | KeyDown ctrlKey metaKey shiftKey key =>
      (handleKeyDown ctrlKey metaKey shiftKey key st, form)
  | MouseDown e => (handleMouseDown floodFill st e, form)
  | MouseMove e => (handleMouseMove st e, form)
  | MouseUp => (handleMouseUp st, form)
  | MouseLeave => (handleMouseUp st, form)
  | ClickUseAsSource => (handleUseAsSource st, form)
  | ClickCancel => (handleCancel st, form)
  | ClickUndo => (handleUndo st, form)
  | ClickRedo => (handleRedo st, form)
  | ChangeFillColor color => (set_fillColor color st, form)
  | ChangeFillTolerance value => (set_fillTolerance value st, form)
  | ClickExitFill => (handleExitFill st, form)
  | ChangeResizeWidth value => (st, handleResizeWidthChange value form)
  | ChangeResizeHeight value => (st, handleResizeHeightChange value form)
  | ClickLock => (st, handleToggleLock form)
  | ClickPreset50 => (st, handlePreset50 st form)
  | ClickPreset25 => (st, handlePreset25 st form)
  | ClickApplyResize => (handleApplyResize st form, form)
  | ClickExitResize => (handleExitResize st, form)
  | ClickPickColor => (handlePickColor st, form)
  | ClickAutoDetect => (handleAutoDetect st, form)
  | ChangeTolerance value => (set_tolerance value st, form)
  | ClickApplyRemoveBg => (handleApplyRemoveBg st, form)
  | ClickExitRemoveBg => (handleExitRemoveBg st, form)
  | ClickCrop => (handleCrop cropImage st, form)
  | ClickClear => (handleClearSelection st, form)
  | ClickEnterRemoveBg => (handleEnterRemoveBg st, form)
  | ClickEnterResize => handleEnterResize st form
  | ClickFlip => (handleFlip flipHorizontal st, form)
  | ClickEnterFill => (handleEnterFill st, form)
  end.

Definition run (events : list Event) (m : State * ResizeForm)
  : State * ResizeForm :=
  fold_left step events m.

End Loop.

(** The counters behind the Undo and Redo buttons ([disabled] when 0)
    mirror the two stacks. *)
Definition countersAgree (st : State) : Prop :=
  undoCount st = length (undoStack st) /\ redoCount st = length (redoStack st).

(** The refs a gesture reads are set whenever its mode is on, and cleared
    when no gesture is in progress. *)
Definition gestureRefsSet (st : State) : Prop :=
  match interactionMode st with
  | idle => selectionStart st = None /\ activeHandle st = None
  | drawing => True
  | moving => is_Some (selectionStart st)
  | resizing => is_Some (selectionStart st) /\ is_Some (activeHandle st)
  end.

End Session.

(** ** Decidable facts about the constants of removeBackground *)

Module Thresholds.
Import JS Canvas.

(** A squared distance that is not zero has a root above zero. *)
Definition root_positive (n : Z) : bool :=
  negb (PrimFloat.sqrt (Z2F n) <=? 0)%float.

(** For a whole-number tolerance neither the threshold nor 0.7 of it is
    negative. *)
Definition threshold_not_negative (pct : Z) : bool :=
  let t := threshold (Z2F pct) in (0 <=? t)%float && (0 <=? t * 0.7)%float.

End Thresholds.

(** ** Order of the samples, for the tie-break of detectBackgroundColor *)

Module SampleOrder.
Import Canvas.

(** A sample of bucket [key] comes before every sample of bucket [key']. *)
Definition before (key key' : Key) (colors : list RGBColor) : Prop :=
  exists (i : nat) (c : RGBColor),
    colors !! i = Some c /\ keyOf c = key
    /\ forall (j : nat) (c' : RGBColor),
         (j <= i)%nat -> colors !! j = Some c' -> keyOf c' <> key'.

End SampleOrder.

(** ** utils/audio.ts: formatFileSize *)

Module Format.

(** [bytes] is a [File.size] or [Blob.size]: an integer below 2^53, for
    which the quotients by 1024 and 1024 * 1024 are exact Numbers.
    [x.toFixed(1)] takes the integer [n] for which [n / 10] is closest to
    [x], the larger one of two, and prints the digits of [n] with a point
    before the last one. *)
Definition tenths (bytes unit : Z) : Z := (10 * bytes + unit / 2) / unit.

Definition toFixed1 (n : Z) : string :=
  (pretty (n / 10) +:+ "." +:+ pretty (n mod 10))%string.

Definition formatFileSize (bytes : Z) : string :=
  if bytes <? 1024 then (pretty bytes +:+ " B")%string
  else if bytes <? 1024 * 1024 then (toFixed1 (tenths bytes 1024) +:+ " KB")%string
  else (toFixed1 (tenths bytes (1024 * 1024)) +:+ " MB")%string.

End Format.

(** ** More concrete inputs *)

Module MoreExamples.
Import JS Geometry Canvas Editor Session Examples.

(** A flip and a crop that return the image they are given. *)
Definition noFlip (img : Image) : Image := img.


(** A resize that returns the image it is given. *)
Definition noResize (img : Image) (_ _ : float) : Image := img.

(** The editor after a flip whose result has been decoded. *)
Definition flipped : State := runLoads (handleFlip noFlip sampleEditor).



(** The editor waiting for a click that picks the background colour. *)
Definition picking : State := handlePickColor (handleEnterRemoveBg sampleEditor).

(** The editor after a drag from (410, 310) to (470, 350) in default mode. *)
Definition selected : State :=
  handleMouseUp
    (handleMouseMove
       (handleMouseDown noFill sampleEditor (mkMouseEvent 410 310))
       (mkMouseEvent 470 350)).

(** A 3 x 3 opaque image with a border of colour (1, 2, 3) around the
    given centre pixel. *)
Definition framed (cr cg cb : Z) : Image :=
  mkImage 3 3
    [1; 2; 3; 255;  1; 2; 3; 255;  1; 2; 3; 255;
     1; 2; 3; 255;  cr; cg; cb; 255;  1; 2; 3; 255;
     1; 2; 3; 255;  1; 2; 3; 255;  1; 2; 3; 255].

(** A 2 x 2 image with two dark and two red pixels: the two buckets tie. *)
Definition tied : Image :=
  mkImage 2 2 [10; 10; 10; 255;  200; 0; 0; 255;  200; 0; 0; 255;  10; 10; 10; 255].

End MoreExamples.

(** * Properties *)

Section ModelAdequacy.
Import JS Canvas Spec.

(** On a grid of channel values the integer model of the colour distance
    and the binary64 evaluation of the source expression give the same
    Number, and so do [round_div] and [Math.round] of the quotient. *)
Lemma integer_model_agrees_on_grid :
  distance_agrees_on_grid = true /\ round_div_agrees_on_grid = true.
Proof. split; vm_compute; reflexivity. Qed.

End ModelAdequacy.

Section GeometryProperties.
Import Geometry Spec.

Lemma abs_abs (w : float) : abs (abs w) = abs w.
Proof.
  apply Prim2SF_inj. rewrite !abs_spec. by destruct (Prim2SF w).
Qed.

Lemma abs_not_negative (w : float) : (abs w <? 0)%float = false.
Proof.
  rewrite ltb_spec, abs_spec.
  change (Prim2SF 0) with (S754_zero false).
  by destruct (Prim2SF w).
Qed.

Lemma normalizeRect_idempotent (rect : SelectionRect) :
  normalizeRect (normalizeRect rect) = normalizeRect rect.
Proof.
  unfold normalizeRect; simpl.
  by rewrite !abs_not_negative, !abs_abs.
Qed.

Lemma hitTestEntries_first (entries : list (ResizeHandle * Point)) (px py : float) :
  match hitTestEntries entries px py with
  | Some h =>
      exists (i : nat) (pos : Point),
        entries !! i = Some (h, pos)
        /\ inHitBox pos px py = true
        /\ forall (j : nat) (e : ResizeHandle * Point),
             (j < i)%nat -> entries !! j = Some e -> inHitBox (snd e) px py = false
  | None =>
      forall (j : nat) (e : ResizeHandle * Point),
        entries !! j = Some e -> inHitBox (snd e) px py = false
  end.
Proof.
  induction entries as [|[h pos] rest IH]; simpl.
  - intros j e Hj. by rewrite lookup_nil in Hj.
  - fold (inHitBox pos px py).
    destruct (inHitBox pos px py) eqn:Hbox.
    + exists 0%nat, pos. split; [done|]. split; [done|]. intros j e Hlt. lia.
    + destruct (hitTestEntries rest px py) as [h'|].
      * destruct IH as (i & pos' & Hi & Hin & Hbefore).
        exists (S i), pos'. split; [done|]. split; [done|].
        intros [|j] e Hlt He; simpl in He.
        -- by injection He as <-.
        -- apply (Hbefore j); [lia|done].
      * intros [|j] e He; simpl in He.
        -- by injection He as <-.
        -- by apply (IH j).
Qed.

(** C7 (as amended).  [hitTestHandle] returns the first handle, in the
    canonical enumeration order top-left, top, top-right, right,
    bottom-right, bottom, bottom-left, left, whose position is within 14
    display pixels of the point on each axis (|px - x| <= 14 and
    |py - y| <= 14, a square hit box), and none when no handle position is
    within that box. *)
Theorem hitTestHandle_first_in_hit_box (rect : SelectionRect) (px py : float) :
  fst <$> getHandlePositions rect = canonicalOrder
  /\ match hitTestHandle rect px py with
     | Some h =>
         exists (i : nat) (pos : Point),
           getHandlePositions rect !! i = Some (h, pos)
           /\ inHitBox pos px py = true
           /\ forall (j : nat) (e : ResizeHandle * Point),
                (j < i)%nat -> getHandlePositions rect !! j = Some e ->
                inHitBox (snd e) px py = false
     | None =>
         forall (j : nat) (e : ResizeHandle * Point),
           getHandlePositions rect !! j = Some e -> inHitBox (snd e) px py = false
     end.
Proof.
  split; [reflexivity|].
  unfold hitTestHandle. apply hitTestEntries_first.
Qed.

(** C7, counterexample.  On the rectangle (0, 0, 100, 100) the point
    (-14, -14) is at distance 19.8 from the top-left handle and further
    from every other handle, so no handle is within a radius of 14 of it;
    [hitTestHandle] nevertheless returns top-left. *)
Lemma hitTestHandle_not_a_radius :
  hitTestHandle (mkRect 0 0 100 100) (-14) (-14) = Some TopLeft
  /\ forallb (fun e => negb (inHitRadius (snd e) (-14) (-14)))
       (getHandlePositions (mkRect 0 0 100 100)) = true.
Proof. split; vm_compute; reflexivity. Qed.

(** C10.  The geometry operations are invariant under normalisation of
    their rectangle argument: handle positions, both hit tests and
    [applyResize] give the same result on R and on [normalizeRect R]
    (the same binary64 value in every field; a NaN on one side is a NaN on
    the other). *)
Theorem geometry_invariant_under_normalization
    (R : SelectionRect) (px py : float) (handle : ResizeHandle) (dx dy : float) :
  getHandlePositions R = getHandlePositions (normalizeRect R)
  /\ hitTestSelection R px py = hitTestSelection (normalizeRect R) px py
  /\ hitTestHandle R px py = hitTestHandle (normalizeRect R) px py
  /\ applyResize R handle dx dy = applyResize (normalizeRect R) handle dx dy.
Proof.
  unfold hitTestHandle, getHandlePositions, hitTestSelection, applyResize.
  by rewrite normalizeRect_idempotent.
Qed.

End GeometryProperties.

Section EditorProperties.
Import JS Geometry Canvas Editor Spec Examples.

Variable floodFill : Image -> float -> float -> RGBColor -> float -> Image.
Variable flipHorizontal : Image -> Image.

Lemma computeLayout_frame (img : Image) (st : State) :
  imageRef (computeLayout img st) = imageRef st
  /\ undoStack (computeLayout img st) = undoStack st
  /\ redoStack (computeLayout img st) = redoStack st
  /\ loading (computeLayout img st) = loading st
  /\ rasterCalls (computeLayout img st) = rasterCalls st.
Proof. unfold computeLayout. by destruct (container st). Qed.

Lemma onload_history (img : Image) (cb : OnLoad) (st : State) :
  imageRef (onload img cb st) = Some img
  /\ undoStack (onload img cb st) = undoStack st
  /\ redoStack (onload img cb st) = redoStack st.
Proof.
  unfold onload.
  destruct cb; cbv zeta;
    match goal with
    | |- context [computeLayout ?i ?s] =>
        destruct (computeLayout_frame i s) as (-> & -> & -> & _)
    end; done.
Qed.

(** C8.  In fill mode a pointer-down whose mapped source-pixel coordinate
    lies outside the image (x < 0, y < 0, x >= width or y >= height) leaves
    the whole editor state as it was: no call to [floodFill] is recorded,
    the working image is the same and nothing is pushed on the undo
    stack. *)
Theorem fill_outside_image_is_noop (st : State) (e : MouseEvent) (img : Image) :
  fillMode st = true ->
  imageRef st = Some img ->
  outsideImage img (sourcePixel st e) = true ->
  handleMouseDown floodFill st e = st
  /\ rasterCalls (handleMouseDown floodFill st e) = rasterCalls st
  /\ imageRef (handleMouseDown floodFill st e) = Some img
  /\ undoStack (handleMouseDown floodFill st e) = undoStack st
  /\ loading (handleMouseDown floodFill st e) = loading st.
Proof.
  intros Hfill Himg Hout.
  assert (handleMouseDown floodFill st e = st) as ->; [|by rewrite Himg].
  unfold handleMouseDown.
  destruct (showingResult st); [done|].
  destruct (resizeMode st); [done|].
  rewrite Hfill, Himg.
  unfold outsideImage, sourcePixel in Hout. cbn [pt_x pt_y] in Hout.
  cbv zeta. by rewrite Hout.
Qed.

Lemma runLoads_single (st : State) (img : Image) (cb : OnLoad) :
  loading st = [(img, cb)] -> runLoads st = onload img cb (set_loading [] st).
Proof. unfold runLoads. by intros ->. Qed.

(** Fill and flip do push the snapshot of the working image and clear the
    redo stack before the image is replaced. *)
Lemma handleFlip_pushes_undo (st : State) (img : Image) :
  imageRef st = Some img -> loading st = [] ->
  undoStack (handleFlip flipHorizontal st) = undoStack st ++ [img]
  /\ redoStack (handleFlip flipHorizontal st) = []
  /\ imageRef (handleFlip flipHorizontal st) = Some img
  /\ imageRef (runLoads (handleFlip flipHorizontal st)) = Some (flipHorizontal img).
Proof.
  intros Himg Hload. unfold handleFlip, pushUndo. rewrite Himg. cbn.
  rewrite Himg, Hload. repeat split; try done.
  unfold runLoads; cbn.
  match goal with
  | |- imageRef (computeLayout ?i ?s) = _ =>
      by destruct (computeLayout_frame i s) as (-> & _)
  end.
Qed.

Lemma handleMouseDown_fill_pushes_undo (st : State) (e : MouseEvent) (img : Image) :
  showingResult st = false -> resizeMode st = false -> fillMode st = true ->
  imageRef st = Some img -> loading st = [] ->
  outsideImage img (sourcePixel st e) = false ->
  undoStack (handleMouseDown floodFill st e) = undoStack st ++ [img]
  /\ redoStack (handleMouseDown floodFill st e) = []
  /\ imageRef (handleMouseDown floodFill st e) = Some img
  /\ imageRef (runLoads (handleMouseDown floodFill st e))
     = Some (floodFill img (pt_x (sourcePixel st e)) (pt_y (sourcePixel st e))
               (fillColor st) (fillTolerance st)).
Proof.
  intros Hres Hrz Hfill Himg Hload Hin.
  unfold handleMouseDown. rewrite Hres, Hrz, Hfill, Himg.
  unfold outsideImage, sourcePixel in Hin. cbn [pt_x pt_y] in Hin.
  cbv zeta. rewrite Hin. unfold pushUndo. cbn. rewrite Himg. cbn.
  rewrite Himg, Hload. repeat split; try done.
  unfold runLoads; cbn.
  match goal with
  | |- imageRef (computeLayout ?i ?s) = _ =>
      by destruct (computeLayout_frame i s) as (-> & _)
  end.
Qed.

(** C1, the code at the failing inputs.  "Use as Source" on a crop,
    background-removal or resize result replaces the working image with the
    result and leaves both history stacks as they were: the pre-operation
    image is not pushed on the undo stack and the redo stack is not
    cleared. *)
Theorem use_as_source_leaves_history (st : State) (img result : Image) :
  imageRef st = Some img ->
  loading st = [] ->
  croppedImage st = Some result
  \/ (croppedImage st = None /\ processedImage st = Some result) ->
  imageRef (runLoads (handleUseAsSource st)) = Some result
  /\ undoStack (runLoads (handleUseAsSource st)) = undoStack st
  /\ redoStack (runLoads (handleUseAsSource st)) = redoStack st
  /\ undoStack (runLoads (handleUseAsSource st)) <> undoStack st ++ [img].
Proof.
  intros _ Hload Hres.
  cut (imageRef (runLoads (handleUseAsSource st)) = Some result
       /\ undoStack (runLoads (handleUseAsSource st)) = undoStack st
       /\ redoStack (runLoads (handleUseAsSource st)) = redoStack st).
  { intros (H1 & H2 & H3). repeat split; try done.
    rewrite H2. intros Heq%(f_equal length). rewrite length_app in Heq.
    simpl in Heq. lia. }
  assert (exists cb, loading (handleUseAsSource st) = [(result, cb)]
                     /\ undoStack (handleUseAsSource st) = undoStack st
                     /\ redoStack (handleUseAsSource st) = redoStack st)
    as (cb & Hl & Hu & Hr).
  { unfold handleUseAsSource, handleUseCropped, handleUseResized, handleUseProcessed.
    destruct Hres as [Hc | [Hc Hp]]; rewrite Hc; cbn.
    - exists LoadUseCropped. by rewrite Hload.
    - rewrite Hp. destruct (resizeMode st); cbn; rewrite Hload; eauto. }
  rewrite (runLoads_single _ _ _ Hl).
  destruct (onload_history result cb (set_loading [] (handleUseAsSource st)))
    as (-> & -> & ->).
  by rewrite <- Hu, <- Hr.
Qed.

(** C5, the code at the failing input.  The Crop button is rendered exactly
    in the default toolbar with a selection whose normalised width and
    height are both strictly greater than 5; a 5 x 5 selection, which the
    pointer-up handler keeps, cannot be cropped. *)
Theorem crop_hidden_for_5x5_selection :
  (forall st : State,
     cropButtonShown st = true <->
     showingResult st = false /\ fillMode st = false /\ resizeMode st = false
     /\ removeBgMode st = false
     /\ exists sel, selection st = Some sel
                    /\ (5 <? width (normalizeRect sel))%float = true
                    /\ (5 <? height (normalizeRect sel))%float = true)
  /\ selection afterDrag5x5 = Some (mkRect 410 310 5 5)
  /\ toolbar afterDrag5x5 = DefaultButtons false
  /\ cropButtonShown afterDrag5x5 = false.
Proof.
  split; [|by vm_compute].
  intros st. unfold cropButtonShown, toolbar, hasValidSelection.
  destruct (showingResult st), (fillMode st), (resizeMode st), (removeBgMode st);
    try (split; [done | intros (? & ? & ? & ? & _); done]).
  destruct (selection st) as [sel|].
  - rewrite andb_true_iff. split.
    + intros [? ?]. repeat split; try done. by exists sel.
    + intros (_ & _ & _ & _ & sel' & [= <-] & ? & ?). done.
  - split; [done|]. by intros (_ & _ & _ & _ & sel' & ? & _).
Qed.

End EditorProperties.

Section CanvasProperties.
Import JS Canvas Spec.

Lemma forall_range_spec (fuel : nat) (lo : Z) (f : Z -> bool) :
  forall_range fuel lo f = true ->
  forall z, lo <= z < lo + Z.of_nat fuel -> f z = true.
Proof.
  revert lo. induction fuel as [|k IH]; intros lo Hall z Hz; [lia|].
  simpl in Hall. apply andb_true_iff in Hall as [Hlo Hrest].
  destruct (decide (z = lo)) as [->|Hne]; [done|].
  apply (IH (lo + 1)); [done|lia].
Qed.

(** The order of binary64 values is transitive. *)
Lemma SFleb_trans (a b c : spec_float) :
  SFleb a b = true -> SFleb b c = true -> SFleb a c = true.
Proof.
  unfold SFleb, SFcompare.
  destruct a as [sa|sa| |sa ma ea], b as [sb|sb| |sb mb eb], c as [sc|sc| |sc mc ec];
    try destruct sa; try destruct sb; try destruct sc; try done.
  all: rewrite ?Pos.compare_cont_spec; simpl.
  all: destruct (Z.compare_spec ea eb), (Z.compare_spec eb ec), (Z.compare_spec ea ec);
    try done; try lia; subst.
  all: destruct (Pos.compare_spec ma mb), (Pos.compare_spec mb mc), (Pos.compare_spec ma mc);
    simpl; try done; try lia.
Qed.

Lemma leb_trans (a b c : float) :
  (a <=? b)%float = true -> (b <=? c)%float = true -> (a <=? c)%float = true.
Proof. rewrite !leb_spec. apply SFleb_trans. Qed.

Lemma digits2_pos_lower (m : positive) :
  2 ^ (Z.pos (digits2_pos m) - 1) <= Z.pos m.
Proof.
  induction m as [m IH|m IH|]; simpl digits2_pos; [| |done].
  - rewrite Pos2Z.inj_succ.
    replace (Z.succ (Z.pos (digits2_pos m)) - 1) with (Z.succ (Z.pos (digits2_pos m) - 1)) by lia.
    rewrite Z.pow_succ_r by lia. lia.
  - rewrite Pos2Z.inj_succ.
    replace (Z.succ (Z.pos (digits2_pos m)) - 1) with (Z.succ (Z.pos (digits2_pos m) - 1)) by lia.
    rewrite Z.pow_succ_r by lia. lia.
Qed.

(** A Number that is at least 254.5 is stored as 255 in a clamped byte
    after [Math.round]. *)
Lemma round_at_least_254_5 (x : float) :
  (254.5 <=? x)%float = true -> ToUint8Clamp (Math_round x) = 255.
Proof.
  intros Hle. rewrite leb_spec in Hle.
  pose proof (Prim2SF_valid x) as Hvalid.
  unfold Math_round.
  change (Prim2SF 254.5) with (S754_finite false 8954422696607744 (-45)) in Hle.
  destruct (Prim2SF x) as [sg|sg| |sg m e]; try done.
  - by destruct sg.
  - destruct sg; [done|].
    unfold SFleb, SFcompare in Hle.
    unfold SpecFloat.valid_binary, bounded, canonical_mantissa, fexp, SpecFloat.emin in Hvalid.
    apply andb_true_iff in Hvalid as [Hcanon _]. apply Z.eqb_eq in Hcanon.
    pose proof (digits2_pos_lower m) as Hdigits.
    change prec with 53 in Hcanon. change emax with 1024 in Hcanon.
    assert (-45 < e /\ 2 ^ 52 <= Z.pos m \/ e = -45 /\ 8954422696607744 <= Z.pos m)
      as Hcases.
    { destruct (Z.compare_spec (-45) e) as [Heq|Hlt|Hgt]; [right|left|done].
      - split; [done|].
        rewrite Pos.compare_cont_spec in Hle. simpl in Hle.
        destruct (Pos.compare_spec 8954422696607744 m); [lia|lia|done].
      - split; [done|].
        assert (Z.pos (digits2_pos m) = 53) as Hd by lia.
        by rewrite Hd in Hdigits. }
    simpl ToUint8Clamp.
    destruct (Z.leb_spec 0 e) as [Hpos|Hneg].
    + simpl. destruct Hcases as [[_ Hm]|[? _]]; [|lia].
      assert (1 <= 2 ^ e) by (apply (Z.pow_le_mono_r 2 0 e); lia).
      nia.
    + simpl.
      assert (1 <= 2 ^ (- e) <= 2 ^ 45 /\ 509 * 2 ^ (- e) <= 2 * Z.pos m) as [Hd Hm].
      { destruct Hcases as [[He Hm]|[-> Hm]]; [|split; [done|lia]].
        assert (2 ^ (- e) <= 2 ^ 44) by (apply Z.pow_le_mono_r; lia).
        assert (1 <= 2 ^ (- e)) by (apply (Z.pow_le_mono_r 2 0 (- e)); lia).
        split; lia. }
      set (d := 2 ^ (- e)) in *.
      assert (255 <= (2 * Z.pos m + d) / (2 * d)); [|lia].
      apply Z.div_le_lower_bound; lia.
Qed.

Lemma band_below_threshold_all (pct : Z) :
  0 <= pct <= 100 -> band_below_threshold pct = true.
Proof.
  intros Hpct.
  apply (forall_range_spec 101 0); [by vm_compute | lia].
Qed.

Lemma opaque_at_threshold_all (n : Z) :
  1 <= n <= 195075 -> opaque_at_threshold n = true.
Proof.
  intros Hn.
  apply (forall_range_spec (Z.to_nat 195075) 1); [by vm_compute | lia].
Qed.

(** The distance of 8-bit colours is never exactly the threshold of a
    whole-number tolerance from 1 to 100. *)
Lemma SFltb_trans (a b c : spec_float) :
  SFltb a b = true -> SFltb b c = true -> SFltb a c = true.
Proof.
  unfold SFltb, SFcompare.
  destruct a as [sa|sa| |sa ma ea], b as [sb|sb| |sb mb eb], c as [sc|sc| |sc mc ec];
    try destruct sa; try destruct sb; try destruct sc; try done.
  all: rewrite ?Pos.compare_cont_spec; simpl.
  all: destruct (Z.compare_spec ea eb), (Z.compare_spec eb ec), (Z.compare_spec ea ec);
    try done; try lia; subst.
  all: destruct (Pos.compare_spec ma mb), (Pos.compare_spec mb mc), (Pos.compare_spec ma mc);
    simpl; try done; try lia.
Qed.

Lemma ltb_trans (a b c : float) :
  (a <? b)%float = true -> (b <? c)%float = true -> (a <? c)%float = true.
Proof. rewrite !ltb_spec. apply SFltb_trans. Qed.

Lemma ltb_neq (a b : float) : (a <? b)%float = true -> a <> b.
Proof.
  intros Hlt ->. rewrite ltb_spec in Hlt. unfold SFltb, SFcompare in Hlt.
  destruct (Prim2SF b) as [s|s| |s m e]; try destruct s; try done.
  all: rewrite Pos.compare_cont_spec in Hlt; simpl in Hlt.
  all: by rewrite Z.compare_refl, Pos.compare_refl in Hlt.
Qed.

Lemma root_increases_all (n : Z) : 0 <= n < 195075 -> root_increases n = true.
Proof.
  intros Hn.
  apply (forall_range_spec (Z.to_nat 195075) 0); [by vm_compute | lia].
Qed.

Lemma roots_increase (m n : Z) :
  0 <= m < n -> n <= 195075 ->
  (PrimFloat.sqrt (Z2F m) <? PrimFloat.sqrt (Z2F n))%float = true.
Proof.
  intros Hm Hn.
  replace n with (m + 1 + Z.of_nat (Z.to_nat (n - m - 1))) in * by lia.
  induction (Z.to_nat (n - m - 1)) as [|k IH].
  - rewrite Z.add_0_r. apply (root_increases_all m). lia.
  - apply (ltb_trans _ (PrimFloat.sqrt (Z2F (m + 1 + Z.of_nat k)))); [apply IH; lia|].
    replace (m + 1 + Z.of_nat (S k)) with (m + 1 + Z.of_nat k + 1) by lia.
    apply (root_increases_all (m + 1 + Z.of_nat k)). lia.
Qed.

Lemma threshold_between_roots_all (pct : Z) :
  1 <= pct <= 99 -> threshold_between_roots pct = true.
Proof.
  intros Hpct.
  apply (forall_range_spec 99 1); [by vm_compute | lia].
Qed.

Lemma root_misses_threshold (pct n : Z) :
  1 <= pct <= 99 -> 0 <= n <= 195075 ->
  PrimFloat.sqrt (Z2F n) <> threshold (Z2F pct).
Proof.
  intros Hpct Hn.
  pose proof (threshold_between_roots_all pct Hpct) as Hbetween.
  unfold threshold_between_roots in Hbetween. cbv zeta in Hbetween.
  apply andb_true_iff in Hbetween as [Hbetween Habove].
  apply andb_true_iff in Hbetween as [Hbetween Hbelow].
  apply andb_true_iff in Hbetween as [Hlo%Z.leb_le Hhi%Z.ltb_lt].
  generalize dependent (squareBelow pct). intros n0 Hbelow Habove Hlo Hhi.
  destruct (Z.le_gt_cases n n0) as [Hle|Hgt].
  - apply ltb_neq. destruct (decide (n = n0)) as [->|]; [done|].
    apply (ltb_trans _ (PrimFloat.sqrt (Z2F n0))); [|done].
    apply roots_increase; lia.
  - intros Heq. symmetry in Heq. revert Heq. apply ltb_neq.
    destruct (decide (n = n0 + 1)) as [->|]; [done|].
    apply (ltb_trans _ (PrimFloat.sqrt (Z2F (n0 + 1)))); [done|].
    apply roots_increase; lia.
Qed.

Lemma squares_miss_441 (x y z : Z) :
  -255 <= x <= 255 -> -255 <= y <= 255 -> -255 <= z <= 255 ->
  x ^ 2 + y ^ 2 + z ^ 2 <> 194481.
Proof.
  intros Hx Hy Hz Hsum.
  assert (forall a, -255 <= a <= 255 -> a ^ 2 <= 65025) as Hsq by (intros a Ha; nia).
  assert (forall a, -255 <= a <= 255 -> 64431 <= a ^ 2 ->
                    a ^ 2 = 64516 \/ a ^ 2 = 65025) as Hbig.
  { intros a Ha Hlow.
    assert (a = 254 \/ a = -254 \/ a = 255 \/ a = -255) as [-> | [-> | [-> | ->]]]
      by nia; vm_compute; auto. }
  pose proof (Hsq x Hx). pose proof (Hsq y Hy). pose proof (Hsq z Hz).
  destruct (Hbig x Hx) as [Hx2|Hx2]; [lia| |];
    (destruct (Hbig y Hy) as [Hy2|Hy2]; [lia| |]);
    (destruct (Hbig z Hz) as [Hz2|Hz2]; [lia| |]); lia.
Qed.

Lemma distance_misses_threshold (pr pg pb : Z) (targetColor : RGBColor) (pct : Z) :
  isByte pr -> isByte pg -> isByte pb ->
  isByte (r targetColor) -> isByte (g targetColor) -> isByte (b targetColor) ->
  1 <= pct <= 100 ->
  distance pr pg pb targetColor <> threshold (Z2F pct).
Proof.
  unfold isByte. intros Hr Hg Hb Htr Htg Htb Hpct. unfold distance.
  set (n := (pr - r targetColor) ^ 2 + (pg - g targetColor) ^ 2 + (pb - b targetColor) ^ 2).
  assert (forall a, -255 <= a <= 255 -> 0 <= a ^ 2 <= 65025) as Hsq by (intros a Ha; nia).
  destruct (Hsq (pr - r targetColor)) as [? ?]; [lia|].
  destruct (Hsq (pg - g targetColor)) as [? ?]; [lia|].
  destruct (Hsq (pb - b targetColor)) as [? ?]; [lia|].
  assert (0 <= n <= 195075) as Hn by (unfold n; lia).
  destruct (decide (pct = 100)) as [->|]; [|apply root_misses_threshold; lia].
  change (threshold (Z2F 100)) with (PrimFloat.sqrt (Z2F 194481)).
  assert (n <> 194481) as Hne by (apply squares_miss_441; lia).
  destruct (Z.lt_trichotomy n 194481) as [Hlt|[Heq|Hgt]]; [|done|].
  - apply ltb_neq, roots_increase; lia.
  - intros Heq. symmetry in Heq. revert Heq. apply ltb_neq, roots_increase; lia.
Qed.

(** *** detectBackgroundColor *)

Lemma edgeLoop_length (body : list RGBColor -> Z -> list RGBColor)
    (fuel : nat) (i limit step : Z) (colors : list RGBColor) :
  (forall cs j, length (body cs j) = (length cs + 2)%nat) ->
  1 <= step -> limit - i <= Z.of_nat fuel ->
  exists result,
    edgeLoop fuel i limit step body colors = Some result
    /\ Z.of_nat (length result)
       = Z.of_nat (length colors) + 2 * Z.max 0 (ceilDiv (limit - i) step).
Proof.
  intros Hbody Hstep. revert i colors.
  induction fuel as [|fuel IH]; intros i colors Hfuel.
  - simpl. destruct (Z.ltb_spec i limit); [lia|].
    exists colors. split; [done|].
    unfold ceilDiv.
    assert ((limit - i + step - 1) / step <= 0); [|lia].
    apply Z.lt_succ_r, Z.div_lt_upper_bound; lia.
  - simpl. destruct (Z.ltb_spec i limit) as [Hlt|Hge].
    + destruct (IH (i + step) (body colors i)) as (result & -> & Hlen); [lia|].
      exists result. split; [done|]. rewrite Hlen, Hbody.
      unfold ceilDiv.
      replace (limit - i + step - 1) with ((limit - (i + step) + step - 1) + 1 * step) by lia.
      rewrite Z.div_add by lia.
      assert (0 <= (limit - (i + step) + step - 1) / step); [|lia].
      apply Z.div_pos; lia.
    + exists colors. split; [done|].
      unfold ceilDiv.
      assert ((limit - i + step - 1) / step <= 0); [|lia].
      apply Z.lt_succ_r, Z.div_lt_upper_bound; lia.
Qed.

Lemma edgeLoop_invariant (P : list RGBColor -> Prop)
    (body : list RGBColor -> Z -> list RGBColor)
    (fuel : nat) (i limit step : Z) (colors result : list RGBColor) :
  (forall cs j, 0 <= j < limit -> P cs -> P (body cs j)) ->
  0 <= i -> 0 <= step -> P colors ->
  edgeLoop fuel i limit step body colors = Some result -> P result.
Proof.
  intros Hbody. revert i colors.
  induction fuel as [|fuel IH]; intros i colors Hi Hstep HP; simpl;
    destruct (Z.ltb_spec i limit); try done.
  - by intros [= <-].
  - apply IH; [lia|done|]. apply Hbody; [lia|done].
  - by intros [= <-].
Qed.

Lemma addSample_colour (image : Image) (colors : list RGBColor) (x y : Z) :
  addSample image colors x y
  = colors ++ [colourAt image (Z.max 0 (Z.min (naturalWidth image - 1) x))
                              (Z.max 0 (Z.min (naturalHeight image - 1) y))].
Proof. done. Qed.

Lemma ceilDiv_le (a b : Z) : 0 <= a -> 1 <= b -> ceilDiv a b <= a.
Proof.
  intros Ha Hb. unfold ceilDiv.
  destruct (decide (a = 0)) as [->|].
  - rewrite Z.div_small; lia.
  - apply Z.lt_succ_r, Z.div_lt_upper_bound; nia.
Qed.

Lemma ceilDiv_mul (a b : Z) : 0 <= a -> 1 <= b -> b * ceilDiv a b <= a + b - 1.
Proof. intros Ha Hb. unfold ceilDiv. apply Z.mul_div_le. lia. Qed.

Lemma ceilDiv_nonneg (a b : Z) : 0 <= a -> 1 <= b -> 0 <= ceilDiv a b.
Proof. intros. unfold ceilDiv. apply Z.div_pos; lia. Qed.

Lemma ceilDiv_pos (a b : Z) : 1 <= a -> 1 <= b -> 1 <= ceilDiv a b.
Proof.
  intros. unfold ceilDiv. apply Z.div_le_lower_bound; lia.
Qed.

Lemma sample_count_bound (w h : Z) :
  0 <= w -> 0 <= h ->
  2 * ceilDiv w (stride w h) + 2 * ceilDiv h (stride w h)
  <= Z.min 398 (2 * (w + h)).
Proof.
  intros Hw Hh.
  assert (1 <= stride w h) as Hs by (unfold stride; lia).
  pose proof (ceilDiv_le w _ Hw Hs). pose proof (ceilDiv_le h _ Hh Hs).
  pose proof (ceilDiv_mul w _ Hw Hs). pose proof (ceilDiv_mul h _ Hh Hs).
  pose proof (ceilDiv_nonneg w _ Hw Hs). pose proof (ceilDiv_nonneg h _ Hh Hs).
  apply Z.min_glb; [|lia].
  destruct (Z.le_gt_cases (w + h) 199) as [Hsmall|Hbig]; [lia|].
  assert (stride w h = (w + h) * 2 / 200) as Hstride.
  { unfold stride. rewrite (Z.min_l 200) by lia.
    apply Z.max_r. apply Z.div_le_lower_bound; lia. }
  assert (2 <= stride w h) as Hs2.
  { rewrite Hstride. apply Z.div_le_lower_bound; lia. }
  assert ((w + h) * 2 < 200 * (stride w h + 1)) as Hup.
  { rewrite Hstride.
    pose proof (Z.mul_succ_div_gt ((w + h) * 2) 200). lia. }
  set (s := stride w h) in *. set (cw := ceilDiv w s) in *. set (ch := ceilDiv h s) in *.
  nia.
Qed.

Lemma map_get_set (buckets : list (Key * Bucket)) (key key' : Key) (value : Bucket) :
  map_get (map_set buckets key value) key'
  = if decide (key = key') then Some value else map_get buckets key'.
Proof.
  induction buckets as [|[k v] rest IH]; simpl.
  - by repeat case_decide.
  - repeat (case_decide; simpl; subst); try done.
Qed.

Lemma map_set_keys (buckets : list (Key * Bucket)) (key : Key) (value : Bucket) :
  (map_set buckets key value).*1
  = if decide (key ∈ buckets.*1) then buckets.*1 else buckets.*1 ++ [key].
Proof.
  induction buckets as [|[k v] rest IH]; [done|].
  cbn [map_set]. rewrite fmap_cons. cbn [fst].
  destruct (decide (k = key)) as [->|Hne]; rewrite fmap_cons; cbn [fst].
  - rewrite decide_True; [done|left].
  - rewrite IH. destruct (decide (key ∈ rest.*1)) as [Hin|Hnin].
    + rewrite decide_True; [done|by right].
    + rewrite decide_False; [done|].
      intros [?|?]%elem_of_cons; by subst.
Qed.

Lemma map_set_NoDup (buckets : list (Key * Bucket)) (key : Key) (value : Bucket) :
  NoDup buckets.*1 -> NoDup (map_set buckets key value).*1.
Proof.
  intros Hnd. rewrite map_set_keys. case_decide as Hin; [done|].
  apply NoDup_app. split; [done|]. split; [|apply NoDup_singleton].
  intros k Hk ->%list_elem_of_singleton. done.
Qed.

Lemma map_get_elem (buckets : list (Key * Bucket)) (key : Key) (value : Bucket) :
  NoDup buckets.*1 ->
  (key, value) ∈ buckets <-> map_get buckets key = Some value.
Proof.
  induction buckets as [|[k v] rest IH]; simpl; intros Hnd.
  - split; [by intros ?%elem_of_nil|done].
  - apply NoDup_cons in Hnd as [Hk Hnd]. case_decide as Hkey.
    + subst k. split.
      * intros [[= ->]|Hin]%elem_of_cons; [done|].
        exfalso. apply Hk. apply list_elem_of_fmap. by exists (key, value).
      * intros [= ->]. left.
    + rewrite <- (IH Hnd). split.
      * intros [[= ? ?]|Hin]%elem_of_cons; [by subst|done].
      * intros Hin. by right.
Qed.

Lemma channelSum_snoc (channel : RGBColor -> Z) (colors : list RGBColor) (c : RGBColor) :
  channelSum channel (colors ++ [c]) = channelSum channel colors + channel c.
Proof.
  unfold channelSum. induction colors as [|c' colors IH]; simpl; lia.
Qed.

Lemma members_snoc (key : Key) (colors : list RGBColor) (c : RGBColor) :
  members key (colors ++ [c])
  = if decide (keyOf c = key) then members key colors ++ [c] else members key colors.
Proof.
  unfold members. rewrite filter_app.
  case_decide as Hk.
  - by rewrite filter_cons_True.
  - rewrite filter_cons_False by done. by rewrite filter_nil, app_nil_r.
Qed.

Lemma addToBucket_counted (colors : list RGBColor) (buckets : list (Key * Bucket))
    (c : RGBColor) :
  counted colors buckets -> counted (colors ++ [c]) (addToBucket buckets c).
Proof.
  intros [Hnd Hget]. split; [by apply map_set_NoDup|].
  intros key. unfold addToBucket. rewrite map_get_set.
  assert (default (mkBucket 0 0 0 0) (map_get buckets (keyOf c))
          = summary (keyOf c) colors) as ->.
  { rewrite Hget. case_decide as Hm; [|done]. unfold summary. by rewrite Hm. }
  destruct (decide (keyOf c = key)) as [<-|Hne].
  - assert (members (keyOf c) (colors ++ [c]) = members (keyOf c) colors ++ [c]) as Hm
      by (by rewrite members_snoc, decide_True).
    rewrite decide_False by (rewrite Hm; by destruct (members (keyOf c) colors)).
    f_equal. unfold summary. rewrite Hm, length_app, !channelSum_snoc. simpl.
    f_equal; lia.
  - assert (members key (colors ++ [c]) = members key colors) as Hm
      by (by rewrite members_snoc, decide_False).
    unfold summary. rewrite Hm. apply Hget.
Qed.

Lemma fillBuckets_counted (colors : list RGBColor) :
  counted colors (fillBuckets colors).
Proof.
  unfold fillBuckets.
  assert (forall done_ buckets todo,
            counted done_ buckets ->
            counted (done_ ++ todo) (fold_left addToBucket todo buckets)) as Hgen.
  { intros done_ buckets todo. revert done_ buckets.
    induction todo as [|c todo IH]; intros done_ buckets Hc; simpl.
    - by rewrite app_nil_r.
    - rewrite (assoc_L _ done_ [c] todo : done_ ++ c :: todo = (done_ ++ [c]) ++ todo).
      apply IH. by apply addToBucket_counted. }
  apply (Hgen [] [] colors). split; [apply NoDup_nil_2|done].
Qed.

Lemma pickBest_fold (buckets : list (Key * Bucket)) (init : Bucket) :
  let best := fold_left (fun bestBucket kv =>
                           if count bestBucket <? count (snd kv) then snd kv
                           else bestBucket) buckets init in
  count init <= count best
  /\ (forall kv, kv ∈ buckets -> count (snd kv) <= count best)
  /\ (best = init \/ exists key, (key, best) ∈ buckets).
Proof.
  revert init. induction buckets as [|[k v] rest IH]; intros init; simpl.
  - split; [lia|]. split; [by intros ? ?%elem_of_nil|by left].
  - destruct (Z.ltb_spec (count init) (count v)) as [Hlt|Hge].
    + destruct (IH v) as (H1 & H2 & H3). split; [lia|]. split.
      * intros kv [->|Hin]%elem_of_cons; [done|by apply H2].
      * right. destruct H3 as [->|[key Hkey]]; [exists k; left|exists key; by right].
    + destruct (IH init) as (H1 & H2 & H3). split; [lia|]. split.
      * intros kv [->|Hin]%elem_of_cons; [simpl; lia|by apply H2].
      * destruct H3 as [->|[key Hkey]]; [by left|right; exists key; by right].
Qed.

Lemma pickBest_most_populous (colors : list RGBColor) :
  colors <> [] ->
  exists key,
    members key colors <> []
    /\ (forall key', (length (members key' colors) <= length (members key colors))%nat)
    /\ pickBest (fillBuckets colors) = summary key colors.
Proof.
  intros Hne.
  destruct (fillBuckets_counted colors) as [Hnd Hget].
  destruct (pickBest_fold (fillBuckets colors) (mkBucket 0 255 255 255))
    as (_ & Hmax & Hbest).
  fold (pickBest (fillBuckets colors)) in Hmax, Hbest.
  assert (forall key, members key colors <> [] ->
            Z.of_nat (length (members key colors))
            <= count (pickBest (fillBuckets colors))) as Hall.
  { intros key Hm.
    specialize (Hget key). rewrite decide_False in Hget by done.
    apply map_get_elem in Hget; [|done].
    by apply Hmax in Hget. }
  assert (1 <= count (pickBest (fillBuckets colors))) as Hpos.
  { destruct colors as [|c colors]; [done|].
    assert (members (keyOf c) (c :: colors) <> []) as Hm.
    { unfold members. by rewrite filter_cons_True. }
    specialize (Hall _ Hm).
    destruct (members (keyOf c) (c :: colors)); [done|simpl in Hall; lia]. }
  destruct Hbest as [Hinit|[key Hkey]].
  { rewrite Hinit in Hpos. simpl in Hpos. lia. }
  apply map_get_elem in Hkey; [|done].
  rewrite Hget in Hkey. case_decide as Hm; [done|]. injection Hkey as Hkey.
  exists key. split; [done|]. split; [|done].
  intros key'. destruct (decide (members key' colors = [])) as [->|Hm'].
  - simpl. lia.
  - specialize (Hall key' Hm'). rewrite <- Hkey in Hall. simpl in Hall. lia.
Qed.

Lemma sampleEdges_spec (image : Image) :
  1 <= naturalWidth image -> 1 <= naturalHeight image ->
  exists colors,
    sampleEdges image = Some colors
    /\ Forall (onEdge image) colors
    /\ Z.of_nat (length colors)
       = 2 * ceilDiv (naturalWidth image) (stride (naturalWidth image) (naturalHeight image))
         + 2 * ceilDiv (naturalHeight image) (stride (naturalWidth image) (naturalHeight image)).
Proof.
  intros Hw Hh. unfold sampleEdges.
  set (w := naturalWidth image) in *. set (h := naturalHeight image) in *.
  change (Z.max 1 ((w + h) * 2 / Z.min 200 ((w + h) * 2))) with (stride w h).
  assert (1 <= stride w h) as Hs by (unfold stride; lia).
  set (rows := fun colors i => addSample image (addSample image colors i 0) i (h - 1)).
  set (cols := fun colors i => addSample image (addSample image colors 0 i) (w - 1) i).
  assert (forall cs j, length (rows cs j) = (length cs + 2)%nat) as Hrows2.
  { intros cs j. unfold rows. rewrite !addSample_colour, !length_app. simpl. lia. }
  assert (forall cs j, length (cols cs j) = (length cs + 2)%nat) as Hcols2.
  { intros cs j. unfold cols. rewrite !addSample_colour, !length_app. simpl. lia. }
  assert (forall cs j, 0 <= j < w -> Forall (onEdge image) cs ->
                       Forall (onEdge image) (rows cs j)) as Hrows.
  { intros cs j Hj Hcs. unfold rows. rewrite !addSample_colour. fold w h.
    rewrite <- (assoc_L (++)). apply Forall_app. split; [done|].
    repeat apply Forall_cons_2; [| |apply Forall_nil_2].
    - exists j, 0. fold w h. repeat split; try lia. f_equal; lia.
    - exists j, (h - 1). fold w h. repeat split; try lia. f_equal; lia. }
  assert (forall cs j, 0 <= j < h -> Forall (onEdge image) cs ->
                       Forall (onEdge image) (cols cs j)) as Hcols.
  { intros cs j Hj Hcs. unfold cols. rewrite !addSample_colour. fold w h.
    rewrite <- (assoc_L (++)). apply Forall_app. split; [done|].
    repeat apply Forall_cons_2; [| |apply Forall_nil_2].
    - exists 0, j. fold w h. repeat split; try lia. f_equal; lia.
    - exists (w - 1), j. fold w h. repeat split; try lia. f_equal; lia. }
  destruct (edgeLoop_length rows (Z.to_nat w) 0 w (stride w h) [] Hrows2 Hs)
    as (colors1 & Hloop1 & Hlen1); [lia|].
  rewrite Hloop1. simpl.
  destruct (edgeLoop_length cols (Z.to_nat h) 0 h (stride w h) colors1 Hcols2 Hs)
    as (colors2 & Hloop2 & Hlen2); [lia|].
  exists colors2. split; [done|]. split.
  - apply (edgeLoop_invariant _ cols (Z.to_nat h) 0 h (stride w h) colors1 colors2 Hcols);
      [lia|lia| |done].
    by apply (edgeLoop_invariant _ rows (Z.to_nat w) 0 w (stride w h) [] colors1 Hrows);
      [lia|lia|apply Forall_nil_2|].
  - rewrite Hlen2, Hlen1. simpl. rewrite !Z.sub_0_r.
    pose proof (ceilDiv_nonneg w _ ltac:(lia) Hs).
    pose proof (ceilDiv_nonneg h _ ltac:(lia) Hs). lia.
Qed.

Lemma edgeLoop_samples (body : list RGBColor -> Z -> list RGBColor)
    (pair : Z -> list RGBColor)
    (fuel : nat) (i limit step : Z) (colors : list RGBColor) :
  (forall cs j, 0 <= j < limit -> body cs j = cs ++ pair j) ->
  1 <= step -> 0 <= i -> limit - i <= Z.of_nat fuel ->
  edgeLoop fuel i limit step body colors
  = Some (colors
          ++ flat_map pair ((fun k : nat => i + Z.of_nat k * step)
                            <$> seq 0 (Z.to_nat (ceilDiv (limit - i) step)))).
Proof.
  intros Hbody Hstep. revert i colors.
  assert (forall i, limit <= i -> Z.to_nat (ceilDiv (limit - i) step) = 0%nat) as Hdone.
  { intros i Hi. unfold ceilDiv.
    assert ((limit - i + step - 1) / step <= 0); [|lia].
    apply Z.lt_succ_r, Z.div_lt_upper_bound; lia. }
  induction fuel as [|fuel IH]; intros i colors Hi Hfuel; simpl;
    destruct (Z.ltb_spec i limit) as [Hlt|Hge]; try lia.
  - rewrite (Hdone i Hge). simpl. by rewrite (right_id_L [] (++)).
  - rewrite (IH (i + step) (body colors i)) by lia.
    rewrite (Hbody colors i) by lia. f_equal.
    assert (Z.to_nat (ceilDiv (limit - i) step)
            = S (Z.to_nat (ceilDiv (limit - (i + step)) step))) as ->.
    { unfold ceilDiv.
      replace (limit - i + step - 1) with ((limit - (i + step) + step - 1) + 1 * step) by lia.
      rewrite Z.div_add by lia.
      assert (0 <= (limit - (i + step) + step - 1) / step) by (apply Z.div_pos; lia).
      lia. }
    rewrite <- (assoc_L (++)). f_equal.
    cbn [seq fmap list_fmap flat_map]. rewrite <- fmap_S_seq, <- list_fmap_compose.
    replace (i + Z.of_nat 0 * step) with i by lia. f_equal. f_equal.
    apply list_fmap_ext. intros k n _. simpl. lia.
  - rewrite (Hdone i Hge). simpl. by rewrite (right_id_L [] (++)).
Qed.

Lemma sampleEdges_positions (image : Image) :
  1 <= naturalWidth image -> 1 <= naturalHeight image ->
  sampleEdges image = Some (edgeSamples image).
Proof.
  intros Hw Hh. unfold sampleEdges, edgeSamples, strideIndices. cbv zeta.
  change (Z.max 1 ((naturalWidth image + naturalHeight image) * 2
                   / Z.min 200 ((naturalWidth image + naturalHeight image) * 2)))
    with (stride (naturalWidth image) (naturalHeight image)).
  set (w := naturalWidth image) in *. set (h := naturalHeight image) in *.
  assert (1 <= stride w h) as Hs by (unfold stride; lia).
  rewrite (edgeLoop_samples _
             (fun i => [colourAt image i 0; colourAt image i (h - 1)])
             (Z.to_nat w) 0 w (stride w h) []); [|
    intros cs j Hj; rewrite !addSample_colour; fold w h;
    rewrite <- (assoc_L (++)); cbn [app]; repeat f_equal; lia
    |done|lia|lia].
  cbn [mbind option_bind].
  rewrite (edgeLoop_samples _
             (fun i => [colourAt image 0 i; colourAt image (w - 1) i])
             (Z.to_nat h) 0 h (stride w h)); [|
    intros cs j Hj; rewrite !addSample_colour; fold w h;
    rewrite <- (assoc_L (++)); cbn [app]; repeat f_equal; lia
    |done|lia|lia].
  rewrite !Z.sub_0_r. done.
Qed.

(** C6 (as amended).  For an image of width w >= 1 and height h >= 1 and
    with step = max(1, floor(2(w+h) / min(200, 2(w+h)))),
    [detectBackgroundColor] samples along the four image edges at stride
    step: the pixels of the top and of the bottom row in the columns 0,
    step, 2 step, ... below w, then the pixels of the left and of the right
    column in the rows 0, step, 2 step, ... below h, these and no others.
    That makes 2 (ceil(w/step) + ceil(h/step)) samples, at most
    min(398, 2 (w + h)) (the number is not capped at 200).  It returns the
    channel-wise average, rounded to the nearest integer, of a most
    populous 16-level-per-channel bucket of the samples. *)
Theorem detectBackgroundColor_samples_and_result (image : Image) :
  1 <= naturalWidth image -> 1 <= naturalHeight image ->
  exists (colors : list RGBColor) (key : Key),
    sampleEdges image = Some colors
    /\ colors = edgeSamples image
    /\ Forall (onEdge image) colors
    /\ Z.of_nat (length colors)
       = 2 * ceilDiv (naturalWidth image) (stride (naturalWidth image) (naturalHeight image))
         + 2 * ceilDiv (naturalHeight image) (stride (naturalWidth image) (naturalHeight image))
    /\ Z.of_nat (length colors)
       <= Z.min 398 (2 * (naturalWidth image + naturalHeight image))
    /\ members key colors <> []
    /\ (forall key', (length (members key' colors) <= length (members key colors))%nat)
    /\ detectBackgroundColor image
       = Some (mkRGB (average r (members key colors))
                     (average g (members key colors))
                     (average b (members key colors))).
Proof.
  intros Hw Hh.
  destruct (sampleEdges_spec image Hw Hh) as (colors & Hsample & Hedge & Hlen).
  assert (colors <> []) as Hne.
  { intros ->. simpl in Hlen.
    pose proof (ceilDiv_pos (naturalWidth image)
                  (stride (naturalWidth image) (naturalHeight image)) Hw
                  ltac:(unfold stride; lia)).
    pose proof (ceilDiv_nonneg (naturalHeight image)
                  (stride (naturalWidth image) (naturalHeight image)) ltac:(lia)
                  ltac:(unfold stride; lia)).
    lia. }
  destruct (pickBest_most_populous colors Hne) as (key & Hm & Hmax & Hbest).
  exists colors, key. split; [done|].
  split; [rewrite (sampleEdges_positions image Hw Hh) in Hsample; congruence|].
  split; [done|]. split; [done|].
  split; [rewrite Hlen; apply sample_count_bound; lia|].
  split; [done|]. split; [done|].
  unfold detectBackgroundColor. rewrite Hsample. simpl. rewrite Hbest.
  unfold summary at 1. cbn [count].
  destruct (Z.eqb_spec (Z.of_nat (length (members key colors))) 0) as [Hz|_].
  - destruct (members key colors); [done|simpl in Hz; lia].
  - done.
Qed.

(** C6, counterexample.  On a 75 x 75 image the stride is 1 and 300 edge
    pixels are sampled, more than min(200, 2 x (75 + 75)) = 200. *)
Lemma detectBackgroundColor_samples_more_than_200 :
  length <$> sampleEdges (mkImage 75 75 (replicate (Z.to_nat 22500) 255)) = Some 300%nat
  /\ Z.min 200 (2 * (75 + 75)) = 200.
Proof. split; by vm_compute. Qed.

(** *** removeBackground *)

Lemma processData_length (data : list Z) (targetColor : RGBColor) (tolerance : float) :
  length (processData data targetColor tolerance) = length data.
Proof.
  remember (length data) as n eqn:Hn.
  revert data Hn. induction (lt_wf n) as [n _ IH]. intros data Hn.
  subst n. destruct data as [|pr [|pg [|pb [|pa rest]]]]; try done.
  simpl. by rewrite (IH (length rest)); [|simpl; lia|].
Qed.

Lemma processData_pixel (data : list Z) (targetColor : RGBColor) (tolerance : float)
    (k : nat) (pr pg pb pa : Z) :
  data !! (4 * k)%nat = Some pr ->
  data !! (4 * k + 1)%nat = Some pg ->
  data !! (4 * k + 2)%nat = Some pb ->
  data !! (4 * k + 3)%nat = Some pa ->
  processData data targetColor tolerance !! (4 * k + 3)%nat
  = Some (processPixel pr pg pb pa targetColor tolerance).
Proof.
  revert data. induction k as [|k IH]; intros data H0 H1 H2 H3.
  - destruct data as [|? [|? [|? [|? rest]]]]; simpl in *; try done.
    by injection H0 as ->; injection H1 as ->; injection H2 as ->; injection H3 as ->.
  - replace (4 * S k)%nat with (S (S (S (S (4 * k))))) in * by lia.
    destruct data as [|? [|? [|? [|? rest]]]]; simpl in *; try done.
    by apply IH.
Qed.

Lemma processData_colour_bytes (data : list Z) (targetColor : RGBColor)
    (tolerance : float) (i : nat) :
  (i mod 4 <> 3)%nat ->
  processData data targetColor tolerance !! i = data !! i.
Proof.
  revert data. induction (lt_wf i) as [i _ IH]. intros data Hi.
  destruct data as [|pr [|pg [|pb [|pa rest]]]]; try done.
  destruct i as [|[|[|[|i]]]]; try done.
  simpl. apply IH; [lia|].
  by replace (S (S (S (S i)))) with (i + 1 * 4)%nat in Hi by lia;
     rewrite Nat.Div0.mod_add in Hi.
Qed.

Lemma distance_is_sqrt (pr pg pb : Z) (targetColor : RGBColor) :
  isByte pr -> isByte pg -> isByte pb ->
  isByte (r targetColor) -> isByte (g targetColor) -> isByte (b targetColor) ->
  exists n, 0 <= n <= 195075
            /\ (n = 0 <-> mkRGB pr pg pb = targetColor)
            /\ distance pr pg pb targetColor = PrimFloat.sqrt (Z2F n).
Proof.
  unfold isByte. intros Hr Hg Hb Htr Htg Htb.
  assert (forall a, -255 <= a <= 255 -> 0 <= a ^ 2 <= 65025 /\ (a ^ 2 = 0 -> a = 0))
    as Hsq by (intros a Ha; nia).
  destruct (Hsq (pr - r targetColor)) as [? ?]; [lia|].
  destruct (Hsq (pg - g targetColor)) as [? ?]; [lia|].
  destruct (Hsq (pb - b targetColor)) as [? ?]; [lia|].
  exists ((pr - r targetColor) ^ 2 + (pg - g targetColor) ^ 2 + (pb - b targetColor) ^ 2).
  split; [lia|]. split; [|done].
  destruct targetColor as [tr tg tb]; simpl in *. split.
  - intros Hz. f_equal; lia.
  - intros [= -> -> ->]. lia.
Qed.

Section Exported.
Context {store : CanvasStore}.

Lemma exportData_length (data : list Z) : length (exportData data) = length data.
Proof.
  remember (length data) as n eqn:Hn.
  revert data Hn. induction (lt_wf n) as [n _ IH]. intros data Hn.
  subst n. destruct data as [|pr [|pg [|pb [|pa rest]]]]; try done.
  simpl. by rewrite (IH (length rest)); [|simpl; lia|].
Qed.

(** What is read back of pixel [k]: its alpha as it was put, its colour
    as the store returns it for that alpha. *)
Lemma exportData_pixel (data : list Z) (k : nat) (pr pg pb pa : Z) :
  data !! (4 * k)%nat = Some pr ->
  data !! (4 * k + 1)%nat = Some pg ->
  data !! (4 * k + 2)%nat = Some pb ->
  data !! (4 * k + 3)%nat = Some pa ->
  exportData data !! (4 * k)%nat = Some (readBack pr pa)
  /\ exportData data !! (4 * k + 1)%nat = Some (readBack pg pa)
  /\ exportData data !! (4 * k + 2)%nat = Some (readBack pb pa)
  /\ exportData data !! (4 * k + 3)%nat = Some pa.
Proof.
  revert data. induction k as [|k IH]; intros data H0 H1 H2 H3.
  - destruct data as [|? [|? [|? [|? rest]]]]; simpl in *; try done.
    by injection H0 as ->; injection H1 as ->; injection H2 as ->; injection H3 as ->.
  - replace (4 * S k)%nat with (S (S (S (S (4 * k))))) in * by lia.
    destruct data as [|? [|? [|? [|? rest]]]]; simpl in *; try done.
    by apply IH.
Qed.

Lemma processData_pixel_colour (data : list Z) (targetColor : RGBColor)
    (tolerance : float) (k : nat) (pr pg pb pa : Z) :
  data !! (4 * k)%nat = Some pr ->
  data !! (4 * k + 1)%nat = Some pg ->
  data !! (4 * k + 2)%nat = Some pb ->
  data !! (4 * k + 3)%nat = Some pa ->
  processData data targetColor tolerance !! (4 * k)%nat = Some pr
  /\ processData data targetColor tolerance !! (4 * k + 1)%nat = Some pg
  /\ processData data targetColor tolerance !! (4 * k + 2)%nat = Some pb.
Proof.
  intros H0 H1 H2 H3.
  rewrite !processData_colour_bytes; [done| | |].
  - replace (4 * k + 2)%nat with (2 + k * 4)%nat by lia.
    by rewrite Nat.Div0.mod_add.
  - replace (4 * k + 1)%nat with (1 + k * 4)%nat by lia.
    by rewrite Nat.Div0.mod_add.
  - replace (4 * k)%nat with (0 + k * 4)%nat by lia.
    by rewrite Nat.Div0.mod_add.
Qed.

(** Pixel [k] of the result: the alpha the loop left in the buffer, and
    the colour read back for it. *)
Lemma removeBackground_pixel (image : Image) (targetColor : RGBColor)
    (tolerance : float) (k : nat) (pr pg pb pa : Z) :
  pixels image !! (4 * k)%nat = Some pr ->
  pixels image !! (4 * k + 1)%nat = Some pg ->
  pixels image !! (4 * k + 2)%nat = Some pb ->
  pixels image !! (4 * k + 3)%nat = Some pa ->
  let a' := processPixel pr pg pb pa targetColor tolerance in
  let result := pixels (removeBackground image targetColor tolerance) in
  result !! (4 * k)%nat = Some (readBack pr a')
  /\ result !! (4 * k + 1)%nat = Some (readBack pg a')
  /\ result !! (4 * k + 2)%nat = Some (readBack pb a')
  /\ result !! (4 * k + 3)%nat = Some a'.
Proof.
  intros H0 H1 H2 H3 a' result. subst result. unfold removeBackground. cbn [pixels].
  destruct (processData_pixel_colour _ targetColor tolerance _ _ _ _ _ H0 H1 H2 H3)
    as (Hr & Hg & Hb).
  pose proof (processData_pixel _ targetColor tolerance _ _ _ _ _ H0 H1 H2 H3) as Ha.
  by apply exportData_pixel.
Qed.

Lemma removeBackground_alpha (image : Image) (targetColor : RGBColor)
    (tolerance : float) (k : nat) (pr pg pb pa : Z) :
  pixels image !! (4 * k)%nat = Some pr ->
  pixels image !! (4 * k + 1)%nat = Some pg ->
  pixels image !! (4 * k + 2)%nat = Some pb ->
  pixels image !! (4 * k + 3)%nat = Some pa ->
  pixels (removeBackground image targetColor tolerance) !! (4 * k + 3)%nat
  = Some (processPixel pr pg pb pa targetColor tolerance).
Proof. intros H0 H1 H2 H3. by apply removeBackground_pixel. Qed.

(** C4 (as amended).  With threshold = tolerance/100 x 441 (the constant of
    the source, not 441.67), a pixel whose distance to the target is at most
    the threshold gets alpha 0 when the distance is at most 0.7 x threshold
    and otherwise the ramp value 255 (d - 0.7 t) / (0.3 t), rounded; a pixel
    beyond the threshold keeps its alpha.  For a whole-number tolerance
    between 0 and 100, distance <= 0.7 x threshold alone gives alpha 0. *)
Theorem removeBackground_alpha_bands (image : Image) (targetColor : RGBColor)
    (tolerance : float) (k : nat) (pr pg pb pa : Z) :
  pixels image !! (4 * k)%nat = Some pr ->
  pixels image !! (4 * k + 1)%nat = Some pg ->
  pixels image !! (4 * k + 2)%nat = Some pb ->
  pixels image !! (4 * k + 3)%nat = Some pa ->
  let d := distance pr pg pb targetColor in
  let t := (tolerance / 100 * 441)%float in
  let alpha' := pixels (removeBackground image targetColor tolerance) !! (4 * k + 3)%nat in
  ((d <=? t)%float = true -> (d <=? t * 0.7)%float = true -> alpha' = Some 0)
  /\ ((d <=? t)%float = true -> (d <=? t * 0.7)%float = false ->
      alpha' = Some (rampAlpha d t))
  /\ ((d <=? t)%float = false -> alpha' = Some pa)
  /\ (forall pct, 0 <= pct <= 100 -> tolerance = Z2F pct ->
      (d <=? t * 0.7)%float = true -> alpha' = Some 0).
Proof.
  intros H0 H1 H2 H3 d t alpha'.
  assert (alpha' = Some (processPixel pr pg pb pa targetColor tolerance)) as ->
    by (by apply removeBackground_alpha).
  unfold processPixel, alpha. fold d. change (threshold tolerance) with t.
  repeat split.
  - by intros -> ->.
  - by intros -> ->.
  - by intros ->.
  - intros pct Hpct -> Hband.
    assert ((d <=? t)%float = true) as ->.
    { apply (leb_trans _ _ _ Hband). by apply (band_below_threshold_all pct). }
    by rewrite Hband.
Qed.

(** C9 (as amended).  [removeBackground] keeps the dimensions and the
    number of bytes.  Its loop assigns only alpha bytes, but what it returns
    is the PNG exported from the canvas the buffer was put into, so each
    pixel comes back with the alpha the loop left and with its colour as
    the canvas returns it for that alpha: R, G and B are unchanged where
    the alpha is 255 and are 0 where the alpha is 0.  A pixel within the
    threshold has its alpha overwritten by a value that does not depend on
    the old alpha, a pixel beyond it keeps its alpha; in the ramp band the
    value is the rounded ramp 255 (d - 0.7 t) / (0.3 t), which is 0 at the
    bottom of the band (so a transparent pixel there stays transparent), is
    255 as soon as the ramp is at least 254.5, and so is 255 when the
    distance equals the threshold (pixel other than the target colour).
    For a whole-number tolerance from 1 to 100 the distance between 8-bit
    colours never equals the threshold. *)
Theorem removeBackground_only_alpha (image : Image) (targetColor : RGBColor)
    (tolerance : float) :
  naturalWidth (removeBackground image targetColor tolerance) = naturalWidth image
  /\ naturalHeight (removeBackground image targetColor tolerance) = naturalHeight image
  /\ length (pixels (removeBackground image targetColor tolerance))
     = length (pixels image)
  /\ (forall (k : nat) (pr pg pb pa : Z),
        pixels image !! (4 * k)%nat = Some pr ->
        pixels image !! (4 * k + 1)%nat = Some pg ->
        pixels image !! (4 * k + 2)%nat = Some pb ->
        pixels image !! (4 * k + 3)%nat = Some pa ->
        let d := distance pr pg pb targetColor in
        let t := threshold tolerance in
        let red' := pixels (removeBackground image targetColor tolerance) !! (4 * k)%nat in
        let green' :=
          pixels (removeBackground image targetColor tolerance) !! (4 * k + 1)%nat in
        let blue' :=
          pixels (removeBackground image targetColor tolerance) !! (4 * k + 2)%nat in
        let alpha' :=
          pixels (removeBackground image targetColor tolerance) !! (4 * k + 3)%nat in
        (exists a', alpha' = Some a'
                    /\ red' = Some (readBack pr a')
                    /\ green' = Some (readBack pg a')
                    /\ blue' = Some (readBack pb a'))
        /\ (isByte pr -> isByte pg -> isByte pb -> alpha' = Some 255 ->
            red' = Some pr /\ green' = Some pg /\ blue' = Some pb)
        /\ (alpha' = Some 0 -> red' = Some 0 /\ green' = Some 0 /\ blue' = Some 0)
        /\ ((d <=? t)%float = false -> alpha' = Some pa)
        /\ ((d <=? t)%float = true -> alpha' = Some (alpha d t))
        /\ ((d <=? t)%float = true -> (d <=? t * 0.7)%float = false ->
            alpha' = Some (rampAlpha d t))
        /\ ((d <=? t)%float = true -> (d <=? t * 0.7)%float = false ->
            (254.5 <=? 255 * ((d - t * 0.7) / (t * 0.3)))%float = true ->
            alpha' = Some 255)
        /\ (isByte pr -> isByte pg -> isByte pb ->
            isByte (r targetColor) -> isByte (g targetColor) -> isByte (b targetColor) ->
            mkRGB pr pg pb <> targetColor ->
            d = t -> alpha' = Some 255)
        /\ (forall pct, 1 <= pct <= 100 -> tolerance = Z2F pct ->
            isByte pr -> isByte pg -> isByte pb ->
            isByte (r targetColor) -> isByte (g targetColor) -> isByte (b targetColor) ->
            d <> t)).
Proof.
  split; [done|]. split; [done|].
  split; [unfold removeBackground; cbn [pixels];
          by rewrite exportData_length, processData_length|].
  intros k pr pg pb pa H0 H1 H2 H3 d t red' green' blue' alpha'.
  destruct (removeBackground_pixel image targetColor tolerance k pr pg pb pa H0 H1 H2 H3)
    as (Hred & Hgreen & Hblue & Halpha).
  fold red' in Hred. fold green' in Hgreen. fold blue' in Hblue. fold alpha' in Halpha.
  rewrite Hred, Hgreen, Hblue, Halpha. clear Hred Hgreen Hblue Halpha.
  unfold processPixel. fold d t.
  split; [by eexists|].
  split; [intros Hr Hg Hb [= ->]; by rewrite !readBack_opaque|].
  split; [intros [= ->]; by rewrite !readBack_transparent|].
  split; [by intros ->|].
  split; [by intros ->|].
  split; [intros -> Hband; unfold alpha, rampAlpha; by rewrite Hband|].
  split; [|split].
  - intros -> Hband Hramp. unfold alpha. rewrite Hband. f_equal.
    by apply round_at_least_254_5.
  - intros Hr Hg Hb Htr Htg Htb Hne Heq.
    destruct (distance_is_sqrt pr pg pb targetColor) as (n & Hn & Hz & Hd); try done.
    assert (1 <= n <= 195075) as Hn1.
    { destruct (decide (n = 0)) as [Hn0|]; [|lia]. by apply Hz in Hn0. }
    pose proof (opaque_at_threshold_all n Hn1) as Hop.
    unfold opaque_at_threshold in Hop. fold d in Hd. rewrite <- Hd in Hop.
    apply andb_true_iff in Hop as [[Hle Hband]%andb_true_iff Hramp].
    apply negb_true_iff in Hband.
    rewrite <- Heq, Hle. f_equal. unfold alpha. rewrite Hband.
    by apply round_at_least_254_5.
  - intros pct Hpct -> Hr Hg Hb Htr Htg Htb. by apply distance_misses_threshold.
Qed.

(** Whatever the store, a pixel of the target colour comes back as
    transparent black. *)
Lemma removeBackground_erases_colour :
  pixels (removeBackground (mkImage 1 1 [10; 10; 10; 255]) (mkRGB 10 10 10) 10)
  = [0; 0; 0; 0].
Proof.
  unfold removeBackground. cbn [pixels].
  change (processData [10; 10; 10; 255] (mkRGB 10 10 10) 10) with [10; 10; 10; 0].
  cbn [exportData]. by rewrite !readBack_transparent.
Qed.

End Exported.

(** The closed examples are evaluated with the store [roundingStore]; the
    pixels they put are opaque or fully transparent, for which every store
    returns the same bytes. *)
#[local] Existing Instance roundingStore.

(** C4, counterexample.  At tolerance 10 the pixel (44, 3, 0) is at distance
    44.102 from black: inside the band (0.7 t, t] for t = 10/100 x 441.67 =
    44.167, where the ramp value would be 254, but beyond the threshold 44.1
    the source uses; its alpha, 255 or 128, is left untouched. *)
Lemma removeBackground_threshold_is_not_441_67 :
  (distance 44 3 0 (mkRGB 0 0 0) <=? claimedThreshold 10)%float = true
  /\ (distance 44 3 0 (mkRGB 0 0 0) <=? claimedThreshold 10 * 0.7)%float = false
  /\ rampAlpha (distance 44 3 0 (mkRGB 0 0 0)) (claimedThreshold 10) = 254
  /\ pixels (removeBackground (mkImage 1 1 [44; 3; 0; 255]) (mkRGB 0 0 0) 10)
     = [44; 3; 0; 255]
  /\ pixels (removeBackground (mkImage 1 1 [44; 3; 0; 128]) (mkRGB 0 0 0) 10) !! 3%nat
     = Some 128.
Proof. repeat split; by vm_compute. Qed.

(** C9, counterexample.  An opaque pixel of the target colour (10, 10, 10)
    is made transparent and comes back as (0, 0, 0, 0): its R, G and B
    bytes have changed.  And a transparent black pixel, target colour
    (28, 13, 0), tolerance 10: the distance 30.8707 lies in the ramp band
    (30.87, 44.1], yet the ramp value rounds to 0 and the pixel is still
    fully transparent, neither partially nor fully opaque. *)
Lemma removeBackground_changes_colour_bytes :
  pixels (removeBackground (mkImage 1 1 [10; 10; 10; 255]) (mkRGB 10 10 10) 10)
  = [0; 0; 0; 0]
  /\ (distance 0 0 0 (mkRGB 28 13 0) <=? threshold 10)%float = true
  /\ (distance 0 0 0 (mkRGB 28 13 0) <=? threshold 10 * 0.7)%float = false
  /\ pixels (removeBackground (mkImage 1 1 [0; 0; 0; 0]) (mkRGB 28 13 0) 10)
     = [0; 0; 0; 0].
Proof. repeat split; by vm_compute. Qed.

End CanvasProperties.

Section AudioProperties.
Import JS Audio Spec.

Lemma setUint8_app (a b : list Z) (i : nat) (v : Z) :
  (i < length a)%nat ->
  setUint8 (a ++ b) i v = Some (<[i := v mod 256]> a ++ b).
Proof.
  intros Hi. unfold setUint8.
  rewrite decide_True by (rewrite length_app; lia).
  by rewrite insert_app_l.
Qed.

Lemma setUint16_app (a b : list Z) (i : nat) (v : Z) :
  (i + 2 <= length a)%nat ->
  setUint16 (a ++ b) i v true
  = Some (<[S i := v mod 2 ^ 16 / 256]> (<[i := v mod 2 ^ 16 mod 256]> a) ++ b).
Proof.
  intros Hi. unfold setUint16.
  rewrite decide_True by (rewrite length_app; lia).
  by rewrite !insert_app_l by (rewrite ?length_insert; lia).
Qed.

Lemma setUint32_app (a b : list Z) (i : nat) (v : Z) :
  (i + 4 <= length a)%nat ->
  setUint32 (a ++ b) i v true
  = Some (<[S (S (S i)) := v mod 2 ^ 32 / 16777216]>
            (<[S (S i) := v mod 2 ^ 32 / 65536 mod 256]>
               (<[S i := v mod 2 ^ 32 / 256 mod 256]>
                  (<[i := v mod 2 ^ 32 mod 256]> a))) ++ b).
Proof.
  intros Hi. unfold setUint32.
  rewrite decide_True by (rewrite length_app; lia).
  by rewrite !insert_app_l by (rewrite ?length_insert; lia).
Qed.

Lemma writeString4_app (a b : list Z) (i : nat) (c0 c1 c2 c3 : Z) :
  (i + 4 <= length a)%nat ->
  writeString (a ++ b) i [c0; c1; c2; c3]
  = Some (<[S (S (S i)) := c3 mod 256]>
            (<[S (S i) := c2 mod 256]>
               (<[S i := c1 mod 256]> (<[i := c0 mod 256]> a))) ++ b).
Proof.
  intros Hi. cbn [writeString].
  rewrite setUint8_app by lia. cbn [mbind option_bind].
  rewrite setUint8_app by (rewrite ?length_insert; lia). cbn [mbind option_bind].
  rewrite setUint8_app by (rewrite ?length_insert; lia). cbn [mbind option_bind].
  rewrite setUint8_app by (rewrite ?length_insert; lia). by cbn [mbind option_bind].
Qed.

Lemma writeSamples_closed (samples : list float) (pre rest : list Z) :
  writeSamples (pre ++ replicate (length samples * 2) 0 ++ rest) (length pre) samples
  = Some (pre ++ sampleBytes samples ++ rest).
Proof.
  revert pre. induction samples as [|s samples IH]; intros pre; [done|].
  cbn [writeSamples length Nat.mul Nat.add replicate app].
  unfold setInt16, setUint16.
  rewrite decide_True by (rewrite length_app; simpl; lia).
  cbn [mbind option_bind].
  rewrite (insert_app_r_alt pre _ (length pre)) by lia.
  rewrite (insert_app_r_alt pre _ (S (length pre))) by lia.
  replace (length pre - length pre)%nat with 0%nat by lia.
  replace (S (length pre) - length pre)%nat with 1%nat by lia.
  cbn [insert list_insert].
  specialize (IH (pre ++ le16 (ToInt16 (quantize s)))).
  rewrite length_app in IH. cbn [le16 length] in IH.
  rewrite <- (assoc_L (++)) in IH. unfold le16 in IH at 1. cbn [app] in IH.
  rewrite IH. cbn [sampleBytes flat_map]. fold (sampleBytes samples).
  by rewrite <- !(assoc_L (++)).
Qed.

(** The encoder always returns, and what it returns is the header
    followed by the sample words. *)
Lemma encodeWAV_closed (samples : list float) (sampleRate : float) :
  encodeWAV samples sampleRate
  = Some (wavHeader (length samples) sampleRate ++ sampleBytes samples).
Proof.
  unfold encodeWAV.
  change (Z.to_nat (16 / 8)) with 2%nat.
  rewrite replicate_add.
  change (replicate 44 0) with
    [0;0;0;0;0;0;0;0;0;0;0;0;0;0;0;0;0;0;0;0;0;0;
     0;0;0;0;0;0;0;0;0;0;0;0;0;0;0;0;0;0;0;0;0;0].
  unfold RIFF, WAVE, fmt_, data.
  rewrite writeString4_app by (simpl; lia).
  cbn [mbind option_bind insert list_insert].
  rewrite setUint32_app by (simpl; lia).
  cbn [mbind option_bind insert list_insert].
  rewrite writeString4_app by (simpl; lia).
  cbn [mbind option_bind insert list_insert].
  rewrite writeString4_app by (simpl; lia).
  cbn [mbind option_bind insert list_insert].
  rewrite setUint32_app by (simpl; lia).
  cbn [mbind option_bind insert list_insert].
  rewrite setUint16_app by (simpl; lia).
  cbn [mbind option_bind insert list_insert].
  rewrite setUint16_app by (simpl; lia).
  cbn [mbind option_bind insert list_insert].
  rewrite setUint32_app by (simpl; lia).
  cbn [mbind option_bind insert list_insert].
  rewrite setUint32_app by (simpl; lia).
  cbn [mbind option_bind insert list_insert].
  rewrite setUint16_app by (simpl; lia).
  cbn [mbind option_bind insert list_insert].
  rewrite setUint16_app by (simpl; lia).
  cbn [mbind option_bind insert list_insert].
  rewrite writeString4_app by (simpl; lia).
  cbn [mbind option_bind insert list_insert].
  rewrite setUint32_app by (simpl; lia).
  cbn [mbind option_bind insert list_insert].
  match goal with
  | |- writeSamples (?pre ++ ?zeros) 44 samples = _ =>
      pose proof (writeSamples_closed samples pre []) as Hw;
      rewrite !app_nil_r in Hw; apply Hw
  end.
Qed.

Lemma sampleBytes_length (samples : list float) :
  length (sampleBytes samples) = (2 * length samples)%nat.
Proof.
  induction samples as [|s samples IH]; [done|].
  cbn [sampleBytes flat_map]. fold (sampleBytes samples).
  rewrite length_app, IH. simpl. lia.
Qed.

Lemma sampleBytes_word (samples : list float) (i : nat) (s : float) :
  samples !! i = Some s ->
  sampleBytes samples !! (2 * i)%nat = Some (ToInt16 (quantize s) mod 2 ^ 16 mod 256)
  /\ sampleBytes samples !! (2 * i + 1)%nat = Some (ToInt16 (quantize s) mod 2 ^ 16 / 256).
Proof.
  revert i. induction samples as [|s' samples IH]; intros i Hi; [done|].
  destruct i as [|i].
  - injection Hi as ->. done.
  - replace (2 * S i)%nat with (S (S (2 * i))) by lia.
    cbn [sampleBytes flat_map]. fold (sampleBytes samples). by apply IH.
Qed.

Lemma wrapInt16_idem (z : Z) : wrapInt16 (wrapInt16 z mod 2 ^ 16) = wrapInt16 z.
Proof.
  unfold wrapInt16. cbv zeta.
  set (m := z mod 2 ^ 16).
  assert (0 <= m < 2 ^ 16) as Hm by (apply Z.mod_pos_bound; lia).
  assert ((if 2 ^ 15 <=? m then m - 2 ^ 16 else m) mod 2 ^ 16 = m) as Hmod.
  { destruct (Z.leb_spec (2 ^ 15) m).
    - rewrite <- (Z.mod_add _ 1) by lia.
      replace (m - 2 ^ 16 + 1 * 2 ^ 16) with m by lia. apply Z.mod_small; lia.
    - apply Z.mod_small; lia. }
  rewrite Hmod. by rewrite (Z.mod_small m) by lia.
Qed.

Lemma le32_decode (v : Z) :
  v mod 2 ^ 32 mod 256 + 256 * (v mod 2 ^ 32 / 256 mod 256)
  + 65536 * (v mod 2 ^ 32 / 65536 mod 256) + 16777216 * (v mod 2 ^ 32 / 16777216)
  = v mod 2 ^ 32.
Proof.
  set (m := v mod 2 ^ 32). Z.div_mod_to_equations. lia.
Qed.

Lemma le16_decode (v : Z) :
  v mod 2 ^ 16 mod 256 + 256 * (v mod 2 ^ 16 / 256) = v mod 2 ^ 16.
Proof.
  set (m := v mod 2 ^ 16). Z.div_mod_to_equations. lia.
Qed.

(** The header fields of any encoded buffer, read back. *)
Lemma wavHeader_fields (n : nat) (sampleRate : float) (body : list Z) :
  getString (wavHeader n sampleRate ++ body) 0 4 = RIFF
  /\ getUint32 (wavHeader n sampleRate ++ body) 4
     = Some ((Z.of_nat (44 + n * 2) - 8) mod 2 ^ 32)
  /\ getString (wavHeader n sampleRate ++ body) 8 4 = WAVE
  /\ getString (wavHeader n sampleRate ++ body) 12 4 = fmt_
  /\ getUint32 (wavHeader n sampleRate ++ body) 16 = Some 16
  /\ getUint16 (wavHeader n sampleRate ++ body) 20 = Some 1
  /\ getUint16 (wavHeader n sampleRate ++ body) 22 = Some 1
  /\ getUint32 (wavHeader n sampleRate ++ body) 24 = Some (truncate sampleRate mod 2 ^ 32)
  /\ getUint32 (wavHeader n sampleRate ++ body) 28
     = Some (truncate (sampleRate * 2)%float mod 2 ^ 32)
  /\ getUint16 (wavHeader n sampleRate ++ body) 32 = Some 2
  /\ getUint16 (wavHeader n sampleRate ++ body) 34 = Some 16
  /\ getString (wavHeader n sampleRate ++ body) 36 4 = data
  /\ getUint32 (wavHeader n sampleRate ++ body) 40 = Some (Z.of_nat (n * 2) mod 2 ^ 32).
Proof.
  unfold wavHeader, RIFF, WAVE, fmt_, data, getString, getUint32, getUint16.
  unfold le32, le16.
  cbn [app lookup list_lookup take drop mbind option_bind].
  rewrite !le32_decode, !le16_decode.
  repeat split; done.
Qed.

Lemma wavHeader_length (n : nat) (sampleRate : float) :
  length (wavHeader n sampleRate) = 44%nat.
Proof. done. Qed.

(** C3 (as amended).  For a sample array of length n with 36 + 2n < 2^32
    and a supported sample rate, [encodeWAV] returns 44 + 2n bytes whose
    little-endian header fields are those of the RIFF/WAVE table; and
    [encodeWAV([], 44100)] is exactly the 44 header bytes with ChunkSize 36
    and Subchunk2Size 0. *)
Theorem encodeWAV_header (samples : list float) (sampleRate : Z) :
  sampleRate = 44100 \/ sampleRate = 22050 ->
  36 + 2 * Z.of_nat (length samples) < 2 ^ 32 ->
  (exists buf,
     encodeWAV samples (Z2F sampleRate) = Some buf
     /\ length buf = (44 + 2 * length samples)%nat
     /\ getString buf 0 4 = RIFF
     /\ getUint32 buf 4 = Some (36 + 2 * Z.of_nat (length samples))
     /\ getString buf 8 4 = WAVE
     /\ getString buf 12 4 = fmt_
     /\ getUint32 buf 16 = Some 16
     /\ getUint16 buf 20 = Some 1
     /\ getUint16 buf 22 = Some 1
     /\ getUint32 buf 24 = Some sampleRate
     /\ getUint32 buf 28 = Some (sampleRate * 2)
     /\ getUint16 buf 32 = Some 2
     /\ getUint16 buf 34 = Some 16
     /\ getString buf 36 4 = data
     /\ getUint32 buf 40 = Some (2 * Z.of_nat (length samples)))
  /\ encodeWAV [] 44100
     = Some [82; 73; 70; 70; 36; 0; 0; 0; 87; 65; 86; 69;
             102; 109; 116; 32; 16; 0; 0; 0; 1; 0; 1; 0;
             68; 172; 0; 0; 136; 88; 1; 0; 2; 0; 16; 0;
             100; 97; 116; 97; 0; 0; 0; 0].
Proof.
  intros Hrate Hsize. split; [|by vm_compute].
  exists (wavHeader (length samples) (Z2F sampleRate) ++ sampleBytes samples).
  split; [apply encodeWAV_closed|].
  split; [rewrite length_app, wavHeader_length, sampleBytes_length; lia|].
  destruct (wavHeader_fields (length samples) (Z2F sampleRate) (sampleBytes samples))
    as (H0 & H4 & H8 & H12 & H16 & H20 & H22 & H24 & H28 & H32 & H34 & H36 & H40).
  rewrite H0, H4, H8, H12, H16, H20, H22, H24, H28, H32, H34, H36, H40.
  assert (truncate (Z2F sampleRate) mod 2 ^ 32 = sampleRate
          /\ truncate (Z2F sampleRate * 2)%float mod 2 ^ 32 = sampleRate * 2)
    as [-> ->] by (destruct Hrate as [-> | ->]; by vm_compute).
  repeat split; try done; f_equal; rewrite Z.mod_small; lia.
Qed.

Lemma encodeWAV_chunk_size_modulo (samples : list float) (sampleRate : float) :
  exists buf,
    encodeWAV samples sampleRate = Some buf
    /\ getUint32 buf 4 = Some ((36 + 2 * Z.of_nat (length samples)) mod 2 ^ 32).
Proof.
  eexists. split; [apply encodeWAV_closed|].
  destruct (wavHeader_fields (length samples) sampleRate (sampleBytes samples))
    as (_ & -> & _).
  do 2 f_equal. lia.
Qed.

(** C3, counterexample.  For 2147483630 samples the data section has
    4294967260 bytes and 36 + dataSize is 2^32, which a 32-bit field cannot
    hold: the ChunkSize field at offset 4 reads 0. *)
Lemma encodeWAV_chunk_size_wraps :
  exists buf,
    encodeWAV (replicate (Z.to_nat 2147483630) 0%float) 44100 = Some buf
    /\ getUint32 buf 4 = Some 0
    /\ 36 + 2 * Z.of_nat (length (replicate (Z.to_nat 2147483630) 0%float))
       = 4294967296.
Proof.
  assert (Z.of_nat (length (replicate (Z.to_nat 2147483630) 0%float)) = 2147483630)
    as Hlen by (rewrite length_replicate; by apply Z2Nat.id).
  destruct (encodeWAV_chunk_size_modulo (replicate (Z.to_nat 2147483630) 0%float) 44100)
    as (buf & Hbuf & Hchunk).
  exists buf. split; [exact Hbuf|].
  rewrite Hchunk, Hlen. clear. split; reflexivity.
Qed.

(** C2 (as amended).  The word of sample number i is at offsets 44 + 2i
    (low byte) and 44 + 2i + 1 (high byte) and is the signed 16-bit value
    ToInt16(clamp(s, -1, 1) x (clamped s < 0 ? 32768 : 32767)): the
    fraction of the product is cut off (truncation towards zero), it is not
    rounded; 0.5 is stored as 16383.  [encodeWAV([1.0, -1.0], 44100)] is 48
    bytes long and its sample bytes are FF 7F then 00 80. *)
Theorem encodeWAV_sample_word (samples : list float) (sampleRate : float)
    (i : nat) (s : float) :
  samples !! i = Some s ->
  (exists buf,
     encodeWAV samples sampleRate = Some buf
     /\ getInt16 buf (44 + 2 * i) = Some (ToInt16 (quantize s))
     /\ buf !! (44 + 2 * i)%nat = Some (ToInt16 (quantize s) mod 2 ^ 16 mod 256)
     /\ buf !! (44 + 2 * i + 1)%nat = Some (ToInt16 (quantize s) mod 2 ^ 16 / 256))
  /\ ToInt16 (quantize s) = wrapInt16 (truncate (quantize s))
  /\ ToInt16 (quantize 0.5) = 16383
  /\ (length <$> encodeWAV [1; -1]%float 44100) = Some 48%nat
  /\ (drop 44 <$> encodeWAV [1; -1]%float 44100) = Some [255; 127; 0; 128].
Proof.
  intros Hs. split; [|split; [reflexivity|repeat split; vm_compute; reflexivity]].
  exists (wavHeader (length samples) sampleRate ++ sampleBytes samples).
  split; [apply encodeWAV_closed|].
  destruct (sampleBytes_word samples i s Hs) as [Hlo Hhi].
  assert (forall j, (wavHeader (length samples) sampleRate ++ sampleBytes samples)
                      !! (44 + j)%nat = sampleBytes samples !! j) as Hdata.
  { intros j. by rewrite lookup_app_r; rewrite wavHeader_length;
      [replace (44 + j - 44)%nat with j by lia|lia]. }
  pose proof (wrapInt16_idem (truncate (quantize s))) as Hwrap.
  fold (ToInt16 (quantize s)) in Hwrap.
  split; [|split].
  - unfold getInt16, getUint16.
    replace (S (44 + 2 * i)) with (44 + (2 * i + 1))%nat by lia.
    rewrite !Hdata, Hlo, Hhi. cbn [mbind option_bind fmap option_fmap option_map].
    by rewrite le16_decode, Hwrap.
  - by rewrite Hdata.
  - replace (44 + 2 * i + 1)%nat with (44 + (2 * i + 1))%nat by lia. by rewrite Hdata.
Qed.

(** C2, counterexample.  The sample bytes of [encodeWAV([1.0, -1.0], 44100)]
    are FF 7F 00 80, not 7F FF 00 80; and the sample 0.5, for which
    round(0.5 x 32767) = round(16383.5) is 16384, is stored as 16383. *)
Lemma encodeWAV_truncates_and_is_little_endian :
  (drop 44 <$> encodeWAV [1; -1]%float 44100) = Some [255; 127; 0; 128]
  /\ [255; 127; 0; 128] <> [127; 255; 0; 128]
  /\ claimedSample 0.5 = IInt 16384
  /\ (encodeWAV [0.5]%float 44100 ≫= fun buf => getInt16 buf 44) = Some 16383.
Proof. repeat split; by vm_compute. Qed.

End AudioProperties.

(** * Further properties of the code *)

(** ** Order of binary64 Numbers, [Math.min] and [Math.max] *)

Section FloatOrder.
Import JS.

Lemma SFcompare_swap (a b : spec_float) :
  SFcompare b a = CompOpp <$> SFcompare a b.
Proof.
  destruct a as [sa|sa| |sa ma ea], b as [sb|sb| |sb mb eb];
    try destruct sa; try destruct sb; try done; simpl.
  all: rewrite !Pos.compare_cont_spec; simpl.
  all: rewrite (Z.compare_antisym ea eb), (Pos.compare_antisym ma mb).
  all: destruct (ea ?= eb); simpl; try done.
  all: by destruct (ma ?= mb)%positive.
Qed.

Lemma SFcompare_finite_Eq (s : bool) (m : positive) (e : Z) (b : spec_float) :
  SFcompare (S754_finite s m e) b = Some Eq -> b = S754_finite s m e.
Proof.
  destruct b as [sb|sb| |sb mb eb]; try destruct s; try destruct sb; try done; simpl.
  all: rewrite Pos.compare_cont_spec; simpl.
  all: destruct (Z.compare_spec e eb); try done; subst.
  all: destruct (Pos.compare_spec m mb); try done; subst; done.
Qed.

Lemma SFcompare_refl (a : spec_float) :
  a <> S754_nan -> SFcompare a a = Some Eq.
Proof.
  destruct a as [s|s| |s m e]; try destruct s; try done; simpl; intros _.
  all: rewrite Pos.compare_cont_spec; simpl.
  all: by rewrite Z.compare_refl, Pos.compare_refl.
Qed.

Lemma ltb_asym (a b : float) : (a <? b)%float = true -> (b <? a)%float = false.
Proof.
  rewrite !ltb_spec. unfold SFltb. rewrite (SFcompare_swap (Prim2SF a) (Prim2SF b)).
  by destruct (SFcompare (Prim2SF a) (Prim2SF b)) as [[]|].
Qed.

Lemma ltb_irrefl (a : float) : (a <? a)%float = false.
Proof.
  destruct (a <? a)%float eqn:Hlt; [|done].
  by rewrite (ltb_asym _ _ Hlt) in Hlt.
Qed.

Lemma leb_not_ltb (a b : float) : (a <=? b)%float = true -> (b <? a)%float = false.
Proof.
  rewrite leb_spec, ltb_spec. unfold SFleb, SFltb.
  rewrite (SFcompare_swap (Prim2SF a) (Prim2SF b)).
  by destruct (SFcompare (Prim2SF a) (Prim2SF b)) as [[]|].
Qed.

Lemma ltb_leb (a b : float) : (a <? b)%float = true -> (a <=? b)%float = true.
Proof.
  rewrite leb_spec, ltb_spec. unfold SFleb, SFltb.
  by destruct (SFcompare (Prim2SF a) (Prim2SF b)) as [[]|].
Qed.

(** Comparable Numbers are not NaN. *)
Lemma SFcompare_nan_l (b : spec_float) : SFcompare S754_nan b = None.
Proof. done. Qed.

Lemma SFcompare_nan_r (a : spec_float) : SFcompare a S754_nan = None.
Proof. by destruct a as [[]|[]| |[] ? ?]. Qed.

Lemma is_nan_false (a : float) : Prim2SF a <> S754_nan -> is_nan a = false.
Proof.
  intros Ha. unfold is_nan. rewrite FloatAxioms.eqb_spec. unfold SFeqb.
  by rewrite SFcompare_refl.
Qed.

Lemma is_nan_true (a : float) : is_nan a = true -> a = nan.
Proof.
  unfold is_nan. rewrite FloatAxioms.eqb_spec. unfold SFeqb. intros Ha.
  apply Prim2SF_inj. change (Prim2SF nan) with S754_nan.
  destruct (Prim2SF a) as [s|s| |s m e] eqn:E; [| |done|];
    by rewrite SFcompare_refl in Ha.
Qed.

Lemma leb_not_nan (a b : float) :
  (a <=? b)%float = true -> is_nan a = false /\ is_nan b = false.
Proof.
  rewrite leb_spec. unfold SFleb. intros Hle.
  split; apply is_nan_false; intros Hnan; rewrite Hnan in Hle.
  - done.
  - by rewrite SFcompare_nan_r in Hle.
Qed.

(** Two Numbers that compare equal, one of them finite and not zero, are
    the same Number. *)
Lemma leb_antisym_finite (c x : float) (s : bool) (m : positive) (e : Z) :
  Prim2SF c = S754_finite s m e ->
  (c <=? x)%float = true -> (c <? x)%float = false -> x = c.
Proof.
  rewrite leb_spec, ltb_spec. unfold SFleb, SFltb. intros Hc Hle Hlt.
  apply Prim2SF_inj. rewrite Hc in *.
  apply SFcompare_finite_Eq.
  by destruct (SFcompare (S754_finite s m e) (Prim2SF x)) as [[]|].
Qed.

Lemma geb_antisym_finite (c x : float) (s : bool) (m : positive) (e : Z) :
  Prim2SF c = S754_finite s m e ->
  (x <=? c)%float = true -> (x <? c)%float = false -> x = c.
Proof.
  rewrite leb_spec, ltb_spec. unfold SFleb, SFltb. intros Hc Hle Hlt.
  apply Prim2SF_inj. rewrite Hc in *.
  apply SFcompare_finite_Eq.
  rewrite (SFcompare_swap (Prim2SF x) (S754_finite s m e)).
  by destruct (SFcompare (Prim2SF x) (S754_finite s m e)) as [[]|].
Qed.

Lemma SFltb_leb_trans (a b c : spec_float) :
  SFltb a b = true -> SFleb b c = true -> SFltb a c = true.
Proof.
  unfold SFleb, SFltb, SFcompare.
  destruct a as [sa|sa| |sa ma ea], b as [sb|sb| |sb mb eb], c as [sc|sc| |sc mc ec];
    try destruct sa; try destruct sb; try destruct sc; try done.
  all: rewrite ?Pos.compare_cont_spec; simpl.
  all: destruct (Z.compare_spec ea eb), (Z.compare_spec eb ec), (Z.compare_spec ea ec);
    try done; try lia; subst.
  all: destruct (Pos.compare_spec ma mb), (Pos.compare_spec mb mc), (Pos.compare_spec ma mc);
    simpl; try done; try lia.
Qed.

Lemma SFleb_ltb_trans (a b c : spec_float) :
  SFleb a b = true -> SFltb b c = true -> SFltb a c = true.
Proof.
  unfold SFleb, SFltb, SFcompare.
  destruct a as [sa|sa| |sa ma ea], b as [sb|sb| |sb mb eb], c as [sc|sc| |sc mc ec];
    try destruct sa; try destruct sb; try destruct sc; try done.
  all: rewrite ?Pos.compare_cont_spec; simpl.
  all: destruct (Z.compare_spec ea eb), (Z.compare_spec eb ec), (Z.compare_spec ea ec);
    try done; try lia; subst.
  all: destruct (Pos.compare_spec ma mb), (Pos.compare_spec mb mc), (Pos.compare_spec ma mc);
    simpl; try done; try lia.
Qed.

Lemma ltb_leb_trans (a b c : float) :
  (a <? b)%float = true -> (b <=? c)%float = true -> (a <? c)%float = true.
Proof. rewrite !ltb_spec, leb_spec. apply SFltb_leb_trans. Qed.

Lemma leb_ltb_trans (a b c : float) :
  (a <=? b)%float = true -> (b <? c)%float = true -> (a <? c)%float = true.
Proof. rewrite !ltb_spec, leb_spec. apply SFleb_ltb_trans. Qed.

(** [Math.min] is below its second argument and [Math.max] above its
    first, or NaN. *)
Lemma Math_min_not_above_r (a b : float) : (b <? Math_min a b)%float = false.
Proof.
  unfold Math_min.
  destruct (is_nan a || is_nan b).
  { rewrite ltb_spec. unfold SFltb. change (Prim2SF nan) with S754_nan.
    by rewrite SFcompare_nan_r. }
  destruct (a <? b)%float eqn:Hab; [by apply ltb_asym|].
  destruct (b <? a)%float eqn:Hba; [apply ltb_irrefl|].
  destruct (get_sign a); [done|apply ltb_irrefl].
Qed.

Lemma Math_min_at_least (c a b : float) :
  (c <=? a)%float = true -> (c <=? b)%float = true ->
  (c <=? Math_min a b)%float = true.
Proof.
  intros Ha Hb. unfold Math_min.
  destruct (leb_not_nan _ _ Ha) as [_ ->]. destruct (leb_not_nan _ _ Hb) as [_ ->].
  simpl. by repeat case_match.
Qed.

Lemma Math_min_clamps_to_finite (c x : float) (s : bool) (m : positive) (e : Z) :
  Prim2SF c = S754_finite s m e ->
  (c <=? x)%float = true -> Math_min x c = c /\ Math_min c x = c.
Proof.
  intros Hc Hle. unfold Math_min.
  destruct (leb_not_nan _ _ Hle) as [-> ->]. simpl.
  rewrite (leb_not_ltb _ _ Hle).
  destruct (c <? x)%float eqn:Hlt; [done|].
  rewrite (leb_antisym_finite c x s m e Hc Hle Hlt).
  split; by repeat case_match.
Qed.

Lemma Math_max_clamps_to_finite (c x : float) (s : bool) (m : positive) (e : Z) :
  Prim2SF c = S754_finite s m e ->
  (x <=? c)%float = true -> Math_max c x = c.
Proof.
  intros Hc Hle. unfold Math_max.
  destruct (leb_not_nan _ _ Hle) as [-> ->]. simpl.
  rewrite (leb_not_ltb _ _ Hle).
  destruct (x <? c)%float eqn:Hlt; [done|].
  by rewrite (geb_antisym_finite c x s m e Hc Hle Hlt); repeat case_match.
Qed.

End FloatOrder.

(** ** utils/geometry.ts *)

Section HandleProperties.
Import Geometry Spec.

Lemma is_finite_cases (p : float) :
  is_finite p = true ->
  (exists s, Prim2SF p = S754_zero s) \/ (exists s m e, Prim2SF p = S754_finite s m e).
Proof.
  unfold is_finite, is_nan, is_infinity.
  rewrite !FloatAxioms.eqb_spec, abs_spec. unfold SFeqb.
  change (Prim2SF infinity) with (S754_infinity false).
  destruct (Prim2SF p) as [s|s| |s m e]; try done.
  - intros _. left. by exists s.
  - by destruct s.
  - intros _. right. by exists s, m, e.
Qed.

(** A finite Number minus itself is +0. *)
Lemma sub_diag_finite (p : float) : is_finite p = true -> (p - p)%float = 0%float.
Proof.
  intros Hp. apply Prim2SF_inj. rewrite sub_spec. unfold SF64sub.
  change (Prim2SF 0) with (S754_zero false).
  destruct (is_finite_cases p Hp) as [[s ->]|(s & m & e & ->)].
  - by destruct s.
  - cbn [SFsub]. by rewrite Z.sub_diag.
Qed.

(** X1.  A pointer placed exactly on a handle of a selection with finite
    coordinates grabs a handle: [hitTestHandle] returns that handle or one
    that comes before it in the enumeration order, never nothing. *)
Theorem hitTestHandle_on_a_handle (rect : SelectionRect) (j : nat)
    (handle : ResizeHandle) (pos : Point) :
  getHandlePositions rect !! j = Some (handle, pos) ->
  is_finite (pt_x pos) = true -> is_finite (pt_y pos) = true ->
  exists (i : nat) (grabbed : ResizeHandle) (pos' : Point),
    hitTestHandle rect (pt_x pos) (pt_y pos) = Some grabbed
    /\ getHandlePositions rect !! i = Some (grabbed, pos')
    /\ (i <= j)%nat.
Proof.
  intros Hj Hx Hy.
  assert (inHitBox pos (pt_x pos) (pt_y pos) = true) as Hbox.
  { unfold inHitBox. by rewrite !sub_diag_finite. }
  pose proof (hitTestEntries_first (getHandlePositions rect) (pt_x pos) (pt_y pos))
    as Hfirst.
  unfold hitTestHandle.
  destruct (hitTestEntries (getHandlePositions rect) (pt_x pos) (pt_y pos))
    as [grabbed|].
  - destruct Hfirst as (i & pos' & Hi & _ & Hbefore).
    exists i, grabbed, pos'. split; [done|]. split; [done|].
    destruct (decide (i <= j)%nat) as [|Hlt]; [done|].
    specialize (Hbefore j (handle, pos) ltac:(lia) Hj). simpl in Hbefore. congruence.
  - specialize (Hfirst j (handle, pos) Hj). simpl in Hfirst. congruence.
Qed.

End HandleProperties.

(** ** utils/canvas.ts *)

Section RasterProperties.
Import JS Canvas Spec Thresholds SampleOrder.
Context {store : CanvasStore}.

Lemma toLong_Some (n : integral) (z : Z) :
  toLong n = Some z -> n = IInt z /\ - 2 ^ 31 <= z < 2 ^ 31.
Proof.
  destruct n as [|negative|z']; simpl; try done.
  destruct (Z.leb_spec (- 2 ^ 31) z'); [|done].
  destruct (Z.ltb_spec z' (2 ^ 31)); [|done].
  by intros [= <-].
Qed.

Lemma getPixelColor_inside (image : Image)
    (canvasX canvasY scale offsetX offsetY : float) (c : RGBColor) :
  getPixelColor image canvasX canvasY scale offsetX offsetY = Returns (Some c) ->
  exists x y,
    Math_round ((canvasX - offsetX) / scale)%float = IInt x
    /\ Math_round ((canvasY - offsetY) / scale)%float = IInt y
    /\ 0 <= x < naturalWidth image /\ 0 <= y < naturalHeight image
    /\ c = colourAt image x y.
Proof.
  unfold getPixelColor. cbv zeta.
  set (imgX := Math_round ((canvasX - offsetX) / scale)%float).
  set (imgY := Math_round ((canvasY - offsetY) / scale)%float).
  destruct (isNegative imgX) eqn:HnX; [done|].
  destruct (isNegative imgY) eqn:HnY; [done|].
  destruct (atLeast imgX (naturalWidth image)) eqn:HaX; [done|].
  destruct (atLeast imgY (naturalHeight image)) eqn:HaY; [done|].
  cbn [orb].
  destruct (toLong imgX) as [x|] eqn:Hx; [|done].
  destruct (toLong imgY) as [y|] eqn:Hy; [|done].
  intros [= <-]. exists x, y.
  apply toLong_Some in Hx as [Hx _]. apply toLong_Some in Hy as [Hy _].
  rewrite Hx in HnX, HaX. rewrite Hy in HnY, HaY. simpl in *.
  apply Z.ltb_ge in HnX, HnY. apply Z.leb_gt in HaX, HaY. done.
Qed.

Lemma getPixelColor_throws (image : Image)
    (canvasX canvasY scale offsetX offsetY : float) :
  naturalWidth image <= 2 ^ 31 -> naturalHeight image <= 2 ^ 31 ->
  getPixelColor image canvasX canvasY scale offsetX offsetY = Throws ->
  Math_round ((canvasX - offsetX) / scale)%float = INaN
  \/ Math_round ((canvasY - offsetY) / scale)%float = INaN.
Proof.
  intros Hw Hh. unfold getPixelColor. cbv zeta.
  set (imgX := Math_round ((canvasX - offsetX) / scale)%float).
  set (imgY := Math_round ((canvasY - offsetY) / scale)%float).
  destruct (isNegative imgX) eqn:HnX; [done|].
  destruct (isNegative imgY) eqn:HnY; [done|].
  destruct (atLeast imgX (naturalWidth image)) eqn:HaX; [done|].
  destruct (atLeast imgY (naturalHeight image)) eqn:HaY; [done|].
  cbn [orb]. intros Hthrow.
  destruct imgX as [|negX|x]; [by left|by destruct negX|].
  destruct imgY as [|negY|y]; [by right|by destruct negY|].
  exfalso. simpl in HnX, HnY, HaX, HaY.
  apply Z.ltb_ge in HnX, HnY. apply Z.leb_gt in HaX, HaY.
  revert Hthrow. unfold toLong.
  destruct (Z.leb_spec (- 2 ^ 31) x); [|lia].
  destruct (Z.ltb_spec x (2 ^ 31)); [|lia].
  destruct (Z.leb_spec (- 2 ^ 31) y); [|lia].
  destruct (Z.ltb_spec y (2 ^ 31)); [|lia].
  done.
Qed.

(** X2.  A colour returned by [getPixelColor] is the colour of the image
    pixel at the rounded source coordinate, which is a whole number inside
    the image.  When both rounded coordinates are NaN the call throws: the
    comparisons let NaN through and [getImageData] refuses it.  On an
    image of at most 2^31 pixels a side it throws only when a rounded
    coordinate is NaN. *)
Theorem getPixelColor_reads_image_pixel (image : Image)
    (canvasX canvasY scale offsetX offsetY : float) :
  (forall c : RGBColor,
     getPixelColor image canvasX canvasY scale offsetX offsetY = Returns (Some c) ->
     exists x y,
       Math_round ((canvasX - offsetX) / scale)%float = IInt x
       /\ Math_round ((canvasY - offsetY) / scale)%float = IInt y
       /\ 0 <= x < naturalWidth image /\ 0 <= y < naturalHeight image
       /\ c = colourAt image x y)
  /\ (Math_round ((canvasX - offsetX) / scale)%float = INaN ->
      Math_round ((canvasY - offsetY) / scale)%float = INaN ->
      getPixelColor image canvasX canvasY scale offsetX offsetY = Throws)
  /\ (naturalWidth image <= 2 ^ 31 -> naturalHeight image <= 2 ^ 31 ->
      getPixelColor image canvasX canvasY scale offsetX offsetY = Throws ->
      Math_round ((canvasX - offsetX) / scale)%float = INaN
      \/ Math_round ((canvasY - offsetY) / scale)%float = INaN).
Proof.
  split; [intros c; apply getPixelColor_inside|].
  split; [|apply getPixelColor_throws].
  intros Hx Hy. unfold getPixelColor. cbv zeta. by rewrite Hx, Hy.
Qed.

Lemma round_div_mul (n a : Z) : 0 < n -> round_div (n * a) n = a.
Proof.
  intros Hn. unfold round_div. symmetry.
  apply (Z.div_unique _ _ a n); lia.
Qed.

Lemma round_div_byte (s n : Z) :
  0 < n -> 0 <= s <= 255 * n -> isByte (round_div s n).
Proof.
  intros Hn Hs. unfold round_div, isByte. split.
  - apply Z.div_pos; lia.
  - apply Z.lt_succ_r, Z.div_lt_upper_bound; lia.
Qed.

Lemma channelSum_const (channel : RGBColor -> Z) (colors : list RGBColor) (c : RGBColor) :
  Forall (fun c' => c' = c) colors ->
  channelSum channel colors = Z.of_nat (length colors) * channel c.
Proof.
  unfold channelSum. induction 1 as [|c' colors -> _ IH]; [done|].
  cbn [foldr length]. rewrite IH. lia.
Qed.

Lemma channelSum_bytes (channel : RGBColor -> Z) (colors : list RGBColor) :
  Forall (fun c => isByte (channel c)) colors ->
  0 <= channelSum channel colors <= 255 * Z.of_nat (length colors).
Proof.
  unfold channelSum, isByte. induction 1 as [|c colors Hc _ IH]; [done|].
  cbn [foldr length]. lia.
Qed.

(** What [detectBackgroundColor] returns: the rounded average of a
    non-empty list of edge samples. *)
Lemma detectBackgroundColor_average (image : Image) :
  1 <= naturalWidth image -> 1 <= naturalHeight image ->
  exists ms : list RGBColor,
    ms <> [] /\ Forall (onEdge image) ms
    /\ detectBackgroundColor image
       = Some (mkRGB (average r ms) (average g ms) (average b ms)).
Proof.
  intros Hw Hh.
  destruct (sampleEdges_spec image Hw Hh) as (colors & Hsample & Hedge & Hlen).
  assert (colors <> []) as Hne.
  { intros ->. simpl in Hlen.
    pose proof (ceilDiv_pos (naturalWidth image)
                  (stride (naturalWidth image) (naturalHeight image)) Hw
                  ltac:(unfold stride; lia)).
    pose proof (ceilDiv_nonneg (naturalHeight image)
                  (stride (naturalWidth image) (naturalHeight image)) ltac:(lia)
                  ltac:(unfold stride; lia)).
    lia. }
  destruct (pickBest_most_populous colors Hne) as (key & Hm & _ & Hbest).
  exists (members key colors). split; [done|]. split.
  { unfold members. apply Forall_forall. intros c [_ Hc]%list_elem_of_filter.
    by apply (proj1 (Forall_forall _ _) Hedge). }
  unfold detectBackgroundColor. rewrite Hsample. simpl. rewrite Hbest.
  unfold summary at 1. cbn [count].
  destruct (Z.eqb_spec (Z.of_nat (length (members key colors))) 0) as [Hz|_]; [|done].
  destruct (members key colors); [done|simpl in Hz; lia].
Qed.

(** X3.  When every pixel on the four edges of the image has the same
    colour, [detectBackgroundColor] returns exactly that colour. *)
Theorem detectBackgroundColor_uniform_border (image : Image) (c : RGBColor) :
  1 <= naturalWidth image -> 1 <= naturalHeight image ->
  (forall x y,
     0 <= x < naturalWidth image -> 0 <= y < naturalHeight image ->
     x = 0 \/ x = naturalWidth image - 1 \/ y = 0 \/ y = naturalHeight image - 1 ->
     colourAt image x y = c) ->
  detectBackgroundColor image = Some c.
Proof.
  intros Hw Hh Hborder.
  destruct (detectBackgroundColor_average image Hw Hh) as (ms & Hne & Hedge & ->).
  assert (Forall (fun c' => c' = c) ms) as Hall.
  { eapply Forall_impl; [exact Hedge|].
    intros c' (x & y & Hx & Hy & Hon & ->). by apply Hborder. }
  assert (0 < Z.of_nat (length ms)) as Hlen by (destruct ms; [done|simpl; lia]).
  unfold average. rewrite !(channelSum_const _ ms c Hall), !round_div_mul by done.
  by destruct c.
Qed.

Lemma getImageData1_byte (image : Image) (cx cy k : Z) :
  Forall isByte (pixels image) -> isByte (getImageData1 image cx cy k).
Proof.
  intros Hbytes. unfold getImageData1.
  destruct (_ && _); [|by unfold isByte].
  destruct (pixels image !! _) as [v|] eqn:Hv; simpl; [|by unfold isByte].
  by apply (Forall_lookup_1 _ _ _ _ Hbytes Hv).
Qed.

(** X4.  On an image whose buffer holds bytes, the colour
    [detectBackgroundColor] returns has its three channels in 0..255. *)
Theorem detectBackgroundColor_channels_are_bytes (image : Image) :
  1 <= naturalWidth image -> 1 <= naturalHeight image ->
  Forall isByte (pixels image) ->
  exists c,
    detectBackgroundColor image = Some c
    /\ isByte (r c) /\ isByte (g c) /\ isByte (b c).
Proof.
  intros Hw Hh Hbytes.
  destruct (detectBackgroundColor_average image Hw Hh) as (ms & Hne & Hedge & ->).
  assert (0 < Z.of_nat (length ms)) as Hlen by (destruct ms; [done|simpl; lia]).
  assert (forall channel : RGBColor -> Z,
            (forall x y, isByte (channel (colourAt image x y))) ->
            isByte (average channel ms)) as Havg.
  { intros channel Hch. apply round_div_byte; [done|].
    apply channelSum_bytes. eapply Forall_impl; [exact Hedge|].
    intros c (x & y & _ & _ & _ & ->). apply Hch. }
  eexists. split; [done|]. cbn [r g b].
  repeat split; apply Havg; intros x y; by apply getImageData1_byte.
Qed.

Lemma edgeLoop_ext (body1 body2 : list RGBColor -> Z -> list RGBColor)
    (fuel : nat) (i limit step : Z) (colors : list RGBColor) :
  (forall cs j, 0 <= j < limit -> body1 cs j = body2 cs j) ->
  0 <= i -> 0 <= step ->
  edgeLoop fuel i limit step body1 colors = edgeLoop fuel i limit step body2 colors.
Proof.
  intros Hbody. revert i colors.
  induction fuel as [|fuel IH]; intros i colors Hi Hstep; simpl;
    destruct (Z.ltb_spec i limit); try done.
  rewrite Hbody by lia. apply IH; lia.
Qed.

Lemma addSample_agree (image1 image2 : Image) (colors : list RGBColor) (x y : Z) :
  naturalWidth image1 = naturalWidth image2 ->
  naturalHeight image1 = naturalHeight image2 ->
  (forall x y,
     0 <= x < naturalWidth image1 -> 0 <= y < naturalHeight image1 ->
     x = 0 \/ x = naturalWidth image1 - 1 \/ y = 0 \/ y = naturalHeight image1 - 1 ->
     colourAt image1 x y = colourAt image2 x y) ->
  x = 0 \/ x = naturalWidth image1 - 1 \/ y = 0 \/ y = naturalHeight image1 - 1 ->
  addSample image1 colors x y = addSample image2 colors x y.
Proof.
  intros Hw Hh Hedge Hxy. rewrite !addSample_colour, <- Hw, <- Hh. do 2 f_equal.
  set (cx := Z.max 0 (Z.min (naturalWidth image1 - 1) x)).
  set (cy := Z.max 0 (Z.min (naturalHeight image1 - 1) y)).
  destruct (decide (0 <= cx < naturalWidth image1 /\ 0 <= cy < naturalHeight image1))
    as [[Hcx Hcy]|Hout].
  - apply Hedge; [done|done|lia].
  - unfold colourAt, getImageData1. rewrite <- Hw, <- Hh.
    assert ((0 <=? cx) && (cx <? naturalWidth image1)
            && (0 <=? cy) && (cy <? naturalHeight image1) = false) as ->; [|done].
    apply not_true_is_false. rewrite !andb_true_iff.
    intros [[[?%Z.leb_le ?%Z.ltb_lt] ?%Z.leb_le] ?%Z.ltb_lt]. apply Hout. lia.
Qed.

(** X5.  [detectBackgroundColor] looks at edge pixels only: two images
    of the same size whose pixels on the four edges have the same colours
    give the same result, whatever their interiors and alpha values. *)
Theorem detectBackgroundColor_ignores_interior (image1 image2 : Image) :
  naturalWidth image1 = naturalWidth image2 ->
  naturalHeight image1 = naturalHeight image2 ->
  (forall x y,
     0 <= x < naturalWidth image1 -> 0 <= y < naturalHeight image1 ->
     x = 0 \/ x = naturalWidth image1 - 1 \/ y = 0 \/ y = naturalHeight image1 - 1 ->
     colourAt image1 x y = colourAt image2 x y) ->
  detectBackgroundColor image1 = detectBackgroundColor image2.
Proof.
  intros Hw Hh Hedge.
  assert (sampleEdges image1 = sampleEdges image2) as Hsame;
    [|unfold detectBackgroundColor; by rewrite Hsame].
  unfold sampleEdges. cbv zeta. rewrite <- Hw, <- Hh.
  set (w := naturalWidth image1) in *. set (h := naturalHeight image1) in *.
  set (step := Z.max 1 ((w + h) * 2 / Z.min 200 ((w + h) * 2))).
  assert (0 <= step) as Hstep by (unfold step; lia).
  rewrite (edgeLoop_ext
             (fun colors i => addSample image1 (addSample image1 colors i 0) i (h - 1))
             (fun colors i => addSample image2 (addSample image2 colors i 0) i (h - 1)));
    [|intros cs j Hj; cbv beta|lia|done].
  - destruct (edgeLoop _ _ _ _ _ _) as [colors|]; [|done]. simpl.
    apply edgeLoop_ext; [|lia|done].
    intros cs j Hj. cbv beta.
    rewrite (addSample_agree image1 image2 cs 0 j Hw Hh Hedge) by by left.
    apply addSample_agree; try done. right. by left.
  - rewrite (addSample_agree image1 image2 cs j 0 Hw Hh Hedge) by (right; right; by left).
    apply addSample_agree; try done. right. right. by right.
Qed.

Lemma before_snoc (key key' : Key) (colors : list RGBColor) (c : RGBColor) :
  before key key' colors -> before key key' (colors ++ [c]).
Proof.
  intros (i & c0 & Hi & Hkey & Hbefore).
  pose proof (lookup_lt_Some _ _ _ Hi) as Hlt.
  exists i, c0. split; [by rewrite lookup_app_l|]. split; [done|].
  intros j c' Hj. rewrite lookup_app_l by lia. by apply Hbefore.
Qed.

Lemma members_nonempty (key : Key) (colors : list RGBColor) :
  members key colors <> [] ->
  exists (i : nat) (c : RGBColor), colors !! i = Some c /\ keyOf c = key.
Proof.
  intros Hne. destruct (members key colors) as [|c ms] eqn:Hm; [done|].
  assert (c ∈ members key colors) as Hc by (rewrite Hm; left).
  apply list_elem_of_filter in Hc as [Hkey Hin].
  apply list_elem_of_lookup in Hin as [i Hi]. by exists i, c.
Qed.

Lemma members_empty (key : Key) (colors : list RGBColor) (j : nat) (c : RGBColor) :
  members key colors = [] -> colors !! j = Some c -> keyOf c <> key.
Proof.
  intros Hm Hj Hkey.
  assert (c ∈ members key colors) as Hc.
  { apply list_elem_of_filter. split; [done|]. by apply list_elem_of_lookup_2 in Hj. }
  rewrite Hm in Hc. by apply elem_of_nil in Hc.
Qed.

Lemma counted_key (colors : list RGBColor) (buckets : list (Key * Bucket)) (key : Key) :
  counted colors buckets -> key ∈ buckets.*1 <-> members key colors <> [].
Proof.
  intros [Hnd Hget]. specialize (Hget key). split.
  - intros ([key0 b] & -> & Hin)%list_elem_of_fmap. simpl in *.
    apply map_get_elem in Hin; [|done]. rewrite Hin in Hget. by case_decide.
  - intros Hne. rewrite decide_False in Hget by done.
    apply map_get_elem in Hget; [|done].
    apply list_elem_of_fmap. by exists (key, summary key colors).
Qed.

(** The keys of the map are in the order in which their buckets were
    first hit. *)
Lemma fillBuckets_ordered (colors : list RGBColor) :
  forall (p q : nat) (kp kq : Key),
    (p < q)%nat ->
    (fillBuckets colors).*1 !! p = Some kp ->
    (fillBuckets colors).*1 !! q = Some kq ->
    before kp kq colors.
Proof.
  unfold fillBuckets.
  assert (forall todo done_ buckets,
            counted done_ buckets ->
            (forall p q kp kq, (p < q)%nat ->
               buckets.*1 !! p = Some kp -> buckets.*1 !! q = Some kq ->
               before kp kq done_) ->
            forall p q kp kq, (p < q)%nat ->
              (fold_left addToBucket todo buckets).*1 !! p = Some kp ->
              (fold_left addToBucket todo buckets).*1 !! q = Some kq ->
              before kp kq (done_ ++ todo)) as Hgen.
  { induction todo as [|c todo IH]; intros done_ buckets Hcounted Hord; simpl.
    - rewrite app_nil_r. exact Hord.
    - rewrite (assoc_L _ done_ [c] todo : done_ ++ c :: todo = (done_ ++ [c]) ++ todo).
      apply IH; [by apply addToBucket_counted|].
      intros p q kp kq Hpq. unfold addToBucket. rewrite map_set_keys.
      pose proof (counted_key done_ buckets (keyOf c) Hcounted) as Hin.
      destruct (decide (keyOf c ∈ buckets.*1)) as [Hold|Hnew].
      + intros Hp Hq. apply before_snoc. by apply (Hord p q).
      + intros Hp Hq.
        pose proof (lookup_lt_Some _ _ _ Hq) as Hqlt.
        rewrite length_app in Hqlt. simpl in Hqlt.
        rewrite lookup_app_l in Hp by lia.
        destruct (decide (q < length buckets.*1)%nat) as [Hqold|Hqlast].
        * rewrite lookup_app_l in Hq by done.
          apply before_snoc. by apply (Hord p q).
        * rewrite lookup_app_r in Hq by lia.
          replace (q - length buckets.*1)%nat with 0%nat in Hq by lia.
          injection Hq as <-.
          assert (members (keyOf c) done_ = []) as Hnone.
          { destruct (decide (members (keyOf c) done_ = [])) as [|Hne]; [done|].
            by apply Hin in Hne. }
          apply list_elem_of_lookup_2 in Hp.
          apply (counted_key done_ buckets kp Hcounted) in Hp.
          destruct (members_nonempty kp done_ Hp) as (i & c0 & Hi & Hkey).
          pose proof (lookup_lt_Some _ _ _ Hi) as Hilt.
          exists i, c0. split; [by rewrite lookup_app_l|]. split; [done|].
          intros j c' Hj. rewrite lookup_app_l by lia.
          by apply members_empty. }
  intros p q kp kq Hpq. apply (Hgen colors [] []); try done.
  split; [apply NoDup_nil_2|done].
Qed.

(** The scan keeps the first bucket that reaches the largest count. *)
Lemma pickBest_first (buckets : list (Key * Bucket)) (init : Bucket) :
  let best := fold_left (fun bestBucket kv =>
                           if count bestBucket <? count (snd kv) then snd kv
                           else bestBucket) buckets init in
  (best = init /\ forall kv, kv ∈ buckets -> count (snd kv) <= count init)
  \/ exists (p : nat) (key : Key),
       buckets !! p = Some (key, best)
       /\ count init < count best
       /\ forall (q : nat) (kv : Key * Bucket),
            (q < p)%nat -> buckets !! q = Some kv -> count (snd kv) < count best.
Proof.
  revert init. induction buckets as [|[k v] rest IH]; intros init; simpl.
  { left. split; [done|]. by intros kv ?%elem_of_nil. }
  destruct (Z.ltb_spec (count init) (count v)) as [Hlt|Hge].
  - right. destruct (IH v) as [[Hbest Hall]|(p & key & Hp & Hgt & Hbefore)].
    + exists 0%nat, k. rewrite Hbest. split; [done|]. split; [done|].
      intros q kv Hq. lia.
    + exists (S p), key. split; [done|]. split; [lia|].
      intros [|q] kv Hq Hkv; simpl in Hkv.
      * by injection Hkv as <-.
      * apply (Hbefore q); [lia|done].
  - destruct (IH init) as [[Hbest Hall]|(p & key & Hp & Hgt & Hbefore)].
    + left. split; [done|].
      intros kv [->|Hin]%elem_of_cons; [done|by apply Hall].
    + right. exists (S p), key. split; [done|]. split; [done|].
      intros [|q] kv Hq Hkv; simpl in Hkv.
      * injection Hkv as <-. simpl. lia.
      * apply (Hbefore q); [lia|done].
Qed.

(** X6.  Ties between buckets are broken by the order of the samples:
    [detectBackgroundColor] returns the rounded average of a bucket that no
    other bucket outnumbers, and every other bucket with as many samples was
    first hit later in the sampling order (top and bottom rows from the
    left, then left and right columns from the top). *)
Theorem detectBackgroundColor_tie_break (image : Image) :
  1 <= naturalWidth image -> 1 <= naturalHeight image ->
  exists (colors : list RGBColor) (key : Key),
    sampleEdges image = Some colors
    /\ members key colors <> []
    /\ detectBackgroundColor image
       = Some (mkRGB (average r (members key colors))
                     (average g (members key colors))
                     (average b (members key colors)))
    /\ forall key',
         (length (members key' colors) <= length (members key colors))%nat
         /\ (key' <> key ->
             length (members key' colors) = length (members key colors) ->
             before key key' colors).
Proof.
  intros Hw Hh.
  destruct (sampleEdges_spec image Hw Hh) as (colors & Hsample & _ & Hlen).
  assert (colors <> []) as Hne.
  { intros ->. simpl in Hlen.
    pose proof (ceilDiv_pos (naturalWidth image)
                  (stride (naturalWidth image) (naturalHeight image)) Hw
                  ltac:(unfold stride; lia)).
    pose proof (ceilDiv_nonneg (naturalHeight image)
                  (stride (naturalWidth image) (naturalHeight image)) ltac:(lia)
                  ltac:(unfold stride; lia)).
    lia. }
  pose proof (fillBuckets_counted colors) as Hcounted.
  pose proof Hcounted as [Hnd Hget].
  assert (forall key b (p : nat), fillBuckets colors !! p = Some (key, b) ->
            members key colors <> [] /\ b = summary key colors) as Hentry.
  { intros key b p Hp. apply list_elem_of_lookup_2 in Hp.
    apply map_get_elem in Hp; [|done]. rewrite Hget in Hp.
    case_decide; [done|]. by injection Hp as <-. }
  destruct (pickBest_fold (fillBuckets colors) (mkBucket 0 255 255 255))
    as (_ & Hmax & _).
  destruct (pickBest_first (fillBuckets colors) (mkBucket 0 255 255 255))
    as [[_ Hall]|(p & key & Hp & _ & Hbefore)].
  { exfalso. destruct colors as [|c colors]; [done|].
    assert (members (keyOf c) (c :: colors) <> []) as Hm
      by (unfold members; by rewrite filter_cons_True).
    specialize (Hget (keyOf c)). rewrite decide_False in Hget by done.
    apply map_get_elem in Hget; [|done]. apply Hall in Hget. simpl in Hget.
    destruct (members (keyOf c) (c :: colors)); [done|simpl in Hget; lia]. }
  fold (pickBest (fillBuckets colors)) in Hp, Hbefore, Hmax.
  destruct (Hentry key _ p Hp) as [Hm Hbest].
  exists colors, key. split; [done|]. split; [done|]. split.
  { unfold detectBackgroundColor. rewrite Hsample. simpl. rewrite Hbest.
    unfold summary at 1. cbn [count].
    destruct (Z.eqb_spec (Z.of_nat (length (members key colors))) 0) as [Hz|_]; [|done].
    destruct (members key colors); [done|simpl in Hz; lia]. }
  intros key'.
  destruct (decide (members key' colors = [])) as [Hm'|Hm'].
  { rewrite Hm'. split; [simpl; lia|].
    intros _ Hlen0. destruct (members key colors); [done|discriminate]. }
  pose proof (Hget key') as Hget'. rewrite decide_False in Hget' by done.
  apply map_get_elem in Hget'; [|done].
  pose proof (Hmax _ Hget') as Hle. rewrite Hbest in Hle. simpl in Hle.
  split; [lia|]. intros Hkey Hsame.
  apply list_elem_of_lookup in Hget' as [q Hq].
  destruct (decide (q < p)%nat) as [Hqp|Hqp].
  { specialize (Hbefore q _ Hqp Hq). rewrite Hbest in Hbefore. simpl in Hbefore. lia. }
  destruct (decide (q = p)) as [->|Hne'].
  { rewrite Hp in Hq. by injection Hq as -> _. }
  apply (fillBuckets_ordered colors p q); [lia| |].
  - by rewrite list_lookup_fmap, Hp.
  - by rewrite list_lookup_fmap, Hq.
Qed.

Lemma ToUint8Clamp_byte (n : integral) : isByte (ToUint8Clamp n).
Proof. unfold isByte. destruct n as [|[]|z]; simpl; lia. Qed.

Lemma processPixel_byte (pr pg pb pa : Z) (targetColor : RGBColor) (tolerance : float) :
  isByte pa -> isByte (processPixel pr pg pb pa targetColor tolerance).
Proof.
  intros Hpa. unfold processPixel, alpha. cbv zeta.
  destruct (_ <=? _)%float; [|done].
  destruct (_ <=? _)%float; [by unfold isByte|apply ToUint8Clamp_byte].
Qed.

Lemma processData_bytes (data : list Z) (targetColor : RGBColor) (tolerance : float) :
  Forall isByte data -> Forall isByte (processData data targetColor tolerance).
Proof.
  remember (length data) as n eqn:Hn.
  revert data Hn. induction (lt_wf n) as [n _ IH]. intros data -> Hbytes.
  destruct data as [|pr [|pg [|pb [|pa rest]]]]; try done.
  cbn [processData].
  apply Forall_cons in Hbytes as [Hr Hbytes].
  apply Forall_cons in Hbytes as [Hg Hbytes].
  apply Forall_cons in Hbytes as [Hb Hbytes].
  apply Forall_cons in Hbytes as [Ha Hbytes].
  repeat (apply Forall_cons; split; [done|]).
  apply Forall_cons; split; [by apply processPixel_byte|].
  apply (IH (length rest)); [simpl; lia|done|done].
Qed.

Lemma exportData_bytes (data : list Z) :
  Forall isByte data -> Forall isByte (exportData data).
Proof.
  remember (length data) as n eqn:Hn.
  revert data Hn. induction (lt_wf n) as [n _ IH]. intros data -> Hbytes.
  destruct data as [|pr [|pg [|pb [|pa rest]]]]; try done.
  cbn [exportData].
  apply Forall_cons in Hbytes as [Hr Hbytes].
  apply Forall_cons in Hbytes as [Hg Hbytes].
  apply Forall_cons in Hbytes as [Hb Hbytes].
  apply Forall_cons in Hbytes as [Ha Hbytes].
  repeat (apply Forall_cons; split; [apply readBack_byte|]).
  apply Forall_cons; split; [done|].
  apply (IH (length rest)); [simpl; lia|done|done].
Qed.

(** X7.  [removeBackground] maps a buffer of bytes to a buffer of bytes:
    every alpha value it writes lies in 0..255, and so does every colour
    byte of the exported image. *)
Theorem removeBackground_keeps_bytes (image : Image) (targetColor : RGBColor)
    (tolerance : float) :
  Forall isByte (pixels image) ->
  Forall isByte (pixels (removeBackground image targetColor tolerance)).
Proof.
  intros Hbytes. unfold removeBackground. cbn [pixels].
  by apply exportData_bytes, processData_bytes.
Qed.

Lemma root_positive_all (n : Z) : 1 <= n <= 195075 -> root_positive n = true.
Proof.
  intros Hn.
  apply (forall_range_spec (Z.to_nat 195075) 1); [by vm_compute | lia].
Qed.

Lemma threshold_not_negative_all (pct : Z) :
  0 <= pct <= 100 -> threshold_not_negative pct = true.
Proof.
  intros Hpct.
  apply (forall_range_spec 101 0); [by vm_compute | lia].
Qed.

(** X8.  For a whole-number tolerance from 0 to 100, a pixel whose colour
    is the target colour is made fully transparent whatever its alpha was;
    at tolerance 0 those are the only pixels touched: every other pixel
    keeps its alpha. *)
Theorem removeBackground_exact_match (image : Image) (targetColor : RGBColor)
    (pct : Z) (k : nat) (pr pg pb pa : Z) :
  0 <= pct <= 100 ->
  pixels image !! (4 * k)%nat = Some pr ->
  pixels image !! (4 * k + 1)%nat = Some pg ->
  pixels image !! (4 * k + 2)%nat = Some pb ->
  pixels image !! (4 * k + 3)%nat = Some pa ->
  (mkRGB pr pg pb = targetColor ->
   pixels (removeBackground image targetColor (Z2F pct)) !! (4 * k + 3)%nat = Some 0)
  /\ (isByte pr -> isByte pg -> isByte pb ->
      isByte (r targetColor) -> isByte (g targetColor) -> isByte (b targetColor) ->
      mkRGB pr pg pb <> targetColor ->
      pixels (removeBackground image targetColor 0) !! (4 * k + 3)%nat = Some pa).
Proof.
  intros Hpct H0 H1 H2 H3. split.
  - intros <-.
    rewrite (removeBackground_alpha _ _ _ _ _ _ _ _ H0 H1 H2 H3). f_equal.
    unfold processPixel, alpha, distance. cbn [r g b].
    rewrite !Z.sub_diag.
    change (PrimFloat.sqrt (Z2F (0 ^ 2 + 0 ^ 2 + 0 ^ 2))) with 0%float.
    pose proof (threshold_not_negative_all pct Hpct) as Ht.
    unfold threshold_not_negative in Ht. cbv zeta in Ht.
    apply andb_true_iff in Ht as [-> ->]. done.
  - intros Hr Hg Hb Htr Htg Htb Hne.
    rewrite (removeBackground_alpha _ _ _ _ _ _ _ _ H0 H1 H2 H3). f_equal.
    destruct (distance_is_sqrt pr pg pb targetColor) as (n & Hn & Hz & Hd); try done.
    assert (1 <= n <= 195075) as Hn1.
    { destruct (decide (n = 0)) as [Hn0|]; [|lia]. by apply Hz in Hn0. }
    pose proof (root_positive_all n Hn1) as Hpos.
    unfold root_positive in Hpos. apply negb_true_iff in Hpos.
    unfold processPixel. rewrite Hd.
    change (threshold 0) with 0%float. by rewrite Hpos.
Qed.

End RasterProperties.

(** ** utils/audio.ts *)

Section EncoderProperties.
Import JS Audio Spec.

Lemma le16_bytes (v : Z) : Forall isByte (le16 v).
Proof.
  unfold le16, isByte. change (2 ^ 16) with 65536.
  repeat apply Forall_cons_2; [| |apply Forall_nil_2];
    Z.div_mod_to_equations; lia.
Qed.

Lemma le32_bytes (v : Z) : Forall isByte (le32 v).
Proof.
  unfold le32, isByte. change (2 ^ 32) with 4294967296.
  repeat apply Forall_cons_2; [| | | |apply Forall_nil_2];
    Z.div_mod_to_equations; lia.
Qed.

Lemma wavHeader_bytes (n : nat) (sampleRate : float) :
  Forall isByte (wavHeader n sampleRate).
Proof.
  unfold wavHeader.
  repeat (apply Forall_app; split);
    try apply le16_bytes; try apply le32_bytes;
    by repeat apply Forall_cons_2; try apply Forall_nil_2.
Qed.

Lemma sampleBytes_bytes (samples : list float) : Forall isByte (sampleBytes samples).
Proof.
  induction samples as [|s samples IH]; [apply Forall_nil_2|].
  cbn [sampleBytes flat_map]. apply Forall_app. split; [apply le16_bytes|done].
Qed.

(** X9.  [encodeWAV] never throws: for every sample array and every
    sample rate (NaN and infinities included) it returns a buffer of
    44 + 2n bytes, each in 0..255. *)
Theorem encodeWAV_never_fails (samples : list float) (sampleRate : float) :
  exists buf,
    encodeWAV samples sampleRate = Some buf
    /\ length buf = (44 + 2 * length samples)%nat
    /\ Forall isByte buf.
Proof.
  exists (wavHeader (length samples) sampleRate ++ sampleBytes samples).
  split; [apply encodeWAV_closed|].
  split; [rewrite length_app, wavHeader_length, sampleBytes_length; lia|].
  apply Forall_app; split; [apply wavHeader_bytes|apply sampleBytes_bytes].
Qed.

(** X10.  The 44 header bytes depend only on the number of samples and on
    the sample rate, and the bytes after them only on the samples; the data
    of two sample arrays joined is the data of the first followed by the
    data of the second. *)
Theorem encodeWAV_header_and_data_are_separate
    (samples samples' : list float) (sampleRate sampleRate' : float) :
  (length samples' = length samples ->
   take 44 <$> encodeWAV samples' sampleRate = take 44 <$> encodeWAV samples sampleRate)
  /\ drop 44 <$> encodeWAV samples sampleRate' = drop 44 <$> encodeWAV samples sampleRate
  /\ drop 44 <$> encodeWAV (samples ++ samples') sampleRate
     = (drop 44 <$> encodeWAV samples sampleRate)
       ≫= fun first => (drop 44 <$> encodeWAV samples' sampleRate)
       ≫= fun second => Some (first ++ second).
Proof.
  rewrite !encodeWAV_closed.
  cbn [fmap option_fmap option_map mbind option_bind].
  assert (forall n rate body, drop 44 (wavHeader n rate ++ body) = body) as Hdrop
    by reflexivity.
  assert (forall n rate body, take 44 (wavHeader n rate ++ body) = wavHeader n rate)
    as Htake by reflexivity.
  rewrite !Hdrop, !Htake. repeat split.
  - by intros ->.
  - f_equal. unfold sampleBytes. apply flat_map_app.
Qed.

Lemma encodeWAV_getInt16 (samples : list float) (sampleRate : float)
    (i : nat) (s : float) :
  samples !! i = Some s ->
  exists buf,
    encodeWAV samples sampleRate = Some buf
    /\ getInt16 buf (44 + 2 * i) = Some (ToInt16 (quantize s)).
Proof.
  intros Hs.
  exists (wavHeader (length samples) sampleRate ++ sampleBytes samples).
  split; [apply encodeWAV_closed|].
  destruct (sampleBytes_word samples i s Hs) as [Hlo Hhi].
  unfold getInt16, getUint16.
  replace (S (44 + 2 * i)) with (44 + (2 * i + 1))%nat by lia.
  rewrite !lookup_app_r by (rewrite wavHeader_length; lia).
  rewrite wavHeader_length.
  replace (44 + 2 * i - 44)%nat with (2 * i)%nat by lia.
  replace (44 + (2 * i + 1) - 44)%nat with (2 * i + 1)%nat by lia.
  rewrite Hlo, Hhi. cbn [mbind option_bind fmap option_fmap option_map].
  rewrite le16_decode. f_equal. apply wrapInt16_idem.
Qed.

Lemma quantize_above (s : float) : (1 <=? s)%float = true -> quantize s = 32767%float.
Proof.
  intros Hs. unfold quantize.
  destruct (Math_min_clamps_to_finite 1 s false 4503599627370496 (-52) eq_refl Hs)
    as [_ ->].
  reflexivity.
Qed.

Lemma quantize_below (s : float) : (s <=? -1)%float = true -> quantize s = (-32768)%float.
Proof.
  intros Hs. unfold quantize.
  assert (Math_min 1 s = s) as ->.
  { unfold Math_min.
    destruct (leb_not_nan _ _ Hs) as [-> _]. simpl.
    destruct (1 <? s)%float eqn:Hgt.
    - by pose proof (ltb_leb_trans _ _ _ Hgt Hs).
    - by rewrite (leb_ltb_trans s (-1) 1 Hs eq_refl). }
  rewrite (Math_max_clamps_to_finite (-1) s true 4503599627370496 (-52) eq_refl Hs).
  reflexivity.
Qed.

(** X11.  Samples outside [-1, 1] are clipped, not wrapped: a sample of 1
    or more (+Infinity included) is stored as 32767, a sample of -1 or less
    as -32768, and a NaN sample as 0. *)
Theorem encodeWAV_clips (samples : list float) (sampleRate : float)
    (i : nat) (s : float) :
  samples !! i = Some s ->
  exists buf,
    encodeWAV samples sampleRate = Some buf
    /\ ((1 <=? s)%float = true -> getInt16 buf (44 + 2 * i) = Some 32767)
    /\ ((s <=? -1)%float = true -> getInt16 buf (44 + 2 * i) = Some (-32768))
    /\ (is_nan s = true -> getInt16 buf (44 + 2 * i) = Some 0).
Proof.
  intros Hs.
  destruct (encodeWAV_getInt16 samples sampleRate i s Hs) as (buf & Hbuf & Hword).
  exists buf. rewrite Hword. split; [done|]. repeat split.
  - by intros ->%quantize_above.
  - by intros ->%quantize_below.
  - by intros ->%is_nan_true.
Qed.

End EncoderProperties.

Section FormatProperties.
Import Format.

(** X12.  [formatFileSize] prints a size below 1024 as the byte count, a
    size below 1024 * 1024 in KB and any other in MB, with one decimal that
    is within 0.05 of the exact quotient and at least 1.0.  The KB figure
    is not kept below 1024: from 1048525 bytes up to 1048575 bytes the text
    is "1024.0 KB". *)
Theorem formatFileSize_units (bytes : Z) :
  (bytes < 1024 -> formatFileSize bytes = (pretty bytes +:+ " B")%string)
  /\ (1024 <= bytes < 1048576 ->
      exists n,
        formatFileSize bytes = (toFixed1 n +:+ " KB")%string
        /\ 10 <= n <= 10240
        /\ -512 < 1024 * n - 10 * bytes <= 512
        /\ (n = 10240 <-> 1048525 <= bytes))
  /\ (1048525 <= bytes < 1048576 -> formatFileSize bytes = "1024.0 KB"%string)
  /\ (1048576 <= bytes ->
      exists n,
        formatFileSize bytes = (toFixed1 n +:+ " MB")%string
        /\ 10 <= n
        /\ -524288 < 1048576 * n - 10 * bytes <= 524288).
Proof.
  unfold formatFileSize. change (1024 * 1024) with 1048576.
  assert (1024 <= bytes < 1048576 ->
          10 <= tenths bytes 1024 <= 10240
          /\ -512 < 1024 * tenths bytes 1024 - 10 * bytes <= 512
          /\ (tenths bytes 1024 = 10240 <-> 1048525 <= bytes)) as Hkb.
  { intros Hb. unfold tenths. change (1024 / 2) with 512.
    Z.div_mod_to_equations. lia. }
  repeat split.
  - intros Hb. by destruct (Z.ltb_spec bytes 1024); [|lia].
  - intros Hb. exists (tenths bytes 1024).
    destruct (Z.ltb_spec bytes 1024); [lia|].
    destruct (Z.ltb_spec bytes 1048576); [|lia].
    split; [done|]. by apply Hkb.
  - intros Hb.
    destruct (Z.ltb_spec bytes 1024); [lia|].
    destruct (Z.ltb_spec bytes 1048576); [|lia].
    destruct Hkb as (_ & _ & Hmax); [lia|].
    by rewrite (proj2 Hmax) by lia.
  - intros Hb. exists (tenths bytes 1048576).
    destruct (Z.ltb_spec bytes 1024); [lia|].
    destruct (Z.ltb_spec bytes 1048576); [lia|].
    split; [done|]. unfold tenths. change (1048576 / 2) with 524288.
    Z.div_mod_to_equations. lia.
Qed.

End FormatProperties.

(** ** components/ImageEditor.tsx *)

Section SessionProperties.
Import JS Geometry Canvas Editor Session Spec.

Context {store : CanvasStore}.
Variable floodFill : Image -> float -> float -> RGBColor -> float -> Image.
Variable flipHorizontal : Image -> Image.
Variable cropImage : Image -> SelectionRect -> float -> float -> float -> Image.
Variable resizeImage : Image -> float -> float -> Image.

(** Case analysis on every [if] and [match] of a handler. *)
Ltac handler_cases :=
  cbv zeta beta;
  repeat match goal with
         | |- context [match ?x with _ => _ end] => destruct x eqn:?
         end.

Ltac unfold_handlers :=
  unfold step, loadCompletes, handleResize, handleKeyDown, handleCancel,
    handleEnterResize, handleApplyResize,
    handleAutoDetect, handlePickColor, handleExitResize, handleApplyRemoveBg,
    handleExitRemoveBg, handleEnterRemoveBg, handleClearSelection,
    handleUseAsSource, handleUseCropped, handleUseResized, handleUseProcessed,
    handleEnterFill, handleExitFill, handleFlip, handleCrop, handleMouseDown,
    handleMouseMove, handleMouseUp, handleUndo, handleRedo, pushUndo,
    imageLoaded, onload, computeLayout.

Lemma step_countersAgree (m : State * ResizeForm) (ev : Event) :
  countersAgree (fst m) ->
  countersAgree (fst (step floodFill flipHorizontal cropImage resizeImage m ev)).
Proof.
  destruct m as [st form]. cbn [fst]. intros Hst. unfold countersAgree in *.
  destruct ev; unfold_handlers; handler_cases; done.
Qed.

(** X13.  The counters that enable the Undo and Redo buttons equal the
    lengths of the undo and redo stacks when the editor is mounted, and
    after every sequence of events. *)
Theorem history_counters_track_stacks :
  (forall container canvasRect, countersAgree (initial container canvasRect))
  /\ (forall (events : list Event) (m : State * ResizeForm),
        countersAgree (fst m) ->
        countersAgree
          (fst (run floodFill flipHorizontal cropImage resizeImage events m))).
Proof.
  split; [done|].
  intros events. induction events as [|ev events IH]; intros m Hm; [done|].
  apply IH. by apply step_countersAgree.
Qed.

Lemma step_gestureRefsSet (m : State * ResizeForm) (ev : Event) :
  gestureRefsSet (fst m) ->
  gestureRefsSet (fst (step floodFill flipHorizontal cropImage resizeImage m ev)).
Proof.
  destruct m as [st form]. cbn [fst]. intros Hst. unfold gestureRefsSet in *.
  destruct ev; unfold_handlers; handler_cases; cbn in *; try done;
    repeat match goal with
           | H : interactionMode _ = _ |- _ => rewrite H in *
           end; try done;
    try (by destruct Hst as [[? ?] _]); by destruct Hst as [_ [? ?]].
Qed.

(** X14.  When the editor is mounted and after every sequence of events:
    in idle mode no gesture ref is left set, in moving mode the start
    rectangle is set, and in resizing mode both the start rectangle and
    the active handle are set. *)
Theorem gesture_refs_follow_mode :
  (forall container canvasRect, gestureRefsSet (initial container canvasRect))
  /\ (forall (events : list Event) (m : State * ResizeForm),
        gestureRefsSet (fst m) ->
        gestureRefsSet
          (fst (run floodFill flipHorizontal cropImage resizeImage events m))).
Proof.
  split; [done|].
  intros events. induction events as [|ev events IH]; intros m Hm; [done|].
  apply IH. by apply step_gestureRefsSet.
Qed.

(** X15.  No pointer, key, click, form or window-resize event replaces the
    working image: it changes only when the browser has decoded an image,
    the source or a pending result, and then to that image. *)
Theorem working_image_changes_only_on_decode (m : State * ResizeForm) (ev : Event) :
  match ev with
  | SourceDecoded img =>
      imageRef (fst (step floodFill flipHorizontal cropImage resizeImage m ev))
      = Some img
  | LoadCompletes k =>
      imageRef (fst (step floodFill flipHorizontal cropImage resizeImage m ev))
      = match loading (fst m) !! k with
        | Some (img, _) => Some img
        | None => imageRef (fst m)
        end
  | _ =>
      imageRef (fst (step floodFill flipHorizontal cropImage resizeImage m ev))
      = imageRef (fst m)
  end.
Proof.
  destruct m as [st form]. cbn [fst].
  destruct ev; unfold_handlers; handler_cases; done.
Qed.

(** X16.  A drag on the canvas in the default mode (pointer down, one
    move, pointer up).  Grabbing a handle resizes the selection by the
    pointer displacement; pressing inside the selection moves it and keeps
    its size; anything else draws a new selection, which is normalised and
    is dropped when its width or height is below 5.  Resized and moved
    rectangles are kept as they are, whatever their size or sign.  The
    editor is idle afterwards. *)
Theorem drag_gesture (st : State) (down move_ : MouseEvent) :
  showingResult st = false -> resizeMode st = false ->
  fillMode st = false -> removeBgMode st = false ->
  let p0 := getCanvasCoords st down in
  let p1 := getCanvasCoords st move_ in
  let dx := (pt_x p1 - pt_x p0)%float in
  let dy := (pt_y p1 - pt_y p0)%float in
  let drawn :=
    let n := normalizeRect (mkRect (pt_x p0) (pt_y p0) dx dy) in
    if (width n <? 5)%float || (height n <? 5)%float then None else Some n in
  let st' := handleMouseUp (handleMouseMove (handleMouseDown floodFill st down) move_) in
  interactionMode st' = idle
  /\ selectionStart st' = None
  /\ activeHandle st' = None
  /\ selection st'
     = match selection st with
       | None => drawn
       | Some sel =>
           match hitTestHandle sel (pt_x p0) (pt_y p0) with
           | Some handle => Some (applyResize sel handle dx dy)
           | None =>
               if hitTestSelection sel (pt_x p0) (pt_y p0)
               then let n := normalizeRect sel in
                    Some (mkRect (x n + dx) (y n + dy) (width n) (height n))
               else drawn
           end
       end.
Proof.
  intros Hres Hrz Hfill Hbg p0 p1 dx dy drawn st'.
  split; [done|]. split; [done|]. split; [done|].
  subst st'. unfold showingResult in Hres.
  unfold handleMouseDown, showingResult. rewrite Hres, Hrz, Hfill, Hbg.
  cbn [andb]. cbv zeta beta. fold p0.
  change (selection (set_dragStart p0 st)) with (selection st).
  destruct (selection st) as [sel|] eqn:Hsel;
    [destruct (hitTestHandle sel (pt_x p0) (pt_y p0)) as [handle|] eqn:Hhandle;
     [|destruct (hitTestSelection sel (pt_x p0) (pt_y p0)) eqn:Hinside]|].
  all: unfold handleMouseMove, handleMouseUp, showingResult.
  all: cbn -[hitTestHandle hitTestSelection normalizeRect applyResize getCanvasCoords].
  all: rewrite Hres, Hrz, Hfill, Hbg.
  all: cbn -[hitTestHandle hitTestSelection normalizeRect applyResize getCanvasCoords].
  all: repeat match goal with
              | |- context [getCanvasCoords (?f ?v ?s) ?e] =>
                  change (getCanvasCoords (f v s) e) with p1
              end.
  all: fold dx dy.
  - f_equal. unfold applyResize. by rewrite normalizeRect_idempotent.
  - done.
  - subst drawn. cbv zeta.
    match goal with |- context [if ?c then _ else _] => destruct c end; reflexivity.
  - subst drawn. cbv zeta.
    match goal with |- context [if ?c then _ else _] => destruct c end; reflexivity.
Qed.

(** X17.  In the default mode with no gesture in progress, the cursor
    shown over a point announces what a pointer-down at that point starts:
    a resize cursor means resizing with the handle of that cursor, the move
    cursor means moving the selection, and the crosshair means drawing a
    new selection. *)
Theorem hover_cursor_announces_gesture (st : State) (e : MouseEvent) :
  showingResult st = false -> resizeMode st = false ->
  fillMode st = false -> removeBgMode st = false ->
  interactionMode st = idle ->
  match cursorStyle (handleMouseMove st e) with
  | resizeCursor c =>
      interactionMode (handleMouseDown floodFill st e) = resizing
      /\ exists handle,
           activeHandle (handleMouseDown floodFill st e) = Some handle
           /\ c = getResizeCursor handle
  | move => interactionMode (handleMouseDown floodFill st e) = moving
  | crosshair => interactionMode (handleMouseDown floodFill st e) = drawing
  end.
Proof.
  intros Hres Hrz Hfill Hbg Hidle.
  unfold handleMouseMove, handleMouseDown.
  rewrite Hres, Hrz, Hfill, Hbg, Hidle. cbn [andb]. cbv zeta beta.
  change (selection (set_dragStart (getCanvasCoords st e) st)) with (selection st).
  destruct (selection st) as [sel|]; [|done].
  destruct (hitTestHandle sel _ _) as [handle|]; [by split; [|exists handle]|].
  by destruct (hitTestSelection sel _ _).
Qed.

Lemma undo_then_load (st : State) (img prev : Image) (older : list Image) :
  imageRef st = Some img -> loading st = [] -> undoStack st = older ++ [prev] ->
  imageRef (runLoads (handleUndo st)) = Some prev
  /\ undoStack (runLoads (handleUndo st)) = older
  /\ redoStack (runLoads (handleUndo st)) = redoStack st ++ [img]
  /\ loading (runLoads (handleUndo st)) = [].
Proof.
  intros Himg Hload Hundo. unfold handleUndo.
  rewrite Hundo, reverse_snoc, Himg, Hload. unfold runLoads. cbn.
  rewrite reverse_involutive.
  unfold computeLayout. cbn. by destruct (container st).
Qed.

Lemma redo_then_load (st : State) (img next : Image) (older : list Image) :
  imageRef st = Some img -> loading st = [] -> redoStack st = older ++ [next] ->
  imageRef (runLoads (handleRedo st)) = Some next
  /\ undoStack (runLoads (handleRedo st)) = undoStack st ++ [img]
  /\ redoStack (runLoads (handleRedo st)) = older
  /\ loading (runLoads (handleRedo st)) = [].
Proof.
  intros Himg Hload Hredo. unfold handleRedo.
  rewrite Hredo, reverse_snoc, Himg, Hload. unfold runLoads. cbn.
  rewrite reverse_involutive.
  unfold computeLayout. cbn. by destruct (container st).
Qed.

Lemma snoc_cases {A : Type} (l : list A) :
  l <> [] -> exists older x, l = older ++ [x].
Proof.
  destruct l as [|x l] using rev_ind; [done|]. intros _. by exists l, x.
Qed.

(** X18.  Undo followed by redo, and redo followed by undo, each with its
    image load completed, bring back the working image and both stacks;
    undo installs the snapshot that was last pushed. *)
Theorem undo_redo_round_trip (st : State) (img : Image) :
  imageRef st = Some img -> loading st = [] ->
  (undoStack st <> [] ->
   imageRef (runLoads (handleUndo st)) = last (undoStack st)
   /\ imageRef (runLoads (handleRedo (runLoads (handleUndo st)))) = Some img
   /\ undoStack (runLoads (handleRedo (runLoads (handleUndo st)))) = undoStack st
   /\ redoStack (runLoads (handleRedo (runLoads (handleUndo st)))) = redoStack st)
  /\ (redoStack st <> [] ->
      imageRef (runLoads (handleRedo st)) = last (redoStack st)
      /\ imageRef (runLoads (handleUndo (runLoads (handleRedo st)))) = Some img
      /\ undoStack (runLoads (handleUndo (runLoads (handleRedo st)))) = undoStack st
      /\ redoStack (runLoads (handleUndo (runLoads (handleRedo st)))) = redoStack st).
Proof.
  intros Himg Hload. split.
  - intros (older & prev & Hundo)%snoc_cases.
    destruct (undo_then_load st img prev older Himg Hload Hundo)
      as (Himg1 & Hundo1 & Hredo1 & Hload1).
    destruct (redo_then_load _ prev img (redoStack st) Himg1 Hload1 Hredo1)
      as (Himg2 & Hundo2 & Hredo2 & _).
    rewrite Himg1, Himg2, Hundo2, Hredo2, Hundo1, Hundo, last_snoc. done.
  - intros (older & next & Hredo)%snoc_cases.
    destruct (redo_then_load st img next older Himg Hload Hredo)
      as (Himg1 & Hundo1 & Hredo1 & Hload1).
    destruct (undo_then_load _ next img (undoStack st) Himg1 Hload1 Hundo1)
      as (Himg2 & Hundo2 & Hredo2 & _).
    rewrite Himg1, Himg2, Hundo2, Hredo2, Hredo1, Hredo, last_snoc. done.
Qed.



Lemma flip_then_load (st : State) (img : Image) :
  imageRef st = Some img -> loading st = [] ->
  imageRef (runLoads (handleFlip flipHorizontal st)) = Some (flipHorizontal img)
  /\ undoStack (runLoads (handleFlip flipHorizontal st)) = undoStack st ++ [img]
  /\ redoStack (runLoads (handleFlip flipHorizontal st)) = []
  /\ loading (runLoads (handleFlip flipHorizontal st)) = [].
Proof.
  intros Himg Hload. unfold handleFlip, pushUndo. rewrite Himg. cbn.
  rewrite Hload. unfold runLoads. cbn.
  unfold computeLayout. cbn. by destruct (container st).
Qed.

Lemma fill_then_load (st : State) (e : MouseEvent) (img : Image) :
  showingResult st = false -> resizeMode st = false -> fillMode st = true ->
  imageRef st = Some img -> loading st = [] ->
  outsideImage img (sourcePixel st e) = false ->
  let filled := floodFill img (pt_x (sourcePixel st e)) (pt_y (sourcePixel st e))
                  (fillColor st) (fillTolerance st) in
  imageRef (runLoads (handleMouseDown floodFill st e)) = Some filled
  /\ undoStack (runLoads (handleMouseDown floodFill st e)) = undoStack st ++ [img]
  /\ redoStack (runLoads (handleMouseDown floodFill st e)) = []
  /\ loading (runLoads (handleMouseDown floodFill st e)) = [].
Proof.
  intros Hres Hrz Hfill Himg Hload Hin.
  unfold handleMouseDown. rewrite Hres, Hrz, Hfill, Himg.
  unfold outsideImage, sourcePixel in Hin. cbn [pt_x pt_y] in Hin.
  cbv zeta. rewrite Hin. unfold pushUndo. cbn. rewrite Himg. cbn.
  rewrite Hload. unfold runLoads. cbn.
  unfold computeLayout. cbn. by destruct (container st).
Qed.

(** X20.  After a flip, or a fill inside the image, the redo stack is
    empty, and one undo brings back the image as it was before the edit,
    restores the undo stack and leaves the edited image as the only redo
    entry. *)
Theorem undo_restores_image_before_edit (st : State) (img : Image) :
  imageRef st = Some img -> loading st = [] ->
  (let st1 := runLoads (handleFlip flipHorizontal st) in
   imageRef st1 = Some (flipHorizontal img)
   /\ redoStack st1 = []
   /\ imageRef (runLoads (handleUndo st1)) = Some img
   /\ undoStack (runLoads (handleUndo st1)) = undoStack st
   /\ redoStack (runLoads (handleUndo st1)) = [flipHorizontal img])
  /\ (forall e : MouseEvent,
        showingResult st = false -> resizeMode st = false -> fillMode st = true ->
        outsideImage img (sourcePixel st e) = false ->
        let filled := floodFill img (pt_x (sourcePixel st e)) (pt_y (sourcePixel st e))
                        (fillColor st) (fillTolerance st) in
        let st1 := runLoads (handleMouseDown floodFill st e) in
        imageRef st1 = Some filled
        /\ redoStack st1 = []
        /\ imageRef (runLoads (handleUndo st1)) = Some img
        /\ undoStack (runLoads (handleUndo st1)) = undoStack st
        /\ redoStack (runLoads (handleUndo st1)) = [filled]).
Proof.
  intros Himg Hload. split.
  - cbv zeta.
    destruct (flip_then_load st img Himg Hload) as (Himg1 & Hundo1 & Hredo1 & Hload1).
    destruct (undo_then_load _ _ img (undoStack st) Himg1 Hload1 Hundo1)
      as (Himg2 & Hundo2 & Hredo2 & _).
    by rewrite Himg1, Hredo1, Himg2, Hundo2, Hredo2, Hredo1.
  - intros e Hres Hrz Hfill Hin. cbv zeta.
    destruct (fill_then_load st e img Hres Hrz Hfill Himg Hload Hin)
      as (Himg1 & Hundo1 & Hredo1 & Hload1).
    destruct (undo_then_load _ _ img (undoStack st) Himg1 Hload1 Hundo1)
      as (Himg2 & Hundo2 & Hredo2 & _).
    by rewrite Himg1, Hredo1, Himg2, Hundo2, Hredo2, Hredo1.
Qed.

(** X21.  Picking the background colour: in picking mode a pointer-down
    for which [getPixelColor] returns a colour stores that colour, the
    colour of the image pixel under the pointer, and ends picking; a
    pointer-down that [getPixelColor] rejects changes nothing, and picking
    stays on.  Nor is anything changed by a pointer-down on which
    [getPixelColor] throws: the exception leaves the handler before a
    setter is called; on an image of at most 2^31 pixels a side that
    happens only when a rounded source coordinate is NaN. *)
Theorem pick_colour_click (st : State) (e : MouseEvent) (img : Image) :
  showingResult st = false -> resizeMode st = false -> fillMode st = false ->
  removeBgMode st = true -> pickingColor st = true ->
  imageRef st = Some img ->
  naturalWidth img <= 2 ^ 31 -> naturalHeight img <= 2 ^ 31 ->
  let pos := getCanvasCoords st e in
  let l := imageLayout st in
  match getPixelColor img (pt_x pos) (pt_y pos) (scale l) (offsetX l) (offsetY l) with
  | Returns (Some color) =>
      handleMouseDown floodFill st e = set_pickingColor false (set_bgColor (Some color) st)
      /\ exists x y,
           0 <= x < naturalWidth img /\ 0 <= y < naturalHeight img
           /\ color = colourAt img x y
  | Returns None => handleMouseDown floodFill st e = st
  | Throws =>
      handleMouseDown floodFill st e = st
      /\ (Math_round ((pt_x pos - offsetX l) / scale l)%float = INaN
          \/ Math_round ((pt_y pos - offsetY l) / scale l)%float = INaN)
  end.
Proof.
  intros Hres Hrz Hfill Hbg Hpick Himg Hw Hh pos l.
  unfold handleMouseDown. rewrite Hres, Hrz, Hfill, Hbg, Hpick, Himg.
  cbn [andb]. cbv zeta. fold pos l.
  destruct (getPixelColor img (pt_x pos) (pt_y pos) (scale l) (offsetX l) (offsetY l))
    as [[color|]|] eqn:Hcolor; [|done|].
  - split; [done|].
    destruct (getPixelColor_inside _ _ _ _ _ _ _ Hcolor) as (x & y & _ & _ & Hx & Hy & Hc).
    by exists x, y.
  - split; [done|]. by apply (getPixelColor_throws img _ _ _ _ _ Hw Hh).
Qed.

(** X22.  [computeLayout] never enlarges the image: the scale it stores
    is not above 1 (or is NaN), and it is exactly 1 when the container is at
    least as wide and as high as the image.  The canvas takes the size of the
    container. *)
Theorem computeLayout_never_enlarges (img : Image) (st : State) (c : Size) :
  container st = Some c ->
  let scaleX := (size_width c / Z2F (naturalWidth img))%float in
  let scaleY := (size_height c / Z2F (naturalHeight img))%float in
  canvasSize (computeLayout img st) = c
  /\ (1 <? scale (imageLayout (computeLayout img st)))%float = false
  /\ ((1 <=? scaleX)%float = true -> (1 <=? scaleY)%float = true ->
      scale (imageLayout (computeLayout img st)) = 1%float).
Proof.
  intros Hc scaleX scaleY. unfold computeLayout. rewrite Hc. cbn.
  fold scaleX scaleY.
  split; [by destruct c|]. split; [apply Math_min_not_above_r|].
  intros Hx Hy.
  by apply (Math_min_clamps_to_finite 1 _ false 4503599627370496 (-52) eq_refl),
    Math_min_at_least.
Qed.

Lemma enter_remove_bg (st : State) (img : Image) (color : RGBColor) :
  imageRef st = Some img ->
  detectBackgroundColor img = Some color ->
  handleEnterRemoveBg st
  = set_bgColor (Some color)
      (set_processedImage None (set_croppedImage None
         (set_selection None (set_removeBgMode true st)))).
Proof.
  intros Himg Hcolor.
  unfold handleEnterRemoveBg. cbv zeta.
  change (imageRef (set_processedImage None (set_croppedImage None
            (set_selection None (set_removeBgMode true st)))))
    with (imageRef st).
  by rewrite Himg, Hcolor.
Qed.

Lemma apply_remove_bg (st : State) (img : Image) (color : RGBColor) :
  imageRef st = Some img -> bgColor st = Some color ->
  handleApplyRemoveBg st
  = set_processedImage (Some (removeBackground img color (tolerance st))) st.
Proof.
  intros Himg Hcolor. unfold handleApplyRemoveBg. by rewrite Himg, Hcolor.
Qed.

Lemma enter_then_apply (st : State) (img : Image) (color : RGBColor) :
  imageRef st = Some img ->
  detectBackgroundColor img = Some color ->
  handleApplyRemoveBg (handleEnterRemoveBg st)
  = set_processedImage (Some (removeBackground img color (tolerance st)))
      (set_bgColor (Some color)
         (set_processedImage None (set_croppedImage None
            (set_selection None (set_removeBgMode true st))))).
Proof.
  intros Himg Hcolor.
  rewrite (enter_remove_bg st img color Himg Hcolor).
  rewrite (apply_remove_bg _ img color); [reflexivity|exact Himg|reflexivity].
Qed.

Lemma use_processed_then_load (st : State) (result : Image) :
  loading st = [] -> resizeMode st = false ->
  croppedImage st = None -> processedImage st = Some result ->
  imageRef (runLoads (handleUseAsSource st)) = Some result
  /\ removeBgMode (runLoads (handleUseAsSource st)) = false
  /\ bgColor (runLoads (handleUseAsSource st)) = None
  /\ showingResult (runLoads (handleUseAsSource st)) = false
  /\ undoStack (runLoads (handleUseAsSource st)) = undoStack st.
Proof.
  intros Hload Hrz Hc Hp.
  unfold handleUseAsSource, handleUseProcessed. rewrite Hc, Hrz, Hp. cbn.
  rewrite Hload. unfold runLoads, showingResult. cbn.
  unfold computeLayout. cbn. destruct (container st); cbn; by rewrite Hc.
Qed.


Lemma cancel_result (st : State) :
  imageRef (handleCancel st) = imageRef st
  /\ selection (handleCancel st) = None
  /\ showingResult (handleCancel st) = false
  /\ (resizeMode st = false -> is_Some (processedImage st) ->
      removeBgMode (handleCancel st) = false /\ bgColor (handleCancel st) = None).
Proof.
  unfold handleCancel, handleClearSelection, handleExitResize, handleExitRemoveBg,
    showingResult, computeLayout.
  destruct (resizeMode st) eqn:Hrz; cbn.
  - destruct (imageRef st) eqn:Himg; cbn; [destruct (container st)|]; cbn;
      by repeat split.
  - destruct (processedImage st) eqn:Hp; cbn.
    + destruct (imageRef st) eqn:Himg; cbn; [destruct (container st)|]; cbn;
        by repeat split.
    + by repeat split; try intros _ [? ?].
Qed.

(** X23.  Removing the background with the detected colour: entering the
    mode, Apply and "Use as Source" leave, once the result is decoded, the
    working image equal to [removeBackground] of the old one with the
    detected colour and the current tolerance, and the editor back in the
    default mode with no result shown.  Cancel instead of "Use as Source"
    also leaves the mode, with the working image untouched. *)
Theorem remove_background_flow (st : State) (img : Image) (color : RGBColor) :
  imageRef st = Some img -> loading st = [] -> resizeMode st = false ->
  detectBackgroundColor img = Some color ->
  let applied := handleApplyRemoveBg (handleEnterRemoveBg st) in
  let used := runLoads (handleUseAsSource applied) in
  let cancelled := handleCancel applied in
  processedImage applied = Some (removeBackground img color (tolerance st))
  /\ toolbar applied = ResultButtons
  /\ imageRef used = Some (removeBackground img color (tolerance st))
  /\ removeBgMode used = false /\ bgColor used = None
  /\ showingResult used = false
  /\ undoStack used = undoStack st
  /\ imageRef cancelled = Some img
  /\ removeBgMode cancelled = false /\ bgColor cancelled = None
  /\ showingResult cancelled = false.
Proof.
  intros Himg Hload Hrz Hcolor. cbv zeta.
  rewrite (enter_then_apply st img color Himg Hcolor).
  generalize (removeBackground img color (tolerance st)). intros result.
  set (applied := set_processedImage (Some result) _).
  destruct (use_processed_then_load applied result Hload Hrz eq_refl eq_refl)
    as (-> & -> & -> & -> & ->).
  destruct (cancel_result applied) as (-> & _ & -> & Hmode).
  destruct (Hmode Hrz ltac:(by eexists)) as [-> ->].
  by repeat split.
Qed.


Lemma use_resized_then_load (st : State) (result : Image) :
  loading st = [] -> resizeMode st = true ->
  croppedImage st = None -> processedImage st = Some result ->
  imageRef (runLoads (handleUseAsSource st)) = Some result
  /\ resizeMode (runLoads (handleUseAsSource st)) = false
  /\ showingResult (runLoads (handleUseAsSource st)) = false
  /\ undoStack (runLoads (handleUseAsSource st)) = undoStack st.
Proof.
  intros Hload Hrz Hc Hp.
  unfold handleUseAsSource, handleUseResized. rewrite Hc, Hrz, Hp. cbn.
  rewrite Hload. unfold runLoads, showingResult. cbn.
  unfold computeLayout. cbn. destruct (container st); cbn; by rewrite Hc.
Qed.

Lemma cancel_resized (st : State) :
  resizeMode st = true ->
  imageRef (handleCancel st) = imageRef st
  /\ resizeMode (handleCancel st) = false
  /\ showingResult (handleCancel st) = false.
Proof.
  intros Hrz.
  unfold handleCancel, handleClearSelection, handleExitResize, showingResult,
    computeLayout.
  rewrite Hrz. cbn.
  destruct (imageRef st) eqn:Himg; cbn; [destruct (container st)|]; cbn;
    by repeat split.
Qed.

Lemma enter_resize (st : State) (form : ResizeForm) (img : Image) :
  imageRef st = Some img ->
  handleEnterResize st form
  = (set_processedImage None (set_croppedImage None
       (set_selection None (set_resizeMode true st))),
     mkResizeForm (Z2F (naturalWidth img)) (Z2F (naturalHeight img)) true
       (Z2F (naturalWidth img) / Z2F (naturalHeight img))).
Proof. intros Himg. unfold handleEnterResize. by rewrite Himg. Qed.

Lemma apply_resize (st : State) (form : ResizeForm) (img : Image) :
  imageRef st = Some img ->
  (resizeWidth form <? 1)%float = false -> (resizeHeight form <? 1)%float = false ->
  handleApplyResize resizeImage st form
  = set_processedImage
      (Some (resizeImage img (resizeWidth form) (resizeHeight form))) st.
Proof.
  intros Himg Hw Hh. unfold handleApplyResize. by rewrite Himg, Hw, Hh.
Qed.

(** X25.  Resizing: entering the mode fills the form with the natural size
    of the working image, the lock on; Apply with the form untouched shows
    [resizeImage] of the working image at that size; "Use as Source" makes
    it the working image and leaves the mode, with the undo stack
    unchanged; Cancel instead also leaves the mode and keeps the working
    image. *)
Theorem resize_flow (st : State) (form : ResizeForm) (img : Image) :
  imageRef st = Some img -> loading st = [] ->
  (Z2F (naturalWidth img) <? 1)%float = false ->
  (Z2F (naturalHeight img) <? 1)%float = false ->
  let entered := handleEnterResize st form in
  let resized := resizeImage img (Z2F (naturalWidth img)) (Z2F (naturalHeight img)) in
  let shown := handleApplyResize resizeImage (fst entered) (snd entered) in
  let used := runLoads (handleUseAsSource shown) in
  let cancelled := handleCancel shown in
  snd entered
  = mkResizeForm (Z2F (naturalWidth img)) (Z2F (naturalHeight img)) true
      (Z2F (naturalWidth img) / Z2F (naturalHeight img))
  /\ processedImage shown = Some resized
  /\ toolbar shown = ResultButtons
  /\ imageRef used = Some resized
  /\ resizeMode used = false
  /\ showingResult used = false
  /\ undoStack used = undoStack st
  /\ imageRef cancelled = Some img
  /\ resizeMode cancelled = false
  /\ showingResult cancelled = false.
Proof.
  intros Himg Hload Hw Hh. cbv zeta.
  rewrite (enter_resize st form img Himg). cbn [fst snd].
  rewrite (apply_resize _ _ img); [|exact Himg|exact Hw|exact Hh].
  cbn [resizeWidth resizeHeight].
  generalize (resizeImage img (Z2F (naturalWidth img)) (Z2F (naturalHeight img))).
  intros resized.
  set (shown := set_processedImage (Some resized) _).
  destruct (use_resized_then_load shown resized Hload eq_refl eq_refl eq_refl)
    as (-> & -> & -> & ->).
  destruct (cancel_resized shown eq_refl) as (-> & -> & ->).
  by repeat split.
Qed.

End SessionProperties.

Import Examples.

(** The examples are evaluated with the store [Canvas.roundingStore]. *)
#[local] Existing Instance Canvas.roundingStore.

Lemma fill_outside_image_is_noop_witness :
  Editor.handleMouseDown noFill
    (Editor.handleEnterFill sampleEditor) (Editor.mkMouseEvent 100 300)
  = Editor.handleEnterFill sampleEditor
  /\ Editor.rasterCalls
       (Editor.handleMouseDown noFill
          (Editor.handleEnterFill sampleEditor) (Editor.mkMouseEvent 100 300))
     = Editor.rasterCalls (Editor.handleEnterFill sampleEditor)
  /\ Editor.imageRef
       (Editor.handleMouseDown noFill
          (Editor.handleEnterFill sampleEditor) (Editor.mkMouseEvent 100 300))
     = Some sampleImage
  /\ Editor.undoStack
       (Editor.handleMouseDown noFill
          (Editor.handleEnterFill sampleEditor) (Editor.mkMouseEvent 100 300))
     = Editor.undoStack (Editor.handleEnterFill sampleEditor)
  /\ Editor.loading
       (Editor.handleMouseDown noFill
          (Editor.handleEnterFill sampleEditor) (Editor.mkMouseEvent 100 300))
     = Editor.loading (Editor.handleEnterFill sampleEditor).
Proof.
  apply (fill_outside_image_is_noop noFill
           (Editor.handleEnterFill sampleEditor) (Editor.mkMouseEvent 100 300)
           sampleImage);
    vm_compute; reflexivity.
Defined.

Lemma use_as_source_leaves_history_witness :
  Editor.imageRef (Editor.runLoads (Editor.handleUseAsSource showingCrop))
  = Some otherImage
  /\ Editor.undoStack (Editor.runLoads (Editor.handleUseAsSource showingCrop))
     = Editor.undoStack showingCrop
  /\ Editor.redoStack (Editor.runLoads (Editor.handleUseAsSource showingCrop))
     = Editor.redoStack showingCrop
  /\ Editor.undoStack (Editor.runLoads (Editor.handleUseAsSource showingCrop))
     <> Editor.undoStack showingCrop ++ [sampleImage].
Proof.
  apply (use_as_source_leaves_history showingCrop sampleImage otherImage);
    [reflexivity | reflexivity | left; reflexivity].
Defined.

Lemma removeBackground_alpha_bands_witness :
  Canvas.pixels
    (Canvas.removeBackground (Canvas.mkImage 1 1 [3; 4; 0; 200]) (Canvas.mkRGB 0 0 0) 10)
    !! 3%nat = Some 0.
Proof.
  refine (proj1 (removeBackground_alpha_bands
                   (Canvas.mkImage 1 1 [3; 4; 0; 200]) (Canvas.mkRGB 0 0 0) 10
                   0 3 4 0 200 eq_refl eq_refl eq_refl eq_refl) _ _);
    vm_compute; reflexivity.
Defined.

Lemma removeBackground_only_alpha_witness :
  (Canvas.pixels
     (Canvas.removeBackground (Canvas.mkImage 1 1 [0; 0; 0; 0]) (Canvas.mkRGB 36 18 18) 10)
     !! 3%nat = Some 255
   /\ Canvas.pixels
        (Canvas.removeBackground (Canvas.mkImage 1 1 [0; 0; 0; 0]) (Canvas.mkRGB 36 18 18) 10)
        !! 0%nat = Some 0)
  /\ Canvas.pixels
       (Canvas.removeBackground (Canvas.mkImage 1 1 [0; 0; 0; 0]) (Canvas.mkRGB 21 0 0)
          (2100 / 441)%float)
       !! 3%nat = Some 255.
Proof.
  split.
  - destruct (removeBackground_only_alpha
                (Canvas.mkImage 1 1 [0; 0; 0; 0]) (Canvas.mkRGB 36 18 18) 10)
      as (_ & _ & _ & Hpixel).
    destruct (Hpixel 0%nat 0 0 0 0 eq_refl eq_refl eq_refl eq_refl)
      as (_ & Hopaque & _ & _ & _ & _ & Hramp & _).
    assert (Canvas.pixels
              (Canvas.removeBackground (Canvas.mkImage 1 1 [0; 0; 0; 0])
                 (Canvas.mkRGB 36 18 18) 10) !! (4 * 0 + 3)%nat = Some 255) as Halpha
      by (apply Hramp; vm_compute; reflexivity).
    split; [exact Halpha|].
    apply Hopaque; [unfold Spec.isByte; lia..|exact Halpha].
  - destruct (removeBackground_only_alpha
                (Canvas.mkImage 1 1 [0; 0; 0; 0]) (Canvas.mkRGB 21 0 0)
                (2100 / 441)%float) as (_ & _ & _ & Hpixel).
    destruct (Hpixel 0%nat 0 0 0 0 eq_refl eq_refl eq_refl eq_refl)
      as (_ & _ & _ & _ & _ & _ & _ & Hfull & _).
    apply Hfull; try (unfold Spec.isByte; simpl; lia);
      [discriminate | vm_compute; reflexivity].
Defined.

Lemma detectBackgroundColor_samples_and_result_witness :
  exists (colors : list Canvas.RGBColor) (key : Canvas.Key),
    Canvas.sampleEdges sampleImage = Some colors
    /\ colors = Spec.edgeSamples sampleImage
    /\ Forall (Spec.onEdge sampleImage) colors
    /\ Z.of_nat (length colors)
       = 2 * Spec.ceilDiv 2 (Spec.stride 2 2) + 2 * Spec.ceilDiv 2 (Spec.stride 2 2)
    /\ Z.of_nat (length colors) <= Z.min 398 (2 * (2 + 2))
    /\ Spec.members key colors <> []
    /\ (forall key', (length (Spec.members key' colors)
                      <= length (Spec.members key colors))%nat)
    /\ Canvas.detectBackgroundColor sampleImage
       = Some (Canvas.mkRGB (Spec.average Canvas.r (Spec.members key colors))
                            (Spec.average Canvas.g (Spec.members key colors))
                            (Spec.average Canvas.b (Spec.members key colors))).
Proof.
  apply (detectBackgroundColor_samples_and_result sampleImage); simpl; lia.
Defined.

Lemma encodeWAV_header_witness :
  exists buf,
    Audio.encodeWAV [1; -1]%float (JS.Z2F 44100) = Some buf
    /\ length buf = 48%nat
    /\ Audio.getUint32 buf 4 = Some 40
    /\ Audio.getUint32 buf 40 = Some 4.
Proof.
  destruct (encodeWAV_header [1; -1]%float 44100) as [(buf & Hbuf & Hlen & Hfields) _];
    [by left | simpl; lia |].
  exists buf. split; [exact Hbuf|]. split; [exact Hlen|].
  split; [apply Hfields | apply Hfields].
Defined.

Lemma encodeWAV_sample_word_witness :
  exists buf,
    Audio.encodeWAV [0.5]%float 44100 = Some buf
    /\ Audio.getInt16 buf 44 = Some (JS.ToInt16 (Audio.quantize 0.5)).
Proof.
  destruct (encodeWAV_sample_word [0.5]%float 44100 0 0.5 eq_refl)
    as [(buf & Hbuf & Hword & _) _].
  exists buf. split; [exact Hbuf | exact Hword].
Defined.

(** ** Instances of the further properties *)

Import MoreExamples.

Lemma hitTestHandle_on_a_handle_witness :
  exists (i : nat) (grabbed : Geometry.ResizeHandle) (pos' : Geometry.Point),
    Geometry.hitTestHandle (Geometry.mkRect 0 0 100 100) 0 0 = Some grabbed
    /\ Geometry.getHandlePositions (Geometry.mkRect 0 0 100 100) !! i
       = Some (grabbed, pos')
    /\ (i <= 0)%nat.
Proof.
  apply (hitTestHandle_on_a_handle (Geometry.mkRect 0 0 100 100) 0
           Geometry.TopLeft (Geometry.mkPoint 0 0));
    reflexivity.
Defined.

Lemma getPixelColor_reads_image_pixel_witness :
  (exists x y,
     JS.Math_round ((400 - 399) / 1)%float = JS.IInt x
     /\ JS.Math_round ((300 - 299) / 1)%float = JS.IInt y
     /\ 0 <= x < 2 /\ 0 <= y < 2
     /\ Canvas.mkRGB 11 11 11 = Spec.colourAt sampleImage x y)
  /\ Canvas.getPixelColor sampleImage 400 300 0 400 300 = JS.Throws.
Proof.
  split.
  - apply (proj1 (getPixelColor_reads_image_pixel sampleImage 400 300 1 399 299)
             (Canvas.mkRGB 11 11 11)).
    vm_compute; reflexivity.
  - apply (proj1 (proj2 (getPixelColor_reads_image_pixel sampleImage 400 300 0 400 300)));
      vm_compute; reflexivity.
Defined.

Lemma detectBackgroundColor_uniform_border_witness :
  Canvas.detectBackgroundColor (framed 200 100 0) = Some (Canvas.mkRGB 1 2 3).
Proof.
  apply (detectBackgroundColor_uniform_border (framed 200 100 0) (Canvas.mkRGB 1 2 3));
    [simpl; lia | simpl; lia |].
  simpl. intros x y Hx Hy Hedge.
  assert (x = 0 \/ x = 1 \/ x = 2) as [-> | [-> | ->]] by lia;
    assert (y = 0 \/ y = 1 \/ y = 2) as [-> | [-> | ->]] by lia;
    try reflexivity; lia.
Defined.

Lemma detectBackgroundColor_channels_are_bytes_witness :
  exists c,
    Canvas.detectBackgroundColor sampleImage = Some c
    /\ Spec.isByte (Canvas.r c) /\ Spec.isByte (Canvas.g c) /\ Spec.isByte (Canvas.b c).
Proof.
  apply (detectBackgroundColor_channels_are_bytes sampleImage);
    [simpl; lia | simpl; lia |].
  repeat apply Forall_cons_2; try apply Forall_nil_2; unfold Spec.isByte; lia.
Defined.

Lemma detectBackgroundColor_ignores_interior_witness :
  Canvas.detectBackgroundColor (framed 200 100 0)
  = Canvas.detectBackgroundColor (framed 0 0 255).
Proof.
  apply (detectBackgroundColor_ignores_interior (framed 200 100 0) (framed 0 0 255));
    [reflexivity | reflexivity |].
  simpl. intros x y Hx Hy Hedge.
  assert (x = 0 \/ x = 1 \/ x = 2) as [-> | [-> | ->]] by lia;
    assert (y = 0 \/ y = 1 \/ y = 2) as [-> | [-> | ->]] by lia;
    try reflexivity; lia.
Defined.

Lemma detectBackgroundColor_tie_break_witness :
  exists (colors : list Canvas.RGBColor) (key : Canvas.Key),
    Canvas.sampleEdges tied = Some colors
    /\ Spec.members key colors <> []
    /\ Canvas.detectBackgroundColor tied
       = Some (Canvas.mkRGB (Spec.average Canvas.r (Spec.members key colors))
                            (Spec.average Canvas.g (Spec.members key colors))
                            (Spec.average Canvas.b (Spec.members key colors)))
    /\ forall key',
         (length (Spec.members key' colors) <= length (Spec.members key colors))%nat
         /\ (key' <> key ->
             length (Spec.members key' colors) = length (Spec.members key colors) ->
             SampleOrder.before key key' colors).
Proof.
  apply (detectBackgroundColor_tie_break tied); simpl; lia.
Defined.

Lemma removeBackground_keeps_bytes_witness :
  Forall Spec.isByte
    (Canvas.pixels (Canvas.removeBackground sampleImage (Canvas.mkRGB 11 11 11) 10)).
Proof.
  apply (removeBackground_keeps_bytes sampleImage (Canvas.mkRGB 11 11 11) 10).
  repeat apply Forall_cons_2; try apply Forall_nil_2; unfold Spec.isByte; lia.
Defined.

Lemma removeBackground_exact_match_witness :
  Canvas.pixels (Canvas.removeBackground sampleImage (Canvas.mkRGB 12 12 12) (JS.Z2F 10))
    !! 7%nat = Some 0
  /\ Canvas.pixels (Canvas.removeBackground sampleImage (Canvas.mkRGB 10 10 10) 0)
       !! 7%nat = Some 255.
Proof.
  split.
  - apply (removeBackground_exact_match sampleImage (Canvas.mkRGB 12 12 12) 10 1
             12 12 12 255); [lia | reflexivity..].
  - apply (removeBackground_exact_match sampleImage (Canvas.mkRGB 10 10 10) 0 1
             12 12 12 255); [lia | reflexivity | reflexivity | reflexivity | reflexivity
                             | unfold Spec.isByte; simpl; lia.. | discriminate].
Defined.

Lemma encodeWAV_clips_witness :
  exists buf,
    Audio.encodeWAV [2.5; -7]%float 44100 = Some buf
    /\ ((1 <=? 2.5)%float = true -> Audio.getInt16 buf (44 + 2 * 0) = Some 32767)
    /\ ((2.5 <=? -1)%float = true -> Audio.getInt16 buf (44 + 2 * 0) = Some (-32768))
    /\ (is_nan 2.5 = true -> Audio.getInt16 buf (44 + 2 * 0) = Some 0).
Proof.
  apply (encodeWAV_clips [2.5; -7]%float 44100 0 2.5). reflexivity.
Defined.

Lemma drag_gesture_witness :
  Editor.selection selected = Some (Geometry.mkRect 410 310 60 40)
  /\ Editor.interactionMode selected = Editor.idle.
Proof.
  destruct (drag_gesture noFill sampleEditor
              (Editor.mkMouseEvent 410 310) (Editor.mkMouseEvent 470 350)
              eq_refl eq_refl eq_refl eq_refl) as (Hmode & _ & _ & Hselection).
  split; [|exact Hmode].
  etransitivity; [exact Hselection|]. vm_compute. reflexivity.
Defined.

Lemma undo_redo_round_trip_witness :
  Editor.imageRef
    (Editor.runLoads (Editor.handleRedo (Editor.runLoads (Editor.handleUndo flipped))))
  = Some sampleImage
  /\ Editor.undoStack
       (Editor.runLoads (Editor.handleRedo (Editor.runLoads (Editor.handleUndo flipped))))
     = [sampleImage].
Proof.
  destruct (undo_redo_round_trip flipped sampleImage eq_refl eq_refl) as [Hundo _].
  destruct Hundo as (_ & Himage & Hstack & _); [discriminate|].
  split; [exact Himage | exact Hstack].
Defined.

Lemma undo_restores_image_before_edit_witness :
  Editor.imageRef (Editor.runLoads (Editor.handleUndo flipped)) = Some sampleImage
  /\ Editor.redoStack (Editor.runLoads (Editor.handleUndo flipped)) = [sampleImage].
Proof.
  destruct (undo_restores_image_before_edit noFill noFlip sampleEditor sampleImage
              eq_refl eq_refl) as [(_ & _ & Himage & _ & Hredo) _].
  split; [exact Himage | exact Hredo].
Defined.

Lemma computeLayout_never_enlarges_witness :
  Editor.scale (Editor.imageLayout sampleEditor) = 1%float.
Proof.
  destruct (computeLayout_never_enlarges sampleImage
              (Editor.set_imageRef (Some sampleImage)
                 (Editor.initial (Some (Editor.mkSize 800 600)) (Geometry.mkPoint 0 0)))
              (Editor.mkSize 800 600) eq_refl) as (_ & _ & Hfits).
  apply Hfits; reflexivity.
Defined.

Lemma remove_background_flow_witness :
  Editor.imageRef
    (Editor.runLoads
       (Editor.handleUseAsSource
          (Session.handleApplyRemoveBg (Session.handleEnterRemoveBg sampleEditor))))
  = Some (Canvas.removeBackground sampleImage (Canvas.mkRGB 11 11 11) 10).
Proof.
  destruct (remove_background_flow sampleEditor sampleImage (Canvas.mkRGB 11 11 11)
              eq_refl eq_refl eq_refl eq_refl) as (_ & _ & Himage & _).
  exact Himage.
Defined.



Lemma pick_colour_click_witness :
  Editor.handleMouseDown noFill picking (Editor.mkMouseEvent 400 300)
  = Editor.set_pickingColor false
      (Editor.set_bgColor (Some (Canvas.mkRGB 11 11 11)) picking).
Proof.
  pose proof (pick_colour_click noFill picking (Editor.mkMouseEvent 400 300) sampleImage
                eq_refl eq_refl eq_refl eq_refl eq_refl eq_refl
                ltac:(simpl; lia) ltac:(simpl; lia)) as Hclick.
  exact (proj1 Hclick).
Defined.

Lemma hover_cursor_announces_gesture_witness :
  Editor.cursorStyle (Editor.handleMouseMove selected (Editor.mkMouseEvent 440 330))
  = Editor.move
  /\ Editor.interactionMode
       (Editor.handleMouseDown noFill selected (Editor.mkMouseEvent 440 330))
     = Editor.moving.
Proof.
  pose proof (hover_cursor_announces_gesture noFill selected
                (Editor.mkMouseEvent 440 330)
                eq_refl eq_refl eq_refl eq_refl eq_refl) as Hhover.
  split; [reflexivity | exact Hhover].
Defined.

Lemma resize_flow_witness :
  Editor.imageRef
    (Editor.runLoads
       (Editor.handleUseAsSource
          (Session.handleApplyResize noResize
             (fst (Session.handleEnterResize sampleEditor Session.initialForm))
             (snd (Session.handleEnterResize sampleEditor Session.initialForm)))))
  = Some sampleImage
  /\ snd (Session.handleEnterResize sampleEditor Session.initialForm)
     = Session.mkResizeForm 2 2 true 1.
Proof.
  destruct (resize_flow noResize sampleEditor Session.initialForm sampleImage
              eq_refl eq_refl eq_refl eq_refl) as (Hform & _ & _ & Himage & _).
  split; [exact Himage|].
  etransitivity; [exact Hform|]. vm_compute. reflexivity.
Defined.
